(** * GitAssistant-Ollama: the retrieval pipeline

    A shallow embedding of [core/code_parser.py] (the chunker) and
    [core/retriever.py] (collection naming, index build, retrieval), with
    the properties of the specification stated over it.

    Conventions.
    - A Python [str] is a list of Unicode code points.
    - A Python [int] is a [Z]; list positions and lengths are [nat].
    - A Python [float] is an IEEE-754 binary64 value, [spec_float] with
      precision 53 and maximal exponent 1024.
    - A raised exception is a value of [exn]; state changes made before the
      exception is raised are kept. *)

From Stdlib Require Import ZArith NArith List Bool Lia String Ascii Sorted.
From Stdlib Require Import Floats.SpecFloat.
From stdpp Require Import gmap list.

Import ListNotations.
Local Open Scope Z_scope.

(** ** Python strings *)

Module PyStr.

Definition codepoint := N.
Definition str := list N.

(** A string literal of the source (all of them are ASCII). *)
Definition lit (s : string) : str :=
  List.map N_of_ascii (list_ascii_of_string s).

Definition is_ascii (c : N) : bool := (c <? 128)%N.

Definition is_digit (c : N) : bool := (48 <=? c)%N && (c <=? 57)%N.
Definition is_upper (c : N) : bool := (65 <=? c)%N && (c <=? 90)%N.
Definition is_lower (c : N) : bool := (97 <=? c)%N && (c <=? 122)%N.

Definition ascii_isalnum (c : N) : bool :=
  is_digit c || is_upper c || is_lower c.

Definition ascii_lower (c : N) : N :=
  if is_upper c then (c + 32)%N else c.

(** [s.replace(old, new)] for one-character [old] and [new]. *)
Definition replace (old new : N) (s : str) : str :=
  List.map (fun c => if (c =? old)%N then new else c) s.

(** [c in s] for a one-character [c]. *)
Definition char_in (c : N) (s : str) : bool :=
  existsb (fun d => (c =? d)%N) s.

(** [s[:n]] for [n >= 0]. *)
Definition prefix (n : nat) (s : str) : str := firstn n s.

Section Unicode.
(** The Unicode character database is not part of the repository: what
    [str.isalnum] answers on a code point above U+007F, and what
    [str.lower] returns on a string that is not pure ASCII, are
    parameters. *)
Variable unicode_isalnum : N -> bool.
Variable unicode_lower : str -> str.

Definition isalnum (c : N) : bool :=
  if is_ascii c then ascii_isalnum c else unicode_isalnum c.

Definition lower (s : str) : str :=
  if forallb is_ascii s then List.map ascii_lower s else unicode_lower s.
End Unicode.

(** [str(n)] for a non-negative integer: its decimal digits. *)
Fixpoint digits_fuel (fuel : nat) (n : N) (acc : str) : str :=
  match fuel with
  | O => acc
  | S fuel' =>
      let acc' := (48 + n mod 10)%N :: acc in
      if (n <? 10)%N then acc' else digits_fuel fuel' (n / 10)%N acc'
  end.

Definition of_nat (n : nat) : str :=
  digits_fuel (S n) (N.of_nat n) [].

End PyStr.

Import PyStr.

(** ** Python list slices *)

(** [l[lo:hi]]: a negative bound counts from the end, and both bounds are
    clipped to the list. *)
Definition slice_bound (n i : Z) : Z :=
  if i <? 0 then Z.max (i + n) 0 else Z.min i n.

Definition py_slice {A : Type} (l : list A) (lo hi : Z) : list A :=
  let n := Z.of_nat (length l) in
  let lo' := slice_bound n lo in
  let hi' := slice_bound n hi in
  firstn (Z.to_nat (hi' - lo')) (skipn (Z.to_nat lo') l).

(** [range(start, stop, step)] for a positive [step]. *)
Definition py_range (start stop step : nat) : list nat :=
  List.map (fun k => (start + k * step)%nat)
           (seq 0 (Nat.div (stop - start + (step - 1)) step)).

(** ** Settings ([config/settings.py]) *)

Module Settings.
Definition TOP_K_RESULTS : Z := 5.
Definition CHUNK_SIZE : Z := 1000.
Definition CHUNK_OVERLAP : Z := 200.

Definition SUPPORTED_EXTENSIONS : list str :=
  List.map lit
    [ ".py"; ".js"; ".jsx"; ".ts"; ".tsx"; ".java"; ".cpp"; ".c"; ".h";
      ".cs"; ".go"; ".rs"; ".php"; ".rb"; ".swift"; ".kt"; ".scala";
      ".md"; ".txt"; ".json"; ".yaml"; ".yml"; ".xml"; ".html"; ".css";
      ".sh"; ".bash"; ".sql"; ".r"; ".m"; ".dart"; ".vue"; ".svelte"
    ]%string.

Definition MAX_FILE_SIZE_MB : Z := 5.

Definition IGNORED_DIRS : list str :=
  List.map lit
    [ ".git"; "node_modules"; "__pycache__"; ".venv"; "venv";
      "env"; "dist"; "build"; ".next"; ".nuxt"; "target";
      "bin"; "obj"; "vendor"; "bower_components"; ".idea";
      ".vscode"; "__MACOSX"; ".DS_Store" ]%string.
End Settings.

(** ** The chunker ([core/code_parser.py]) *)

Record CodeDocument := mkCodeDocument {
  content : str;
  file_path : str;
  language : str;
  chunk_id : Z
}.

Definition token := N.

(** [CodeParser.__init__]: the two sizes are read from [Settings]; the
    encoder is tiktoken's, whose tables are not part of the repository.
    [encoder.encode(text)] raises on some texts (with its default
    arguments tiktoken refuses a text that contains the text of a special
    token): [encode_raises] says on which, and [encode] gives the token
    sequence of a text that is accepted. *)
Record CodeParser := mkCodeParser {
  chunk_size : Z;
  chunk_overlap : Z;
  encode : str -> list token;
  decode : list token -> str;
  encode_raises : str -> bool
}.

Definition CodeParser_init (enc : str -> list token) (dec : list token -> str)
    (raises : str -> bool) : CodeParser :=
  {| chunk_size := Settings.CHUNK_SIZE;
     chunk_overlap := Settings.CHUNK_OVERLAP;
     encode := enc;
     decode := dec;
     encode_raises := raises |}.

Section Chunker.
Variable self : CodeParser.

(** The [while start < len(tokens)] loop of [chunk_text]. One unit of
    fuel is one iteration; [None] means the fuel ran out. *)
Fixpoint chunk_loop (fuel : nat) (tokens : list token)
    (file_path language : str) (start chunk_id : Z)
    : option (list CodeDocument) :=
  match fuel with
  | O => None
  | S fuel' =>
      if start <? Z.of_nat (length tokens) then
        let end_ := start + chunk_size self in
        let chunk_tokens := py_slice tokens start end_ in
        let chunk_text := decode self chunk_tokens in
        let doc := mkCodeDocument chunk_text file_path language chunk_id in
        let start' := end_ - chunk_overlap self in
        let chunk_id' := chunk_id + 1 in
        if start' >=? Z.of_nat (length tokens) - chunk_overlap self then
          Some [doc]
        else
          match chunk_loop fuel' tokens file_path language start' chunk_id' with
          | Some rest => Some (doc :: rest)
          | None => None
          end
      else Some []
  end.

Definition chunk_text (fuel : nat) (text file_path language : str)
    : option (list CodeDocument) :=
  let tokens := encode self text in
  if Z.of_nat (length tokens) <=? chunk_size self then
    Some [mkCodeDocument text file_path language 0]
  else
    chunk_loop fuel tokens file_path language 0 0.
End Chunker.

(** [get_language_from_extension]: the table is keyed by the lower-cased
    suffix of the path. *)
Definition ext_map : list (str * str) :=
  List.map (fun p => (lit (fst p), lit (snd p)))
    [ (".py", "python"); (".js", "javascript"); (".jsx", "javascript");
      (".ts", "typescript"); (".tsx", "typescript"); (".java", "java");
      (".cpp", "cpp"); (".c", "c"); (".h", "c"); (".cs", "csharp");
      (".go", "go"); (".rs", "rust"); (".php", "php"); (".rb", "ruby");
      (".swift", "swift"); (".kt", "kotlin"); (".scala", "scala");
      (".md", "markdown"); (".txt", "text"); (".json", "json");
      (".yaml", "yaml"); (".yml", "yaml"); (".xml", "xml");
      (".html", "html"); (".css", "css"); (".sh", "bash");
      (".sql", "sql"); (".r", "r"); (".dart", "dart");
      (".vue", "vue"); (".svelte", "svelte") ]%string.

Fixpoint dict_get (d : list (str * str)) (k : str) (default : str) : str :=
  match d with
  | [] => default
  | (k', v) :: d' => if decide (k = k') then v else dict_get d' k default
  end.

(** A file as [FileUtils.scan_repository] and [FileUtils.read_file_content]
    hand it over: its path relative to the repository, the suffix of that
    path, and its text (the empty string when it could not be read). *)
Record ScannedFile := mkScannedFile {
  relative_path : str;
  suffix : str;
  file_content : str
}.

Section Parser.
Variable unicode_lower : str -> str.
Variable self : CodeParser.

Definition get_language_from_extension (f : ScannedFile) : str :=
  dict_get ext_map (lower unicode_lower (suffix f)) (lit "text").

(** The [for file_path in files] loop of [parse_repository]. Its body is
    a [try] whose handler is [except Exception: continue]: a file on
    whose content [chunk_text] raises (the tokenizer refuses it) is
    skipped. *)
Fixpoint parse_repository (fuel : nat) (files : list ScannedFile)
    : option (list CodeDocument) :=
  match files with
  | [] => Some []
  | f :: files' =>
      if decide (file_content f = []) then
        parse_repository fuel files'
      else if encode_raises self (file_content f) then
        parse_repository fuel files'
      else
        match chunk_text self fuel (file_content f) (relative_path f)
                         (get_language_from_extension f) with
        | None => None
        | Some chunks =>
            match parse_repository fuel files' with
            | None => None
            | Some documents => Some (chunks ++ documents)
            end
        end
  end.
End Parser.

(** A tokenizer for examples: one token per code point, no text
    refused. *)
Definition char_parser (size overlap : Z) : CodeParser :=
  {| chunk_size := size; chunk_overlap := overlap;
     encode := fun s => s; decode := fun t => t;
     encode_raises := fun _ => false |}.

(** The windows the specification describes: window [i] starts at offset
    [i * (chunk_size - overlap)] and holds [chunk_size] tokens. *)
Definition window_start (self : CodeParser) (i : nat) : Z :=
  Z.of_nat i * (chunk_size self - chunk_overlap self).

Definition window_at (self : CodeParser) (tokens : list token) (i : nat)
  : list token :=
  py_slice tokens (window_start self i) (window_start self i + chunk_size self).

Definition window_doc (self : CodeParser) (tokens : list token)
    (file_path language : str) (i : nat) : CodeDocument :=
  mkCodeDocument (decode self (window_at self tokens i)) file_path language
                 (Z.of_nat i).

(** Gluing overlapping windows back together: every window but the last
    contributes its first [step] tokens, the last one all of its tokens. *)
Fixpoint stitch {A : Type} (step : nat) (windows : list (list A)) : list A :=
  match windows with
  | [] => []
  | [w] => w
  | w :: ws => firstn step w ++ stitch step ws
  end.

(** ** Python floats *)

Module PyFloat.

Definition float := spec_float.
Definition prec : Z := 53.
Definition emax : Z := 1024.

Definition zero : float := S754_zero false.                    (* 0.0 *)
Definition one : float := S754_finite false 4503599627370496 (-52).  (* 1.0 *)
Definition two : float := S754_finite false 4503599627370496 (-51).  (* 2.0 *)

Definition ltb (x y : float) : bool := SFltb x y.
Definition leb (x y : float) : bool := SFleb x y.
Definition sub (x y : float) : float := SFsub prec emax x y.
Definition div (x y : float) : float := SFdiv prec emax x y.
Definition mul (x y : float) : float := SFmul prec emax x y.

Definition is_nan (x : float) : bool :=
match x with S754_nan => true | _ => false end.

(** [min(a, b)] and [max(a, b)] of the builtins: the second argument wins
  only when it compares strictly below (above) the first. *)
Definition py_min (a b : float) : float := if ltb b a then b else a.
Definition py_max (a b : float) : float := if ltb a b then b else a.

End PyFloat.

(** ** The retriever ([core/retriever.py]) *)

(** The exceptions: those the repository raises or meets by name, and
    [LibraryError] for an exception of a class it does not name (a
    time-out or a refused connection of [requests], say). *)
Inductive exn :=
| ValueError (msg : string)
| RuntimeError
| OverflowError
| BackendError
| AttributeError
| LibraryError (class : string).

Inductive outcome (A : Type) :=
| Ok (a : A)
| Raise (e : exn).
Arguments Ok {A} a.
Arguments Raise {A} e.

(** [x ** 2] on a float. CPython's [float_pow] answers the special values
    itself, calls the C library's [pow] (taken as correctly rounded) on the
    rest, and raises [OverflowError] when a finite operand overflows. *)
Definition py_float_pow2 (x : PyFloat.float) : outcome PyFloat.float :=
  match x with
  | S754_nan => Ok S754_nan
  | S754_infinity _ => Ok (S754_infinity false)
  | S754_zero _ => Ok (S754_zero false)
  | S754_finite _ _ _ =>
      match PyFloat.mul (SFabs x) (SFabs x) with
      | S754_infinity _ => Raise OverflowError
      | r => Ok r
      end
  end.

(** [similarity = max(0.0, min(1.0, 1 - (dist**2 / 2)))] *)
Definition raw_similarity (sq : PyFloat.float) : PyFloat.float :=
  PyFloat.sub PyFloat.one (PyFloat.div sq PyFloat.two).

Definition similarity (dist : PyFloat.float) : outcome PyFloat.float :=
  match py_float_pow2 dist with
  | Raise e => Raise e
  | Ok sq =>
      Ok (PyFloat.py_max PyFloat.zero
            (PyFloat.py_min PyFloat.one (raw_similarity sq)))
  end.

(** [clamp(x, lo, hi)] as the specification words it: [lo] at or below
    [lo], [hi] at or above [hi], [x] in between. *)
Definition clamp (x lo hi : PyFloat.float) : PyFloat.float :=
  if PyFloat.leb x lo then lo
  else if PyFloat.leb hi x then hi
  else x.

(** [_get_collection_name] *)
Section CollectionName.
Variable unicode_isalnum : N -> bool.
Variable unicode_lower : str -> str.

Definition _get_collection_name (repo_name : str) : str :=
  let name := replace 46 95 (replace 45 95 (lit "repo_" ++ repo_name)) in
  let name :=
    List.filter
      (fun c => isalnum unicode_isalnum c || char_in c (lit "_-.")) name in
  lower unicode_lower (prefix 63 name).
End CollectionName.

(** The pattern [^[a-z0-9_.-]{1,63}$]. *)
Definition name_char (c : N) : bool :=
  is_lower c || is_digit c || (c =? 95)%N || (c =? 46)%N || (c =? 45)%N.

Definition matches_name_pattern (s : str) : bool :=
  (1 <=? length s)%nat && (length s <=? 63)%nat && forallb name_char s.

(** The Latin-1 Supplement rows (U+0080..U+00FF) of the Unicode database,
    for examples: which code points are letters or numbers, and their
    lower-case mapping. Code points above U+00FF are outside this table
    and are left alone. *)
Definition latin1_isalnum (c : N) : bool :=
  ((c =? 170) || (c =? 178) || (c =? 179) || (c =? 181) || (c =? 185)
   || (c =? 186) || ((188 <=? c) && (c <=? 190))
   || ((192 <=? c) && (c <=? 214)) || ((216 <=? c) && (c <=? 246))
   || ((248 <=? c) && (c <=? 255)))%N.

Definition latin1_lower (s : str) : str :=
  List.map
    (fun c =>
       if is_upper c then (c + 32)%N
       else if ((192 <=? c) && (c <=? 222) && negb (c =? 215))%N
            then (c + 32)%N
            else c) s.

Record metadata := mkMetadata {
  md_file_path : str;
  md_language : str;
  md_chunk_id : Z
}.

(** What [collection.query] hands back (for the single query vector):
    three lists in step. *)
Record QueryResult := mkQueryResult {
  res_documents : list str;
  res_metadatas : list metadata;
  res_distances : list PyFloat.float
}.

Section Retriever.
(** The embedding vectors are opaque here. *)
Variable vector : Type.

(** One stored record of a collection. *)
Record row := mkRow {
  row_id : str;
  row_document : str;
  row_metadata : metadata;
  row_embedding : vector
}.

(** What the retriever does to the outside, in order. *)
Inductive event :=
| EvEmbed (text : str)
| EvGetOrCreate (name : str)
| EvAdd (name : str) (rows : list row)
| EvQuery (name : str) (query_embedding : vector) (n_results : Z).

(** The fields of a [RAGRetriever], the persistent store it talks to (one
    list of records per collection name, in insertion order) and the
    trace of outside calls. [collection] holds the name of the attached
    collection: the handle is an alias into [db]. *)
Record state := mkState {
  chroma_client : bool;
  collection : option str;
  documents : list CodeDocument;
  db : gmap str (list row);
  trace : list event
}.

(** [RAGRetriever.__init__] on a given store. *)
Definition RAGRetriever_init (store : gmap str (list row)) : state :=
  mkState false None [] store [].

Definition M (A : Type) : Type := state -> outcome A * state.

Definition ret {A : Type} (a : A) : M A := fun s => (Ok a, s).
Definition raise {A : Type} (e : exn) : M A := fun s => (Raise e, s).
Definition bind {A B : Type} (m : M A) (k : A -> M B) : M B :=
  fun s =>
    match m s with
    | (Ok a, s') => k a s'
    | (Raise e, s') => (Raise e, s')
    end.
Definition get : M state := fun s => (Ok s, s).
Definition modify (f : state -> state) : M unit := fun s => (Ok tt, f s).

Notation "x <- m ;; k" := (bind m (fun x => k))
  (at level 100, m at next level, right associativity).
Notation "m ;;; k" := (bind m (fun _ => k))
  (at level 100, right associativity).

Definition log (e : event) : M unit :=
  modify (fun s => mkState (chroma_client s) (collection s) (documents s)
                           (db s) (trace s ++ [e])).

Definition set_documents (docs : list CodeDocument) : M unit :=
  modify (fun s => mkState (chroma_client s) (collection s) docs
                           (db s) (trace s)).

Fixpoint for_each {A : Type} (l : list A) (body : A -> M unit) : M unit :=
  match l with
  | [] => ret tt
  | a :: l' => body a ;;; for_each l' body
  end.

Fixpoint map_M {A B : Type} (f : A -> M B) (l : list A) : M (list B) :=
  match l with
  | [] => ret []
  | a :: l' => b <- f a ;; bs <- map_M f l' ;; ret (b :: bs)
  end.

(** *** The embedding service ([core/embeddings.py]) *)

(** What the call of the service gives for one text: a response of
    status 200 whose body carries an embedding, a response of another
    status, or an exception, raised by [requests.post] (a time-out, a
    refused connection) or by reading the embedding out of the body. *)
Inductive post_result :=
| Status200 (embedding : vector)
| StatusOther
| PostRaises (e : exn).

Variable ollama : str -> post_result.

(** [_embed] raises [RuntimeError] on a status other than 200; an
    exception of the call itself goes through unchanged. *)
Definition _embed (text : str) : M vector :=
  log (EvEmbed text) ;;;
  match ollama text with
  | Status200 v => ret v
  | StatusOther => raise RuntimeError
  | PostRaises e => raise e
  end.

Definition generate_embeddings (texts : list str) : M (list vector) :=
  map_M _embed texts.

Definition generate_query_embedding (query : str) : M vector :=
  _embed query.

(** *** The vector index (ChromaDB), by its contract *)

(** The nearest-neighbour search of the backend over the records of one
    collection; [None] is a failed call. *)
Variable knn : list row -> vector -> Z -> option QueryResult.

Definition rows_of (store : gmap str (list row)) (name : str) : list row :=
  default [] (store !! name).

(** What can go wrong at the backend: the exception
    [chromadb.PersistentClient(...)] raises, if it raises, and the
    exception [get_or_create_collection] raises for a name, if it raises
    (ChromaDB refuses a collection name that breaks its naming rules,
    one that does not end in a letter or digit for instance). *)
Variable client_error : option exn.
Variable create_error : str -> option exn.

(** [self.collection = self.chroma_client.get_or_create_collection(...)]:
    nothing is created or attached when the call raises. *)
Definition get_or_create_collection (name : str) : M unit :=
  log (EvGetOrCreate name) ;;;
  match create_error name with
  | Some e => raise e
  | None =>
      modify (fun s =>
        mkState (chroma_client s) (Some name) (documents s)
                (match db s !! name with
                 | Some _ => db s
                 | None => <[name := []]> (db s)
                 end)
                (trace s))
  end.

(** [collection.count()] *)
Definition collection_count (name : str) : M Z :=
  s <- get ;; ret (Z.of_nat (length (rows_of (db s) name))).

Fixpoint make_rows (ids contents : list str) (metadatas : list metadata)
    (embeddings : list vector) : list row :=
  match ids, contents, metadatas, embeddings with
  | i :: ids', c :: contents', m :: metadatas', e :: embeddings' =>
      mkRow i c m e :: make_rows ids' contents' metadatas' embeddings'
  | _, _, _, _ => []
  end.

(** [collection.add(ids=, documents=, metadatas=, embeddings=)] *)
Definition collection_add (name : str) (ids contents : list str)
    (metadatas : list metadata) (embeddings : list vector) : M unit :=
  let rows := make_rows ids contents metadatas embeddings in
  log (EvAdd name rows) ;;;
  modify (fun s =>
    mkState (chroma_client s) (collection s) (documents s)
            (<[name := rows_of (db s) name ++ rows]> (db s))
            (trace s)).

(** [collection.query(query_embeddings=, n_results=, include=)] *)
Definition collection_query (name : str) (query_embedding : vector)
    (n_results : Z) : M QueryResult :=
  log (EvQuery name query_embedding n_results) ;;;
  s <- get ;;
  match knn (rows_of (db s) name) query_embedding n_results with
  | Some r => ret r
  | None => raise BackendError
  end.

(** *** [RAGRetriever] *)

Variable unicode_isalnum : N -> bool.
Variable unicode_lower : str -> str.

(** [_init_client]: the body of its [try]; the handler logs the
    exception and raises it again, so a failure of either call leaves
    [_init_client] with that exception. *)
Definition _init_client (collection_name : str) : M unit :=
  match client_error with
  | Some e => raise e
  | None =>
      modify (fun s => mkState true (collection s) (documents s)
                               (db s) (trace s)) ;;;
      get_or_create_collection collection_name
  end.

(** [enumerate(documents)] *)
Definition enumerate {A : Type} (l : list A) : list (nat * A) :=
  combine (seq 0 (length l)) l.

Definition doc_id (idx : nat) : str := lit "doc_" ++ of_nat idx.

Definition doc_metadata (doc : CodeDocument) : metadata :=
  {| md_file_path := file_path doc;
     md_language := language doc;
     md_chunk_id := chunk_id doc |}.

Definition batch_size : nat := 500.

Definition build_index (documents : list CodeDocument) (repo_name : str)
    : M unit :=
  match documents with
  | [] => raise (ValueError "No documents provided for indexing")
  | _ :: _ =>
      let collection_name :=
        _get_collection_name unicode_isalnum unicode_lower repo_name in
      _init_client collection_name ;;;
      existing_count <- collection_count collection_name ;;
      if existing_count >? 0 then
        set_documents documents
      else
        set_documents documents ;;;
        let ids := List.map (fun p => doc_id (fst p)) (enumerate documents) in
        let contents :=
          List.map (fun p => content (snd p)) (enumerate documents) in
        let metadatas :=
          List.map (fun p => doc_metadata (snd p)) (enumerate documents) in
        embeddings <- generate_embeddings contents ;;
        for_each (py_range 0 (length documents) batch_size)
          (fun i =>
             let end_ := Nat.min (i + batch_size) (length documents) in
             collection_add collection_name
               (py_slice ids (Z.of_nat i) (Z.of_nat end_))
               (py_slice contents (Z.of_nat i) (Z.of_nat end_))
               (py_slice metadatas (Z.of_nat i) (Z.of_nat end_))
               (py_slice embeddings (Z.of_nat i) (Z.of_nat end_)))
  end.

(** [top_k or Settings.TOP_K_RESULTS]: [None] and [0] are both falsy. *)
Definition top_k_or_default (top_k : option Z) : Z :=
  match top_k with
  | None => Settings.TOP_K_RESULTS
  | Some k => if k =? 0 then Settings.TOP_K_RESULTS else k
  end.

Fixpoint zip3 {A B C : Type} (la : list A) (lb : list B) (lc : list C)
    : list (A * B * C) :=
  match la, lb, lc with
  | a :: la', b :: lb', c :: lc' => (a, b, c) :: zip3 la' lb' lc'
  | _, _, _ => []
  end.

Definition lift {A : Type} (o : outcome A) : M A := fun s => (o, s).

(** The body of the [for text, meta, dist in zip(...)] loop of
    [retrieve]. *)
Definition retrieve_item (item : str * metadata * PyFloat.float)
    : M (CodeDocument * PyFloat.float) :=
  let '(text, meta, dist) := item in
  sim <- lift (similarity dist) ;;
  ret (mkCodeDocument text (md_file_path meta)
                      (md_language meta) (md_chunk_id meta),
       sim).

Definition retrieve (query : str) (top_k : option Z)
    : M (list (CodeDocument * PyFloat.float)) :=
  s <- get ;;
  match collection s with
  | None => raise (ValueError "Collection not initialized")
  | Some name =>
      let top_k := top_k_or_default top_k in
      query_embedding <- generate_query_embedding query ;;
      count <- collection_count name ;;
      results <- collection_query name query_embedding (Z.min top_k count) ;;
      map_M retrieve_item
            (zip3 (res_documents results) (res_metadatas results)
                  (res_distances results))
  end.
End Retriever.

Arguments mkRow {vector}.
Arguments row_id {vector}.
Arguments row_document {vector}.
Arguments row_metadata {vector}.
Arguments row_embedding {vector}.
Arguments Status200 {vector}.
Arguments StatusOther {vector}.
Arguments PostRaises {vector}.
Arguments EvEmbed {vector}.
Arguments EvGetOrCreate {vector}.
Arguments EvAdd {vector}.
Arguments EvQuery {vector}.
Arguments mkState {vector}.
Arguments chroma_client {vector}.
Arguments collection {vector}.
Arguments documents {vector}.
Arguments db {vector}.
Arguments trace {vector}.
Arguments RAGRetriever_init {vector}.
Arguments ret {vector A}.
Arguments raise {vector A}.
Arguments bind {vector A B}.
Arguments get {vector}.
Arguments modify {vector}.
Arguments log {vector}.
Arguments set_documents {vector}.
Arguments for_each {vector A}.
Arguments map_M {vector A B}.
Arguments _embed {vector}.
Arguments generate_embeddings {vector}.
Arguments generate_query_embedding {vector}.
Arguments rows_of {vector}.
Arguments get_or_create_collection {vector}.
Arguments collection_count {vector}.
Arguments make_rows {vector}.
Arguments collection_add {vector}.
Arguments collection_query {vector}.
Arguments _init_client {vector}.
Arguments build_index {vector}.
Arguments lift {vector A}.
Arguments retrieve_item {vector}.
Arguments retrieve {vector}.

(** The records [build_index] hands to [collection.add] for [docs] and
    their embeddings: the [ids], [contents] and [metadatas] lists of the
    source, in step with the embeddings. *)
Definition stored_rows {vector : Type} (docs : list CodeDocument)
    (embs : list vector) : list (row vector) :=
  make_rows (List.map (fun p => doc_id (fst p)) (enumerate docs))
            (List.map (fun p => content (snd p)) (enumerate docs))
            (List.map (fun p => doc_metadata (snd p)) (enumerate docs))
            embs.


(** An embedding service for examples: the vector of a text is its
    length. *)
Definition length_embedder (text : str) : post_result nat :=
  Status200 (length text).

(** A vector index for examples: the first [n_results] records of the
    collection, each at distance [0.0]. *)
Definition first_rows_knn (rows : list (row nat)) (query_embedding : nat)
    (n_results : Z) : option QueryResult :=
  let hits := firstn (Z.to_nat n_results) rows in
  Some (mkQueryResult (List.map row_document hits)
                      (List.map row_metadata hits)
                      (List.map (fun _ => PyFloat.zero) hits)).


(** A backend for examples with one of ChromaDB's naming rules: a
    collection name has to end in a letter or a digit. *)
Definition name_rule (name : str) : option exn :=
  match List.last (List.map Some name) None with
  | Some c =>
      if ascii_isalnum c then None
      else Some (ValueError "Expected collection name to end in [a-zA-Z0-9]")
  | None => Some (ValueError "Expected collection name to end in [a-zA-Z0-9]")
  end.

(** ** Rounding to binary64, as arithmetic on integers

    The reference against which the float operations of [retrieve] are
    compared: a non-negative real [V * 2^E0] is rounded to the nearest
    float, ties to the even mantissa. *)

Module Round.

Definition emin : Z := -1074.

(** How many low bits of [V] the rounding drops. *)
Definition rn_shift (E0 V : Z) : Z :=
  Z.max (Z.log2 V + 1 - 53) (emin - E0).

(** Whether dropping the [k] low bits of [V] rounds up. *)
Definition rn_up (V k : Z) : bool :=
  let r := V mod 2 ^ k in
  let h := 2 ^ (k - 1) in
  (h <? r) || ((r =? h) && Z.odd (V / 2 ^ k)).

(** The exponent and the mantissa of the float nearest to [V * 2^E0]. *)
Definition rn_key (E0 V : Z) : Z * Z :=
  let k := rn_shift E0 V in
  let m := V / 2 ^ k + (if rn_up V k then 1 else 0) in
  if m =? 2 ^ 53 then (E0 + k + 1, 2 ^ 52) else (E0 + k, m).

(** The float with a given sign, exponent and mantissa. *)
Definition key_float (sign : bool) (key : Z * Z) : PyFloat.float :=
  match snd key with
  | Zpos m =>
      if fst key <=? 971 then S754_finite sign m (fst key)
      else S754_infinity sign
  | _ => S754_zero sign
  end.

(** Exponent first, then mantissa. *)
Definition lex_le (k1 k2 : Z * Z) : Prop :=
  fst k1 < fst k2 \/ (fst k1 = fst k2 /\ snd k1 <= snd k2).

(** The exponent and mantissa pairs of binary64: subnormal at the least
    exponent, 53 bits above it. *)
Definition canon (key : Z * Z) : Prop :=
  emin <= fst key /\ 0 <= snd key < 2 ^ 53 /\
  (fst key = emin \/ 2 ^ 52 <= snd key).

(** The value of a pair, in units of [2^emin]. *)
Definition key_val (key : Z * Z) : Z := snd key * 2 ^ (fst key - emin).

(** The value of a non-negative finite float, in units of [2^emin]. *)
Definition float_val (x : PyFloat.float) : Z :=
  match x with
  | S754_finite _ m e => Zpos m * 2 ^ (e - emin)
  | _ => 0
  end.

(** What [retrieve] computes from a finite non-negative distance worth
    [W] units of [2^emin], step by step: the square, its half, and
    [1 -] that half in units of [2^(emin - 1)]. *)
Definition sq_key (W : Z) : Z * Z := rn_key (-2148) (W * W).
Definition half_key (W : Z) : Z * Z := rn_key (-1075) (key_val (sq_key W)).
Definition raw_units (W : Z) : Z := 2 ^ 1075 - 2 * key_val (half_key W).

(** The float nearest to [U * 2^(emin - 1)], for [U] of either sign. *)
Definition signed_round (U : Z) : PyFloat.float :=
  if U =? 0 then S754_zero false
  else if 0 <? U then key_float false (rn_key (-1075) U)
  else key_float true (rn_key (-1075) (- U)).

(** The similarity of a finite non-negative distance worth [W] units of
    [2^emin]. *)
Definition similarity_of_units (W : Z) : PyFloat.float :=
  PyFloat.py_max PyFloat.zero
    (PyFloat.py_min PyFloat.one (signed_round (raw_units W))).

(** What [n] right shifts of the mantissa [m] leave in a shift record:
    the quotient, the last bit shifted out, and whether anything else was
    shifted out. *)
Definition shr_repr (m n : Z) (R : shr_record) : Prop :=
  shr_m R = m / 2 ^ n /\
  (n = 0 -> shr_r R = false /\ shr_s R = false) /\
  (1 <= n ->
   shr_r R = (2 ^ (n - 1) <=? m mod 2 ^ n) /\
   shr_s R = negb ((m mod 2 ^ n =? 0) || (m mod 2 ^ n =? 2 ^ (n - 1)))).

End Round.

(** A distance an index can return: a binary64 value that is not
    negative (so not NaN either). *)
Definition valid_distance (d : PyFloat.float) : Prop :=
  valid_binary PyFloat.prec PyFloat.emax d = true /\
  PyFloat.leb PyFloat.zero d = true.

(** A vector index for examples: the first [n_results] records of the
    collection, at the distances [0.0], [1.0], [2.0]. *)
Definition ranked_knn (rows : list (row nat)) (query_embedding : nat)
    (n_results : Z) : option QueryResult :=
  let hits := firstn (Z.to_nat n_results) rows in
  Some (mkQueryResult (List.map row_document hits)
                      (List.map row_metadata hits)
                      (firstn (length hits)
                              [PyFloat.zero; PyFloat.one; PyFloat.two])).

(** [2.0 ** 511]: the square of a distance up to here is finite. Every
    single-precision value (the index computes its distances in single
    precision) is far below. *)
Definition max_safe_distance : PyFloat.float :=
  S754_finite false 4503599627370496 459.

(** [2.0 ** 512]: the square of a finite distance from here on is beyond
    the largest float. *)
Definition overflow_distance : PyFloat.float :=
  S754_finite false 4503599627370496 460.

(** A finite non-negative binary64 value of [2.0 ** 512] or more. *)
Definition overflowing (d : PyFloat.float) : Prop :=
  valid_binary PyFloat.prec PyFloat.emax d = true /\
  (exists m e, d = S754_finite false m e) /\
  PyFloat.leb overflow_distance d = true.

(** ** File selection ([utils/file_utils.py]) *)

(** [x in s] for a set of strings. *)
Definition str_in (x : str) (s : list str) : bool :=
  existsb (fun y => bool_decide (x = y)) s.

(** What the file system tells about one file: its name, the suffix
    [Path.suffix] reports for it, its size in bytes ([None] when [stat]
    raises [OSError]), and whether its first 1024 characters can be read
    as UTF-8 by this process. *)
Record FileEntry := mkFileEntry {
  fe_name : str;
  fe_suffix : str;
  fe_size : option Z;
  fe_utf8 : bool
}.

(** A directory: its name, its files and its sub-directories, in the
    order [os.walk] lists them. *)
#[warnings="-register-all"] Inductive DirTree :=
| Dir (name : str) (filenames : list FileEntry) (dirs : list DirTree).

Definition dir_name (t : DirTree) : str :=
  match t with Dir name _ _ => name end.

Section FileUtils.
Variable unicode_lower : str -> str.

(** [is_text_file]: [False] on [UnicodeDecodeError] and
    [PermissionError]. *)
Definition is_text_file (f : FileEntry) : bool := fe_utf8 f.

(** [should_process_file]. The size test of the source is
    [st_size / (1024 * 1024) > MAX_FILE_SIZE_MB] on floats; the division
    is a correctly rounded one and [MAX_FILE_SIZE_MB * 1024 * 1024] divides
    exactly, so it is the integer test below. *)
Definition should_process_file (f : FileEntry) : bool :=
  if negb (str_in (lower unicode_lower (fe_suffix f))
                  Settings.SUPPORTED_EXTENSIONS) then false
  else
    match fe_size f with
    | None => false
    | Some st_size =>
        if Settings.MAX_FILE_SIZE_MB * (1024 * 1024) <? st_size then false
        else if negb (is_text_file f) then false
        else true
    end.

(** [dir_name.startswith('.')] *)
Definition starts_with_dot (s : str) : bool :=
  match s with
  | c :: _ => (c =? 46)%N
  | [] => false
  end.

Definition should_ignore_directory (dir_name : str) : bool :=
  str_in dir_name Settings.IGNORED_DIRS || starts_with_dot dir_name.

(** [scan_repository]: the top-down walk, with the ignored directories
    pruned from [dirs] before the walk descends. A path is the list of
    its components; each selected path comes with the file found
    there. *)
Fixpoint scan_repository (root : list str) (t : DirTree)
    : list (list str * FileEntry) :=
  match t with
  | Dir _ filenames dirs =>
      List.map (fun f => (root ++ [fe_name f], f))
               (List.filter should_process_file filenames)
      ++ List.flat_map
           (fun d =>
              if should_ignore_directory (dir_name d) then []
              else scan_repository (root ++ [dir_name d]) d)
           dirs
  end.
End FileUtils.

(** The file [f] lies in the tree [t], below the sub-directories named
    [ds] (outermost first). *)
Inductive at_path : DirTree -> list str -> FileEntry -> Prop :=
| at_here (name : str) (filenames : list FileEntry) (dirs : list DirTree)
    (f : FileEntry) :
    In f filenames -> at_path (Dir name filenames dirs) [] f
| at_sub (name : str) (filenames : list FileEntry) (dirs : list DirTree)
    (d : DirTree) (ds : list str) (f : FileEntry) :
    In d dirs -> at_path d ds f ->
    at_path (Dir name filenames dirs) (dir_name d :: ds) f.

(** Induction over a directory tree, sub-directories included. *)
Fixpoint DirTree_forall_ind (P : DirTree -> Prop)
    (step : forall name filenames dirs,
        List.Forall P dirs -> P (Dir name filenames dirs))
    (t : DirTree) : P t :=
  match t with
  | Dir name filenames dirs =>
      step name filenames dirs
        ((fix go (l : list DirTree) : List.Forall P l :=
            match l with
            | [] => @List.Forall_nil _ P
            | d :: l' =>
                @List.Forall_cons _ P d l' (DirTree_forall_ind P step d)
                                  (go l')
            end) dirs)
  end.

(** ** More of the retriever *)

(** The embedding call for a text fails with [e]: [RuntimeError] for a
    status other than 200, what [requests.post] raises otherwise. *)
Definition embed_fails {vector : Type} (answer : post_result vector)
    (e : exn) : Prop :=
  (answer = StatusOther /\ e = RuntimeError) \/ answer = PostRaises e.

Section RetrieverMore.
Context {vector : Type}.

(** [try: body / except Exception: handler] *)
Definition try_except {A : Type} (body handler : M vector A) : M vector A :=
  fun s =>
    match body s with
    | (Ok a, s') => (Ok a, s')
    | (Raise _, s') => handler s'
    end.

Variable client_error : option exn.
Variable create_error : str -> option exn.

(** [collection_exists]: whatever the body raises, the answer is
    [False]. ([_init_client] returns only with the handle set; on a
    handle that is [None] the call of [count] would raise
    [AttributeError].) *)
Definition collection_exists (collection_name : str) : M vector bool :=
  try_except
    (bind get (fun s =>
     bind (match collection s with
           | None => _init_client client_error create_error collection_name
           | Some _ => ret tt
           end) (fun _ =>
     bind get (fun s =>
     match collection s with
     | Some name =>
         bind (collection_count name) (fun count => ret (count >? 0))
     | None => raise AttributeError
     end))))
    (ret false).
End RetrieverMore.

(** The number a string of decimal digits stands for. *)
Definition digits_value (s : str) : N :=
  fold_left (fun acc c => (10 * acc + (c - 48))%N) s 0%N.

(** [s] is the decimal numeral of [n]: digits only, at least one, worth
    [n], with no leading zero (but for [0] itself). *)
Definition decimal_numeral (n : nat) (s : str) : Prop :=
  s <> [] /\
  Forall (fun c => is_digit c = true) s /\
  digits_value s = N.of_nat n /\
  (n <> 0%nat -> hd 48%N s <> 48%N).

(** The document [parse_repository] makes of a file that fits one
    chunk. *)
Definition whole_file_document (unicode_lower : str -> str)
    (f : ScannedFile) : CodeDocument :=
  mkCodeDocument (file_content f) (relative_path f)
                 (get_language_from_extension unicode_lower f) 0.

Definition has_content (f : ScannedFile) : bool :=
  negb (bool_decide (file_content f = [])).

(** ** Clone URLs ([core/github_handler.py]) *)

(** [s.startswith(prefix)] *)
Fixpoint startswith (s prefix : str) {struct prefix} : bool :=
  match prefix, s with
  | [], _ => true
  | p :: prefix', c :: s' => (c =? p)%N && startswith s' prefix'
  | _ :: _, [] => false
  end.

(** [sub in s] *)
Fixpoint contains (sub s : str) : bool :=
  startswith s sub
  || match s with
     | [] => false
     | _ :: s' => contains sub s'
     end.

(** [s.replace(old, new)] for a non-empty [old]: the occurrences of [old]
    are replaced from left to right, without overlap. [skip] counts the
    characters of the occurrence just replaced that are still to be
    dropped. *)
Fixpoint replace_from (old new : str) (skip : nat) (s : str) : str :=
  match s with
  | [] => []
  | c :: s' =>
      match skip with
      | S skip' => replace_from old new skip' s'
      | O =>
          if startswith s old
          then new ++ replace_from old new (length old - 1) s'
          else c :: replace_from old new 0 s'
      end
  end.

Definition str_replace (old new s : str) : str := replace_from old new 0 s.

(** [get_clone_url]; [github_token] is [Settings.GITHUB_TOKEN], [None]
    when the environment does not set it (and falsy when empty). *)
Definition get_clone_url (github_token : option str) (repo_url : str) : str :=
  let plain :=
    if negb (startswith repo_url (lit "http"))
    then lit "https://github.com/" ++ repo_url ++ lit ".git"
    else repo_url in
  match github_token with
  | Some (c :: t) =>
      let token := c :: t in
      if contains (lit "github.com") repo_url then
        if startswith repo_url (lit "https://") then
          str_replace (lit "https://") (lit "https://" ++ token ++ lit "@")
                      repo_url
        else if negb (startswith repo_url (lit "http")) then
          lit "https://" ++ token ++ lit "@github.com/" ++ repo_url
            ++ lit ".git"
        else plain
      else plain
  | _ => plain
  end.

(** The files [parse_repository] chunks: those with content that the
    tokenizer accepts. *)
Definition is_parsed (self : CodeParser) (f : ScannedFile) : bool :=
  has_content f && negb (encode_raises self (file_content f)).

(** A tokenizer for examples: one token per code point, with the text of
    a special token refused as tiktoken refuses it. *)
Definition special_token_parser (size overlap : Z) : CodeParser :=
  {| chunk_size := size; chunk_overlap := overlap;
     encode := fun s => s; decode := fun t => t;
     encode_raises := contains (lit "<|endoftext|>") |}.

(** * Properties *)

(** ** Slices *)

Lemma py_slice_inside {A : Type} (l : list A) (lo hi : Z) :
  0 <= lo <= hi -> hi <= Z.of_nat (length l) ->
  py_slice l lo hi = firstn (Z.to_nat (hi - lo)) (skipn (Z.to_nat lo) l).
Proof.
  intros Hlo Hhi. unfold py_slice, slice_bound.
  destruct (Z.ltb_spec lo 0); [lia|].
  destruct (Z.ltb_spec hi 0); [lia|].
  rewrite !Z.min_l by lia. reflexivity.
Qed.

Lemma py_slice_to_end {A : Type} (l : list A) (lo hi : Z) :
  0 <= lo <= Z.of_nat (length l) -> Z.of_nat (length l) <= hi ->
  py_slice l lo hi = skipn (Z.to_nat lo) l.
Proof.
  intros Hlo Hhi. unfold py_slice, slice_bound.
  destruct (Z.ltb_spec lo 0); [lia|].
  destruct (Z.ltb_spec hi 0); [lia|].
  rewrite (Z.min_l lo) by lia. rewrite (Z.min_r hi) by lia.
  apply firstn_all2. rewrite length_skipn. lia.
Qed.

Lemma firstn_firstn_skipn {A : Type} (l : list A) (a b c : nat) :
  (b <= c)%nat ->
  firstn b (firstn c (skipn a l)) ++ skipn (a + b) l = skipn a l.
Proof.
  intros Hbc. rewrite firstn_firstn, Nat.min_l by exact Hbc.
  rewrite <- (firstn_skipn b (skipn a l)) at 2.
  f_equal. rewrite skipn_skipn. f_equal. lia.
Qed.

(** ** The chunker *)

Section ChunkerProps.
Variable self : CodeParser.
Hypothesis overlap_ok : 0 <= chunk_overlap self < chunk_size self.

Lemma window_start_succ (i : nat) :
  window_start self (S i)
  = window_start self i + chunk_size self - chunk_overlap self.
Proof. unfold window_start. lia. Qed.

Lemma window_start_nonneg (i : nat) : 0 <= window_start self i.
Proof. unfold window_start. nia. Qed.

(** The loop started at window [i] emits the windows [i .. i+k-1], the
    last of which reaches the end of the token sequence. *)
Lemma chunk_loop_windows (tokens : list token) (file_path language : str) :
  forall (fuel i : nat),
    window_start self i < Z.of_nat (length tokens) ->
    (Z.to_nat (Z.of_nat (length tokens) - window_start self i) <= fuel)%nat ->
    exists k : nat,
      (0 < k)%nat /\
      chunk_loop self fuel tokens file_path language
                 (window_start self i) (Z.of_nat i)
      = Some (List.map (window_doc self tokens file_path language) (seq i k)) /\
      Z.of_nat (length tokens)
      <= window_start self (i + k - 1) + chunk_size self /\
      stitch (Z.to_nat (chunk_size self - chunk_overlap self))
             (List.map (window_at self tokens) (seq i k))
      = skipn (Z.to_nat (window_start self i)) tokens.
Proof.
  induction fuel as [|fuel IH]; intros i Hlt Hfuel.
  - lia.
  - pose proof (window_start_nonneg i) as Hnn.
    cbn [chunk_loop].
    destruct (Z.ltb_spec (window_start self i) (Z.of_nat (length tokens)));
      [|lia].
    destruct (Z.geb_spec
                (window_start self i + chunk_size self - chunk_overlap self)
                (Z.of_nat (length tokens) - chunk_overlap self)) as [Hbrk|Hgo].
    + exists 1%nat. cbn [seq List.map stitch].
      replace (i + 1 - 1)%nat with i by lia.
      repeat split; try lia.
      unfold window_at. apply py_slice_to_end; lia.
    + destruct (IH (S i)) as (k & Hk & Hrun & Hend & Hst).
      * rewrite window_start_succ. lia.
      * rewrite window_start_succ. lia.
      * exists (S k). rewrite <- window_start_succ.
        replace (Z.of_nat i + 1) with (Z.of_nat (S i)) by lia.
        rewrite Hrun. cbn [seq List.map].
        repeat split; try lia.
        -- replace (i + S k - 1)%nat with (S i + k - 1)%nat by lia. exact Hend.
        -- destruct k as [|k]; [lia|].
           cbn [seq List.map stitch] in Hst |- *.
           cbn [seq List.map stitch] in Hst.
           change (stitch _ (window_at self tokens (S i) :: _)) with
             (stitch (Z.to_nat (chunk_size self - chunk_overlap self))
                (List.map (window_at self tokens) (seq (S i) (S k)))).
           cbn [seq List.map]. rewrite Hst.
           unfold window_at at 1.
           rewrite py_slice_inside by lia.
           rewrite window_start_succ.
           replace (Z.to_nat (window_start self i + chunk_size self
                              - chunk_overlap self))
             with (Z.to_nat (window_start self i)
                   + Z.to_nat (chunk_size self - chunk_overlap self))%nat
             by lia.
           apply firstn_firstn_skipn. lia.
Qed.
End ChunkerProps.

(** C2 (chunk coverage). For a text whose token sequence is longer than
    [chunk_size], and sizes with [0 <= overlap < chunk_size], [chunk_text]
    returns (given one unit of fuel per token) the decoded windows
    [0 .. k-1], window [i] starting at offset [i * (chunk_size - overlap)]
    and carrying [chunk_id = i]; every token position lies in one of these
    windows, and gluing the windows back together, overlap removed, gives
    the whole token sequence, final partial window included. *)
Theorem chunk_text_coverage (self : CodeParser) (fuel : nat)
    (text file_path language : str) :
  0 <= chunk_overlap self < chunk_size self ->
  chunk_size self < Z.of_nat (length (encode self text)) ->
  (length (encode self text) <= fuel)%nat ->
  exists k : nat,
    chunk_text self fuel text file_path language
    = Some (List.map (window_doc self (encode self text) file_path language)
                     (seq 0 k)) /\
    (forall j : nat, (j < length (encode self text))%nat ->
       exists i : nat, (i < k)%nat /\
         window_start self i <= Z.of_nat j
           < window_start self i + chunk_size self) /\
    stitch (Z.to_nat (chunk_size self - chunk_overlap self))
           (List.map (window_at self (encode self text)) (seq 0 k))
    = encode self text.
Proof.
  intros Hov Hlong Hfuel.
  unfold chunk_text.
  destruct (Z.leb_spec (Z.of_nat (length (encode self text))) (chunk_size self));
    [lia|].
  destruct (chunk_loop_windows self Hov (encode self text) file_path language
              fuel 0) as (k & Hk & Hrun & Hend & Hst).
  - unfold window_start. lia.
  - unfold window_start. lia.
  - exists k. change (window_start self 0) with 0 in Hrun, Hst.
    split; [exact Hrun|]. split; [|exact Hst].
    intros j Hj.
    set (step := chunk_size self - chunk_overlap self).
    assert (Hstep : 0 < step) by (unfold step; lia).
    destruct (Z.le_gt_cases (Z.of_nat k - 1) (Z.of_nat j / step)) as [Hlast|Hmid].
    + exists (k - 1)%nat. split; [lia|].
      replace (0 + k - 1)%nat with (k - 1)%nat in Hend by lia.
      split; [|lia].
      unfold window_start. fold step.
      replace (Z.of_nat (k - 1)) with (Z.of_nat k - 1) by lia.
      pose proof (Z.mul_div_le (Z.of_nat j) step Hstep). nia.
    + exists (Z.to_nat (Z.of_nat j / step)).
      assert (0 <= Z.of_nat j / step) by (apply Z.div_pos; lia).
      split; [lia|].
      unfold window_start. fold step. rewrite Z2Nat.id by lia.
      pose proof (Z.mul_div_le (Z.of_nat j) step Hstep).
      pose proof (Z.mul_succ_div_gt (Z.of_nat j) step Hstep).
      unfold step in *. lia.
Qed.

(** With the configured sizes (1000 and 200) and one token per character,
    a text of 1500 tokens gives the windows at offsets 0 and 800. *)
Lemma chunk_text_coverage_witness :
  exists k : nat,
    chunk_text (char_parser 1000 200) 1500 (repeat 97%N 1500) (lit "b.py")
               (lit "python")
    = Some (List.map (window_doc (char_parser 1000 200) (repeat 97%N 1500)
                                 (lit "b.py") (lit "python")) (seq 0 k)) /\
    (forall j : nat, (j < 1500)%nat ->
       exists i : nat, (i < k)%nat /\
         window_start (char_parser 1000 200) i <= Z.of_nat j
           < window_start (char_parser 1000 200) i + 1000) /\
    stitch (Z.to_nat (1000 - 200))
           (List.map (window_at (char_parser 1000 200) (repeat 97%N 1500))
                     (seq 0 k))
    = repeat 97%N 1500.
Proof.
  pose proof (chunk_text_coverage (char_parser 1000 200) 1500
                (repeat 97%N 1500) (lit "b.py") (lit "python")) as H.
  cbn [char_parser chunk_size chunk_overlap encode] in H.
  rewrite repeat_length in H.
  apply H; lia.
Defined.

(** C5 (single-chunk shortcut). A text of at most [chunk_size] tokens gives
    exactly one chunk, numbered 0, whose content is the text itself: the
    decoder is not involved. *)
Theorem chunk_text_single (self : CodeParser) (fuel : nat)
    (text file_path language : str) :
  Z.of_nat (length (encode self text)) <= chunk_size self ->
  chunk_text self fuel text file_path language
  = Some [mkCodeDocument text file_path language 0].
Proof.
  intros Hshort. unfold chunk_text.
  destruct (Z.leb_spec (Z.of_nat (length (encode self text))) (chunk_size self));
    [reflexivity|lia].
Qed.

Lemma chunk_text_single_witness :
  chunk_text (CodeParser_init (fun s => s) (fun _ => lit "decoded")
               (fun _ => false)) 0
             (lit "x = 1") (lit "a.py") (lit "python")
  = Some [mkCodeDocument (lit "x = 1") (lit "a.py") (lit "python") 0].
Proof.
  apply chunk_text_single. vm_compute. discriminate.
Defined.

(** C8 as stated fails: on the empty text [chunk_text] returns one chunk
    (numbered 0, with empty content), not an empty list. *)
Lemma chunk_text_empty_counterexample :
  chunk_text (CodeParser_init (fun s => s) (fun t => t) (fun _ => false)) 0
             [] (lit "empty.py") (lit "python")
  = Some [mkCodeDocument [] (lit "empty.py") (lit "python") 0]
  /\ chunk_text (CodeParser_init (fun s => s) (fun t => t) (fun _ => false)) 0
                [] (lit "empty.py") (lit "python")
     <> Some [].
Proof. split; [reflexivity | discriminate]. Qed.

(** C8 (amended). [chunk_text] itself emits one chunk for the empty text
    (numbered 0, with empty content) whenever the encoding of the empty
    text fits the chunk size; it is [parse_repository] that skips a file
    whose content is empty, so such a file adds no chunk to the document
    list. *)
Theorem empty_content_skipped (unicode_lower : str -> str) (self : CodeParser)
    (fuel : nat) (before after : list ScannedFile) (f : ScannedFile) :
  file_content f = [] ->
  Z.of_nat (length (encode self [])) <= chunk_size self ->
  chunk_text self fuel [] (relative_path f)
             (get_language_from_extension unicode_lower f)
  = Some [mkCodeDocument [] (relative_path f)
            (get_language_from_extension unicode_lower f) 0]
  /\ parse_repository unicode_lower self fuel (before ++ f :: after)
     = parse_repository unicode_lower self fuel (before ++ after)
  /\ parse_repository unicode_lower self fuel [f] = Some [].
Proof.
  intros Hempty Hfit. split; [|split].
  - apply chunk_text_single. exact Hfit.
  - induction before as [|g before IH]; cbn [app parse_repository].
    + rewrite decide_True by exact Hempty. reflexivity.
    + rewrite IH. reflexivity.
  - cbn [parse_repository]. rewrite decide_True by exact Hempty. reflexivity.
Qed.

Lemma empty_content_skipped_witness :
  let f := mkScannedFile (lit "empty.py") (lit ".py") [] in
  let g := mkScannedFile (lit "a.py") (lit ".py") (lit "x = 1") in
  let self := CodeParser_init (fun s => s) (fun t => t) (fun _ => false) in
  chunk_text self 0 [] (lit "empty.py")
             (get_language_from_extension latin1_lower f)
  = Some [mkCodeDocument [] (lit "empty.py")
            (get_language_from_extension latin1_lower f) 0]
  /\ parse_repository latin1_lower self 0 ([g] ++ f :: [g])
     = parse_repository latin1_lower self 0 ([g] ++ [g])
  /\ parse_repository latin1_lower self 0 [f] = Some [].
Proof.
  intros f g self.
  apply (empty_content_skipped latin1_lower self 0 [g] [g] f).
  - reflexivity.
  - vm_compute. discriminate.
Defined.

(** ** Collection names *)

Lemma replace_ascii (old new : N) (s : str) :
  is_ascii new = true -> forallb is_ascii s = true ->
  forallb is_ascii (replace old new s) = true.
Proof.
  intros Hnew Hs. unfold replace. rewrite forallb_forall in *.
  intros c Hc. apply in_map_iff in Hc as (d & <- & Hd).
  destruct (d =? old)%N; auto.
Qed.

Lemma in_firstn_in {A : Type} (n : nat) (l : list A) (x : A) :
  In x (firstn n l) -> In x l.
Proof.
  intros H. rewrite <- (firstn_skipn n l). apply in_or_app. left. exact H.
Qed.

Lemma forallb_firstn {A : Type} (p : A -> bool) (n : nat) (l : list A) :
  forallb p l = true -> forallb p (firstn n l) = true.
Proof.
  rewrite !forallb_forall. intros H x Hx. apply H.
  eapply in_firstn_in. exact Hx.
Qed.

Lemma forallb_filter_weaken {A : Type} (p q : A -> bool) (l : list A) :
  forallb p l = true -> forallb p (List.filter q l) = true.
Proof.
  rewrite !forallb_forall. intros H x Hx. apply H.
  apply filter_In in Hx. tauto.
Qed.

(** An ASCII character that passes the filter of [_get_collection_name]
    is, once lower-cased, a character of the pattern. *)
Lemma kept_char_lowered (unicode_isalnum : N -> bool) (c : N) :
  is_ascii c = true ->
  isalnum unicode_isalnum c || char_in c (lit "_-.") = true ->
  name_char (ascii_lower c) = true.
Proof.
  intros Hascii. unfold isalnum. rewrite Hascii.
  change (lit "_-.") with [95; 45; 46]%N.
  unfold ascii_isalnum, char_in, name_char, ascii_lower. cbn [existsb].
  destruct (is_upper c) eqn:Hup.
  - intros _. unfold is_upper in Hup.
    apply andb_true_iff in Hup as [Hlo Hhi].
    apply N.leb_le in Hlo, Hhi.
    assert (Hlow : is_lower (c + 32) = true).
    { unfold is_lower. apply andb_true_iff. split; apply N.leb_le; lia. }
    rewrite Hlow. reflexivity.
  - destruct (is_digit c), (is_lower c), (c =? 95)%N, (c =? 45)%N,
      (c =? 46)%N; cbn; intros H; try reflexivity; discriminate H.
Qed.

(** C4: the name is not always valid. A non-ASCII letter is alphanumeric
    for [str.isalnum], so it passes the filter of [_get_collection_name]:
    for the repository name [café] the collection name is [repo_café],
    which is outside [^[a-z0-9_.-]{1,63}$], although the function is
    there to "generate valid collection name". *)
Lemma collection_name_counterexample :
  _get_collection_name latin1_isalnum latin1_lower [99; 97; 102; 233]%N
  = [114; 101; 112; 111; 95; 99; 97; 102; 233]%N
  /\ matches_name_pattern
       (_get_collection_name latin1_isalnum latin1_lower [99; 97; 102; 233]%N)
     = false.
Proof. split; vm_compute; reflexivity. Qed.

(** A character that passes the filter is ASCII unless it is a non-ASCII
    alphanumeric one. *)
Lemma kept_char_ascii (unicode_isalnum : N -> bool) (c : N) :
  is_ascii c = true \/ unicode_isalnum c = false ->
  isalnum unicode_isalnum c || char_in c (lit "_-.") = true ->
  is_ascii c = true.
Proof.
  intros [Hascii|Hnot] Hkeep; [exact Hascii|].
  destruct (is_ascii c) eqn:Hc; [reflexivity|].
  unfold isalnum in Hkeep. rewrite Hc, Hnot in Hkeep. cbn [orb] in Hkeep.
  change (lit "_-.") with [95; 45; 46]%N in Hkeep.
  unfold char_in in Hkeep. cbn [existsb] in Hkeep.
  unfold is_ascii in Hc. apply N.ltb_ge in Hc.
  destruct (N.eqb_spec c 95); [lia|].
  destruct (N.eqb_spec c 45); [lia|].
  destruct (N.eqb_spec c 46); [lia|].
  discriminate.
Qed.

(** Where the name is valid. For a repository name each of whose
    characters is ASCII or is not alphanumeric for [str.isalnum] (every
    ASCII name, and a name such as [a→b], whose arrow the filter drops),
    the collection name matches [^[a-z0-9_.-]{1,63}$], whatever the
    Unicode tables say, and begins with [repo_]. *)
Theorem collection_name_pattern (unicode_isalnum : N -> bool)
    (unicode_lower : str -> str) (repo_name : str) :
  Forall (fun c => is_ascii c = true \/ unicode_isalnum c = false)
         repo_name ->
  matches_name_pattern
    (_get_collection_name unicode_isalnum unicode_lower repo_name) = true /\
  firstn 5 (_get_collection_name unicode_isalnum unicode_lower repo_name)
  = lit "repo_".
Proof.
  intros Hchars.
  unfold _get_collection_name.
  set (keep := fun c : N =>
                 isalnum unicode_isalnum c || char_in c (lit "_-.")).
  set (rest := List.filter keep (replace 46 95 (replace 45 95 repo_name))).
  assert (Hsplit : List.filter keep
                     (replace 46 95 (replace 45 95 (lit "repo_" ++ repo_name)))
                   = lit "repo_" ++ rest).
  { unfold replace. rewrite !List.map_app, List.filter_app. reflexivity. }
  rewrite Hsplit.
  assert (Hrest_ascii : forallb is_ascii rest = true).
  { unfold rest. rewrite forallb_forall. intros c Hc.
    apply filter_In in Hc. destruct Hc as [Hc Hkeep].
    apply (kept_char_ascii unicode_isalnum); [|exact Hkeep].
    unfold replace in Hc. rewrite List.map_map in Hc.
    apply in_map_iff in Hc. destruct Hc as (d & <- & Hd).
    rewrite List.Forall_forall in Hchars. specialize (Hchars d Hd).
    destruct (d =? 45)%N; [left; reflexivity|].
    destruct (d =? 46)%N; [left; reflexivity|]. exact Hchars. }
  assert (Hrest_keep : forallb keep rest = true).
  { unfold rest. rewrite forallb_forall. intros c Hc.
    apply filter_In in Hc. tauto. }
  assert (Hname_ascii : forallb is_ascii (lit "repo_" ++ rest) = true).
  { rewrite forallb_app, Hrest_ascii. reflexivity. }
  unfold lower, prefix.
  rewrite (forallb_firstn is_ascii 63 _ Hname_ascii).
  split.
  - unfold matches_name_pattern.
    rewrite length_map, length_firstn, List.length_app.
    change (length (lit "repo_")) with 5%nat.
    apply andb_true_intro; split; [apply andb_true_intro; split|].
    + apply Nat.leb_le. lia.
    + apply Nat.leb_le. lia.
    + rewrite forallb_forall. intros c Hc.
      apply in_map_iff in Hc as (d & <- & Hd).
      apply in_firstn_in in Hd. apply in_app_or in Hd.
      destruct Hd as [Hd|Hd].
      * cbn in Hd.
        repeat (destruct Hd as [<-|Hd]; [reflexivity|]). destruct Hd.
      * apply (kept_char_lowered unicode_isalnum).
        -- rewrite forallb_forall in Hrest_ascii. auto.
        -- rewrite forallb_forall in Hrest_keep. apply (Hrest_keep d Hd).
  - change (lit "repo_" ++ rest)
      with (114 :: 101 :: 112 :: 111 :: 95 :: rest)%N.
    reflexivity.
Qed.

Lemma collection_name_pattern_witness :
  matches_name_pattern
    (_get_collection_name latin1_isalnum latin1_lower
       [77; 121; 45; 8594; 82; 46; 106; 115]%N) = true /\
  firstn 5 (_get_collection_name latin1_isalnum latin1_lower
              [77; 121; 45; 8594; 82; 46; 106; 115]%N)
  = lit "repo_".
Proof.
  apply (collection_name_pattern latin1_isalnum latin1_lower
           [77; 121; 45; 8594; 82; 46; 106; 115]%N).
  repeat constructor; (left; reflexivity) || (right; reflexivity).
Defined.

(** ** Building the index *)

(** C7 (empty build). [build_index] on an empty document list raises the
    [ValueError] that the specification calls [EmptyInputError], and the
    state it returns is the state it was given: no client was created, no
    collection attached, nothing written to the store, no outside call
    made. *)
Theorem build_index_empty (vector : Type)
    (ollama : str -> post_result vector)
    (client_error : option exn) (create_error : str -> option exn)
    (unicode_isalnum : N -> bool) (unicode_lower : str -> str)
    (repo_name : str) (s : state vector) :
  build_index ollama client_error create_error unicode_isalnum unicode_lower
              [] repo_name s
  = (Raise (ValueError "No documents provided for indexing"), s).
Proof. reflexivity. Qed.

Section MakeRows.
Variable vector : Type.

Lemma make_rows_firstn (k : nat) :
  forall (ids contents : list str) (metadatas : list metadata)
         (embeddings : list vector),
    make_rows (firstn k ids) (firstn k contents)
              (firstn k metadatas) (firstn k embeddings)
    = firstn k (make_rows ids contents metadatas embeddings).
Proof.
  induction k as [|k IH]; intros ids contents metadatas embeddings.
  - reflexivity.
  - destruct ids, contents, metadatas, embeddings; cbn; try reflexivity;
      try (destruct k; reflexivity);
      try (destruct k, ids; reflexivity);
      try (destruct k, ids, contents; reflexivity).
    rewrite IH. reflexivity.
Qed.

Lemma make_rows_skipn (k : nat) :
  forall (ids contents : list str) (metadatas : list metadata)
         (embeddings : list vector),
    length contents = length ids ->
    length metadatas = length ids ->
    length embeddings = length ids ->
    make_rows (skipn k ids) (skipn k contents)
              (skipn k metadatas) (skipn k embeddings)
    = skipn k (make_rows ids contents metadatas embeddings).
Proof.
  induction k as [|k IH]; intros ids contents metadatas embeddings Hc Hm He.
  - reflexivity.
  - destruct ids, contents, metadatas, embeddings; try discriminate;
      try reflexivity.
    cbn in Hc, Hm, He. cbn [skipn make_rows]. apply IH; lia.
Qed.

Lemma make_rows_length :
  forall (ids contents : list str) (metadatas : list metadata)
         (embeddings : list vector),
    length contents = length ids ->
    length metadatas = length ids ->
    length embeddings = length ids ->
    length (make_rows ids contents metadatas embeddings) = length ids.
Proof.
  induction ids as [|i ids IH]; intros contents metadatas embeddings Hc Hm He.
  - reflexivity.
  - destruct contents, metadatas, embeddings; try discriminate.
    cbn in *. f_equal. apply IH; lia.
Qed.

Lemma make_rows_slice (ids contents : list str) (metadatas : list metadata)
    (embeddings : list vector) (lo hi : Z) :
  length contents = length ids ->
  length metadatas = length ids ->
  length embeddings = length ids ->
  make_rows (py_slice ids lo hi) (py_slice contents lo hi)
            (py_slice metadatas lo hi) (py_slice embeddings lo hi)
  = py_slice (make_rows ids contents metadatas embeddings) lo hi.
Proof.
  intros Hc Hm He. unfold py_slice.
  rewrite make_rows_length, Hc, Hm, He by assumption.
  rewrite make_rows_firstn. f_equal.
  apply make_rows_skipn; assumption.
Qed.

End MakeRows.



Lemma enumerate_length {A : Type} (l : list A) :
  length (enumerate l) = length l.
Proof.
  unfold enumerate. rewrite length_combine, length_seq. lia.
Qed.

Lemma firstn_then_slice {A : Type} (l : list A) (a b : nat) :
  firstn a l ++ firstn b (skipn a l) = firstn (a + b) l.
Proof.
  revert l. induction a as [|a IH]; intros l.
  - reflexivity.
  - destruct l as [|x l]; cbn.
    + rewrite firstn_nil. reflexivity.
    + rewrite IH. reflexivity.
Qed.

(** One batch extends what the earlier batches stored. *)
Lemma batch_step {A : Type} (l : list A) (j size : nat) :
  firstn (Nat.min (j * size) (length l)) l
  ++ py_slice l (Z.of_nat (j * size))
              (Z.of_nat (Nat.min (j * size + size) (length l)))
  = firstn (Nat.min ((j + 1) * size) (length l)) l.
Proof.
  destruct (Nat.le_gt_cases (length l) (j * size)) as [Hout|Hin].
  - unfold py_slice, slice_bound.
    destruct (Z.ltb_spec (Z.of_nat (j * size)) 0); [lia|].
    destruct (Z.ltb_spec
                (Z.of_nat (Nat.min (j * size + size) (length l))) 0); [lia|].
    replace (Z.to_nat (Z.min _ _ - Z.min _ _)) with 0%nat by lia.
    cbn [firstn]. rewrite app_nil_r. f_equal. lia.
  - rewrite py_slice_inside by lia.
    rewrite Nat2Z.id.
    replace (Nat.min (j * size) (length l)) with (j * size)%nat by lia.
    rewrite firstn_then_slice. f_equal. lia.
Qed.



Lemma py_range_batches (n size : nat) :
  (0 < size)%nat ->
  py_range 0 n size
  = List.map (fun k => (k * size)%nat) (seq 0 ((n + (size - 1)) / size))
  /\ (n <= ((n + (size - 1)) / size) * size)%nat.
Proof.
  intros Hsize. split.
  - unfold py_range. rewrite Nat.sub_0_r. reflexivity.
  - pose proof (Nat.div_mod_eq (n + (size - 1)) size) as Hdm.
    pose proof (Nat.mod_upper_bound (n + (size - 1)) size) as Hub.
    nia.
Qed.

Section BuildProps.
Variable vector : Type.
Variable ollama : str -> post_result vector.

Lemma state_eta (s : state vector) :
  mkState (chroma_client s) (collection s) (documents s) (db s) (trace s) = s.
Proof. destruct s. reflexivity. Qed.

(** When the service answers every text, [generate_embeddings] returns
    the answers in order and makes one call per text, in order. *)
Lemma generate_embeddings_ok (texts : list str) (embs : list vector) :
  Forall2 (fun t e => ollama t = Status200 e) texts embs ->
  forall s : state vector,
    generate_embeddings ollama texts s
    = (Ok embs,
       mkState (chroma_client s) (collection s) (documents s) (db s)
               (trace s ++ List.map EvEmbed texts)).
Proof.
  induction 1 as [|t e texts embs Ht _ IH]; intros s.
  - cbn. rewrite app_nil_r, state_eta. reflexivity.
  - unfold generate_embeddings in *. cbn [map_M].
    unfold bind at 1. unfold _embed at 1. unfold bind at 1.
    unfold log, modify. rewrite Ht. unfold ret at 1.
    unfold bind at 1. rewrite IH. cbn.
    rewrite <- app_assoc. reflexivity.
Qed.

(** The batch loop of [build_index]: after the batches [j .. j+m-1] the
    collection holds the first [(j+m) * 500] records. *)
Lemma add_batches (name : str) (ids contents : list str)
    (metadatas : list metadata) (embeddings : list vector) (n : nat) :
  length ids = n -> length contents = n ->
  length metadatas = n -> length embeddings = n ->
  let rows := make_rows ids contents metadatas embeddings in
  let batch := fun k : nat =>
    py_slice rows (Z.of_nat (k * batch_size))
             (Z.of_nat (Nat.min (k * batch_size + batch_size) n)) in
  forall (m j : nat) (s : state vector),
    db s !! name = Some (firstn (Nat.min (j * batch_size) n) rows) ->
    for_each (List.map (fun k => (k * batch_size)%nat) (seq j m))
      (fun i =>
         let end_ := Nat.min (i + batch_size) n in
         collection_add name
           (py_slice ids (Z.of_nat i) (Z.of_nat end_))
           (py_slice contents (Z.of_nat i) (Z.of_nat end_))
           (py_slice metadatas (Z.of_nat i) (Z.of_nat end_))
           (py_slice embeddings (Z.of_nat i) (Z.of_nat end_))) s
    = (Ok tt,
       mkState (chroma_client s) (collection s) (documents s)
               (<[name := firstn (Nat.min ((j + m) * batch_size) n) rows]>
                  (db s))
               (trace s ++ List.map (EvAdd name)
                                    (List.map batch (seq j m)))).
Proof.
  intros Hids Hcontents Hmetas Hembs rows batch.
  assert (Hrows : length rows = n).
  { unfold rows. rewrite make_rows_length; congruence. }
  induction m as [|m IH]; intros j s Hdb.
  - cbn. rewrite app_nil_r. replace (j + 0)%nat with j by lia.
    rewrite insert_id by exact Hdb. rewrite state_eta. reflexivity.
  - cbn [seq List.map for_each].
    unfold bind at 1. unfold collection_add at 1.
    unfold bind at 1. unfold log, modify.
    cbn [db trace chroma_client collection documents].
    rewrite make_rows_slice by congruence. fold rows.
    unfold rows_of. rewrite Hdb. cbn [default]. unfold id.
    pose proof (batch_step rows j batch_size) as Hstep.
    rewrite Hrows in Hstep. rewrite Hstep.
    replace (j + 1)%nat with (S j) by lia.
    rewrite IH.
    + cbn [db trace chroma_client collection documents].
      rewrite insert_insert_eq. rewrite <- app_assoc.
      replace (S j + m)%nat with (j + S m)%nat by lia.
      reflexivity.
    + cbn [db]. rewrite lookup_insert_eq. reflexivity.
Qed.
End BuildProps.

Section BuildIndex.
Variable vector : Type.
Variable ollama : str -> post_result vector.
Variable client_error : option exn.
Variable create_error : str -> option exn.
Variable unicode_isalnum : N -> bool.
Variable unicode_lower : str -> str.

Lemma enumerate_snd {A : Type} (l : list A) :
  List.map snd (enumerate l) = l.
Proof.
  unfold enumerate. generalize 0%nat.
  induction l as [|a l IH]; intros start; [reflexivity|].
  cbn. f_equal. apply IH.
Qed.


Lemma enumerate_contents (docs : list CodeDocument) :
  List.map (fun p : nat * CodeDocument => content (snd p)) (enumerate docs)
  = List.map content docs.
Proof.
  rewrite <- (enumerate_snd docs) at 2. rewrite List.map_map. reflexivity.
Qed.

Lemma stored_rows_length (docs : list CodeDocument) (embs : list vector) :
  length embs = length docs ->
  length (stored_rows docs embs) = length docs.
Proof.
  intros H. unfold stored_rows.
  rewrite make_rows_length;
    rewrite ?length_map, ?enumerate_length; congruence.
Qed.


(** [build_index] on a collection that holds nothing yet, with an
    embedding service that answers every content. *)
Lemma build_index_fresh (docs : list CodeDocument) (embs : list vector)
    (repo_name : str) (s : state vector) :
  let name := _get_collection_name unicode_isalnum unicode_lower repo_name in
  let rows := stored_rows docs embs in
  let n := length docs in
  docs <> [] ->
  client_error = None -> create_error name = None ->
  rows_of (db s) name = [] ->
  Forall2 (fun d e => ollama (content d) = Status200 e) docs embs ->
  build_index ollama client_error create_error unicode_isalnum unicode_lower
              docs repo_name s
  = (Ok tt,
     mkState true (Some name) docs (<[name := rows]> (db s))
       (trace s ++ [EvGetOrCreate name]
                ++ List.map EvEmbed (List.map content docs)
                ++ List.map (EvAdd name)
                     (List.map
                        (fun k : nat =>
                           py_slice rows (Z.of_nat (k * batch_size))
                             (Z.of_nat (Nat.min (k * batch_size + batch_size) n)))
                        (seq 0 ((n + (batch_size - 1)) / batch_size))))).
Proof.
  intros name rows n Hne Hclient Hcreate Hfresh Hembs.
  destruct docs as [|d0 docs0]; [congruence|]. clear Hne.
  unfold build_index. set (docs := d0 :: docs0) in *.
  assert (Hlen : length embs = n).
  { symmetry. apply (Forall2_length _ _ _ Hembs). }
  fold name.
  unfold _init_client, get_or_create_collection, collection_count,
    set_documents, log.
  rewrite Hclient, Hcreate.
  unfold bind at 1. unfold bind at 1. unfold modify at 1.
  unfold bind at 1. unfold modify at 1. unfold modify at 1.
  cbn [chroma_client collection documents db trace].
  unfold bind at 1. unfold bind at 1. unfold get at 1. unfold ret at 1.
  cbn [chroma_client collection documents db trace].
  set (db1 := match db s !! name with
              | Some _ => db s
              | None => <[name:=[]]> (db s)
              end).
  assert (Hdb1 : db1 !! name = Some []).
  { unfold db1. unfold rows_of in Hfresh.
    destruct (db s !! name) as [l|] eqn:Hl.
    - cbn in Hfresh. subst l. exact Hl.
    - apply lookup_insert_eq. }
  assert (Hins : forall l, <[name := l]> db1 = <[name := l]> (db s)).
  { intros l. unfold db1. destruct (db s !! name); [reflexivity|].
    apply insert_insert_eq. }
  unfold rows_of at 1. rewrite Hdb1. cbn [default]. unfold id.
  cbn [length]. change (Z.of_nat 0 >? 0) with false. cbv beta iota.
  unfold bind at 1. unfold modify at 1.
  cbn [chroma_client collection documents db trace].
  assert (Hgen : forall s0 : state vector,
    generate_embeddings ollama
      (List.map (fun p : nat * CodeDocument => content (snd p))
                (enumerate docs)) s0
    = (Ok embs,
       mkState (chroma_client s0) (collection s0) (documents s0) (db s0)
               (trace s0 ++ List.map EvEmbed (List.map content docs)))).
  { intros s0. rewrite enumerate_contents.
    apply generate_embeddings_ok.
    clear -Hembs. induction Hembs; cbn; constructor; assumption. }
  unfold bind at 1. rewrite Hgen.
  cbn [chroma_client collection documents db trace].
  destruct (py_range_batches n batch_size) as [Hrange Hcover];
    [unfold batch_size; lia|].
  fold n. rewrite Hrange.
  rewrite (add_batches vector name _ _ _ embs n).
  - cbn [chroma_client collection documents db trace].
    fold (stored_rows docs embs). fold rows.
    rewrite Hins.
    replace (Nat.min ((0 + (n + (batch_size - 1)) / batch_size) * batch_size) n)
      with (length rows).
    2:{ unfold rows. rewrite stored_rows_length by exact Hlen. fold n.
        cbn [Nat.add]. lia. }
    rewrite firstn_all. rewrite <- !app_assoc. reflexivity.
  - rewrite length_map, enumerate_length. reflexivity.
  - rewrite length_map, enumerate_length. reflexivity.
  - rewrite length_map, enumerate_length. reflexivity.
  - exact Hlen.
  - cbn [db]. rewrite Hdb1. reflexivity.
Qed.

(** [build_index] on a collection that already holds records. *)
Lemma build_index_cached (docs : list CodeDocument) (repo_name : str)
    (s : state vector) :
  let name := _get_collection_name unicode_isalnum unicode_lower repo_name in
  docs <> [] ->
  client_error = None -> create_error name = None ->
  rows_of (db s) name <> [] ->
  build_index ollama client_error create_error unicode_isalnum unicode_lower
              docs repo_name s
  = (Ok tt,
     mkState true (Some name) docs (db s)
             (trace s ++ [EvGetOrCreate name])).
Proof.
  intros name Hne Hclient Hcreate Hrows.
  destruct docs as [|d0 docs0]; [congruence|]. clear Hne.
  unfold build_index. set (docs := d0 :: docs0) in *.
  fold name.
  unfold _init_client, get_or_create_collection, collection_count,
    set_documents, log.
  rewrite Hclient, Hcreate.
  unfold bind at 1. unfold bind at 1. unfold modify at 1.
  unfold bind at 1. unfold modify at 1. unfold modify at 1.
  cbn [chroma_client collection documents db trace].
  unfold bind at 1. unfold bind at 1. unfold get at 1. unfold ret at 1.
  cbn [chroma_client collection documents db trace].
  unfold rows_of in *.
  destruct (db s !! name) as [l|] eqn:Hl; [|cbn in Hrows; congruence].
  cbn [default] in *. unfold id in *.
  destruct l as [|r l]; [congruence|].
  rewrite Hl. cbn [from_option length]. rewrite Nat2Z.inj_succ.
  destruct (Z.gtb_spec (Z.succ (Z.of_nat (length l))) 0) as [_|Hle]; [|lia].
  reflexivity.
Qed.
End BuildIndex.

(** ** Record ids *)

Lemma digits_value_snoc (ds : str) (c : N) :
  digits_value (ds ++ [c]) = (10 * digits_value ds + (c - 48))%N.
Proof. unfold digits_value. rewrite fold_left_app. reflexivity. Qed.

Lemma digit_of_remainder (n : N) : is_digit (48 + n mod 10) = true.
Proof.
  pose proof (N.mod_upper_bound n 10 ltac:(discriminate)) as Hr.
  revert Hr. generalize (n mod 10)%N. intros r Hr.
  unfold is_digit. apply andb_true_iff. split; apply N.leb_le; lia.
Qed.

(** The digits [str(n)] puts in front of the accumulator. *)
Lemma digits_fuel_numeral :
  forall (fuel : nat) (n : N) (acc : str),
    (N.to_nat n < fuel)%nat ->
    exists ds : str,
      digits_fuel fuel n acc = ds ++ acc /\
      ds <> [] /\
      Forall (fun c => is_digit c = true) ds /\
      digits_value ds = n /\
      (n <> 0%N -> hd 48%N ds <> 48%N).
Proof.
  induction fuel as [|fuel IH]; intros n acc Hfuel; [lia|].
  cbn [digits_fuel].
  destruct (N.ltb_spec n 10) as [Hsmall|Hbig].
  - exists [(48 + n mod 10)%N]. split; [reflexivity|].
    split; [discriminate|]. split.
    { constructor; [apply digit_of_remainder|constructor]. }
    rewrite N.mod_small by exact Hsmall. split.
    + unfold digits_value. cbn [fold_left]. lia.
    + cbn [hd]. lia.
  - assert (Hdiv : (n / 10 < n)%N) by (apply N.div_lt; lia).
    assert (Hpos : (n / 10 <> 0)%N).
    { intros H0. apply N.div_small_iff in H0; lia. }
    destruct (IH (n / 10)%N ((48 + n mod 10)%N :: acc))
      as (ds & Hds & Hne & Hdig & Hval & Hlead); [lia|].
    exists (ds ++ [(48 + n mod 10)%N]). split.
    { rewrite Hds, <- app_assoc. reflexivity. }
    split; [destruct ds; discriminate|]. split.
    { apply List.Forall_app. split; [exact Hdig|].
      constructor; [apply digit_of_remainder|constructor]. }
    split.
    + rewrite digits_value_snoc, Hval.
      rewrite (N.add_comm 48), N.add_sub.
      symmetry. apply N.div_mod. discriminate.
    + intros _. destruct ds as [|c ds]; [congruence|].
      cbn [app hd]. exact (Hlead Hpos).
Qed.

(** [str(n)] is the decimal numeral of [n]. *)
Lemma of_nat_decimal (n : nat) : decimal_numeral n (of_nat n).
Proof.
  unfold of_nat, decimal_numeral.
  destruct (digits_fuel_numeral (S n) (N.of_nat n) [])
    as (ds & Hds & Hne & Hdig & Hval & Hlead); [lia|].
  rewrite Hds, app_nil_r.
  split; [exact Hne|]. split; [exact Hdig|]. split; [exact Hval|].
  intros Hn. apply Hlead. lia.
Qed.

Lemma of_nat_value (n : nat) : digits_value (of_nat n) = N.of_nat n.
Proof. exact (proj1 (proj2 (proj2 (of_nat_decimal n)))). Qed.

Lemma doc_id_inj (i j : nat) : doc_id i = doc_id j -> i = j.
Proof.
  unfold doc_id. intros H. apply app_inv_head in H.
  apply (f_equal digits_value) in H. rewrite !of_nat_value in H. lia.
Qed.

Lemma make_rows_ids {vector : Type} :
  forall (ids contents : list str) (metadatas : list metadata)
         (embeddings : list vector),
    exists k : nat,
      List.map row_id (make_rows ids contents metadatas embeddings)
      = firstn k ids.
Proof.
  induction ids as [|i ids IH]; intros contents metadatas embeddings.
  - exists 0%nat. reflexivity.
  - destruct contents as [|c contents]; [exists 0%nat; reflexivity|].
    destruct metadatas as [|m metadatas]; [exists 0%nat; reflexivity|].
    destruct embeddings as [|e embeddings]; [exists 0%nat; reflexivity|].
    destruct (IH contents metadatas embeddings) as [k Hk].
    exists (S k). cbn [make_rows List.map row_id firstn]. rewrite Hk.
    reflexivity.
Qed.

Lemma NoDup_firstn {A : Type} (k : nat) (l : list A) :
  List.NoDup l -> List.NoDup (firstn k l).
Proof.
  revert k. induction l as [|a l IH]; intros k Hnd.
  - rewrite firstn_nil. constructor.
  - destruct k as [|k]; [constructor|]. cbn [firstn].
    inversion Hnd as [|a0 l0 Hnotin Hnd']; subst.
    constructor; [|apply IH; exact Hnd'].
    intros Hin. apply Hnotin.
    rewrite <- (firstn_skipn k l). apply List.in_or_app. left. exact Hin.
Qed.

Lemma NoDup_map_injective {A B : Type} (f : A -> B) (l : list A) :
  (forall x y : A, f x = f y -> x = y) ->
  List.NoDup l -> List.NoDup (List.map f l).
Proof.
  intros Hinj Hnd. induction Hnd as [|a l Hnotin _ IH]; cbn [List.map].
  - constructor.
  - constructor; [|exact IH].
    intros Hin. apply List.in_map_iff in Hin.
    destruct Hin as (b & Hb & Hin). apply Hinj in Hb. subst b.
    exact (Hnotin Hin).
Qed.

Lemma enumerate_ids {A : Type} (l : list A) :
  List.map (fun p : nat * A => doc_id (fst p)) (enumerate l)
  = List.map doc_id (seq 0 (length l)).
Proof.
  unfold enumerate. generalize 0%nat.
  induction l as [|a l IH]; intros start; [reflexivity|].
  cbn. f_equal. apply IH.
Qed.

Lemma stored_rows_ids_distinct {vector : Type} (docs : list CodeDocument)
    (embs : list vector) :
  List.NoDup (List.map row_id (stored_rows docs embs)).
Proof.
  unfold stored_rows.
  destruct (make_rows_ids
              (List.map (fun p : nat * CodeDocument => doc_id (fst p))
                        (enumerate docs))
              (List.map (fun p : nat * CodeDocument => content (snd p))
                        (enumerate docs))
              (List.map (fun p : nat * CodeDocument => doc_metadata (snd p))
                        (enumerate docs))
              embs) as [k Hk].
  rewrite Hk. apply NoDup_firstn. rewrite enumerate_ids.
  apply NoDup_map_injective.
  - exact doc_id_inj.
  - apply List.seq_NoDup.
Qed.

(** The ids of a build are pairwise distinct: [doc_i] and [doc_j] are
    different strings for [i <> j] (the decimal numeral of an index reads
    back as that index), so no two records that [build_index] hands to
    the collection share an id, whatever the documents. *)
Theorem build_index_ids_distinct (vector : Type) (docs : list CodeDocument)
    (embs : list vector) :
  (forall i j : nat, doc_id i = doc_id j -> i = j) /\
  List.NoDup (List.map row_id (stored_rows docs embs)).
Proof.
  split; [exact doc_id_inj | apply stored_rows_ids_distinct].
Qed.






(** The ids of the first records, written out. *)
Lemma stored_rows_ids_example :
  List.map row_id
    (stored_rows
       (repeat (mkCodeDocument (lit "x") (lit "a.py") (lit "python") 0) 12)
       (repeat 1%nat 12))
  = List.map lit
      ["doc_0"; "doc_1"; "doc_2"; "doc_3"; "doc_4"; "doc_5"; "doc_6";
       "doc_7"; "doc_8"; "doc_9"; "doc_10"; "doc_11"]%string.
Proof. vm_compute. reflexivity. Qed.

(** C1 (idempotent build). On a collection that holds nothing yet, with a
    backend that accepts the collection name and an embedding service
    that answers every content, the first
    [build_index docs repo] succeeds and leaves [count = len docs]; a
    second [build_index] with the same repository name (and any non-empty
    document list, [docs] itself included) succeeds, leaves the store and
    so the count unchanged, makes no embedding call and no insert (its only
    outside call is [get_or_create_collection]), and records the list it
    was given. *)
Theorem build_index_idempotent (vector : Type)
    (ollama : str -> post_result vector)
    (client_error : option exn) (create_error : str -> option exn)
    (unicode_isalnum : N -> bool) (unicode_lower : str -> str)
    (docs docs' : list CodeDocument) (embs : list vector) (repo_name : str)
    (s : state vector) :
  let name := _get_collection_name unicode_isalnum unicode_lower repo_name in
  docs <> [] -> docs' <> [] ->
  client_error = None -> create_error name = None ->
  rows_of (db s) name = [] ->
  Forall2 (fun d e => ollama (content d) = Status200 e) docs embs ->
  exists s1 s2 : state vector,
    build_index ollama client_error create_error unicode_isalnum
                unicode_lower docs repo_name s
    = (Ok tt, s1) /\
    collection_count name s1 = (Ok (Z.of_nat (length docs)), s1) /\
    build_index ollama client_error create_error unicode_isalnum
                unicode_lower docs' repo_name s1
    = (Ok tt, s2) /\
    db s2 = db s1 /\
    collection_count name s2 = (Ok (Z.of_nat (length docs)), s2) /\
    trace s2 = trace s1 ++ [EvGetOrCreate name] /\
    documents s2 = docs'.
Proof.
  intros name Hne Hne' Hclient Hcreate Hfresh Hembs.
  pose proof (build_index_fresh vector ollama client_error create_error
                unicode_isalnum unicode_lower docs embs repo_name s
                Hne Hclient Hcreate Hfresh Hembs) as H1.
  cbv zeta in H1. fold name in H1.
  set (s1 := mkState true (Some name) docs
               (<[name := stored_rows docs embs]> (db s)) _) in H1.
  assert (Hrows : rows_of (db s1) name = stored_rows docs embs).
  { unfold rows_of, s1. cbn [db]. rewrite lookup_insert_eq. reflexivity. }
  assert (Hlen : length (stored_rows docs embs) = length docs).
  { apply stored_rows_length. symmetry. apply (Forall2_length _ _ _ Hembs). }
  assert (Hpop : rows_of (db s1) name <> []).
  { rewrite Hrows. intros Hnil. rewrite Hnil in Hlen.
    destruct docs; [congruence | discriminate]. }
  pose proof (build_index_cached vector ollama client_error create_error
                unicode_isalnum unicode_lower docs' repo_name s1
                Hne' Hclient Hcreate Hpop) as H2.
  cbv zeta in H2. fold name in H2.
  exists s1. eexists.
  split; [exact H1|]. split.
  { unfold collection_count, bind, get, ret. rewrite Hrows, Hlen.
    reflexivity. }
  split; [exact H2|]. split; [reflexivity|]. split.
  { unfold collection_count, bind, get, ret. cbn [db].
    rewrite Hrows, Hlen. reflexivity. }
  split; reflexivity.
Qed.

Lemma build_index_idempotent_witness :
  let docs := [mkCodeDocument (lit "import os") (lit "a.py") (lit "python") 0;
               mkCodeDocument (lit "x = 1") (lit "a.py") (lit "python") 1] in
  let name := lit "repo_my_repo" in
  exists s1 s2 : state nat,
    build_index length_embedder None name_rule latin1_isalnum latin1_lower
                docs (lit "my-repo") (RAGRetriever_init ∅)
    = (Ok tt, s1) /\
    collection_count name s1 = (Ok (Z.of_nat (length docs)), s1) /\
    build_index length_embedder None name_rule latin1_isalnum latin1_lower
                docs (lit "my-repo") s1
    = (Ok tt, s2) /\
    db s2 = db s1 /\
    collection_count name s2 = (Ok (Z.of_nat (length docs)), s2) /\
    trace s2 = trace s1 ++ [EvGetOrCreate name] /\
    documents s2 = docs.
Proof.
  intros docs name.
  apply (build_index_idempotent nat length_embedder None name_rule
           latin1_isalnum latin1_lower docs docs [9%nat; 5%nat]
           (lit "my-repo") (RAGRetriever_init ∅)).
  - discriminate.
  - discriminate.
  - reflexivity.
  - reflexivity.
  - reflexivity.
  - repeat constructor.
Defined.

(** ** Retrieval *)

Section RetrieveProps.
Variable vector : Type.
Variable ollama : str -> post_result vector.
Variable knn : list (row vector) -> vector -> Z -> option QueryResult.

(** The conversion loop of [retrieve] never touches the state. *)
Lemma retrieve_items_state (items : list (str * metadata * PyFloat.float)) :
  forall s : state vector, snd (map_M retrieve_item items s) = s.
Proof.
  induction items as [|[[text meta] dist] items IH]; intros s.
  - reflexivity.
  - cbn [map_M]. unfold bind at 1. unfold retrieve_item at 1.
    unfold bind at 1. unfold lift at 1.
    destruct (similarity dist) as [sim|e]; [|reflexivity].
    unfold ret at 1. unfold bind at 1.
    specialize (IH s).
    destruct (map_M retrieve_item items s) as [[l|e] s'];
      cbn in IH |- *; exact IH.
Qed.

(** When every distance converts, the loop returns one pair per backend
    entry, in the backend's order. *)
Lemma retrieve_items_ok (items : list (str * metadata * PyFloat.float)) :
  Forall (fun it => exists sim, similarity (snd it) = Ok sim) items ->
  forall s : state vector,
  exists l : list (CodeDocument * PyFloat.float),
    map_M retrieve_item items s = (Ok l, s) /\
    Forall2 (fun it r =>
               fst r = mkCodeDocument (fst (fst it))
                         (md_file_path (snd (fst it)))
                         (md_language (snd (fst it)))
                         (md_chunk_id (snd (fst it))) /\
               similarity (snd it) = Ok (snd r)) items l.
Proof.
  induction 1 as [|[[text meta] dist] items [sim Hsim] _ IH]; intros s.
  - exists []. split; [reflexivity | constructor].
  - destruct (IH s) as [l [Hl Hall]].
    exists ((mkCodeDocument text (md_file_path meta) (md_language meta)
                            (md_chunk_id meta), sim) :: l).
    split.
    + cbn [map_M]. unfold bind at 1. unfold retrieve_item at 1.
      unfold bind at 1. unfold lift at 1. cbn [snd] in Hsim.
      rewrite Hsim. unfold ret at 1. unfold bind at 1. rewrite Hl.
      reflexivity.
    + constructor; [|exact Hall]. split; [reflexivity | exact Hsim].
Qed.

(** [retrieve] on an attached collection, up to the conversion loop. *)
Lemma retrieve_attached (query : str) (top_k : option Z) (name : str)
    (v : vector) (s : state vector) :
  collection s = Some name ->
  ollama query = Status200 v ->
  let n_results :=
    Z.min (top_k_or_default top_k)
          (Z.of_nat (length (rows_of (db s) name))) in
  let s' := mkState (chroma_client s) (collection s) (documents s) (db s)
              (trace s ++ [EvEmbed query; EvQuery name v n_results]) in
  retrieve ollama knn query top_k s
  = match knn (rows_of (db s) name) v n_results with
    | Some results =>
        map_M retrieve_item
              (zip3 (res_documents results) (res_metadatas results)
                    (res_distances results)) s'
    | None => (Raise BackendError, s')
    end.
Proof.
  intros Hcol Hemb n_results s'.
  unfold retrieve. unfold bind at 1. unfold get at 1. rewrite Hcol.
  unfold generate_query_embedding, _embed, collection_count,
    collection_query, log.
  unfold bind at 1. unfold bind at 1. unfold modify at 1.
  rewrite Hemb. unfold ret at 1.
  unfold bind at 1. unfold bind at 1. unfold get at 1. unfold ret at 1.
  cbn [db trace chroma_client collection documents].
  fold n_results.
  unfold bind at 1. unfold bind at 1. unfold modify at 1.
  unfold bind at 1. unfold get at 1.
  cbn [db trace chroma_client collection documents].
  rewrite <- app_assoc. cbn [app]. fold s'.
  destruct (knn (rows_of (db s) name) v n_results) as [results|];
    reflexivity.
Qed.
End RetrieveProps.

Lemma zip3_distances_forall {A B C : Type} (P : C -> Prop)
    (la : list A) (lb : list B) (lc : list C) :
  Forall P lc -> Forall (fun it : A * B * C => P (snd it)) (zip3 la lb lc).
Proof.
  intros H. revert la lb.
  induction H as [|c lc Hc _ IH]; intros la lb.
  - destruct la, lb; constructor.
  - destruct la as [|a la], lb as [|b lb]; try constructor.
    + exact Hc.
    + apply IH.
Qed.



(** ** Similarity scores *)

(** The comparison of two floats, read the other way round. *)
Lemma SFcompare_antisym (x y : PyFloat.float) :
  SFcompare y x = option_map CompOpp (SFcompare x y).
Proof.
  destruct x as [sx|sx| |sx mx ex], y as [sy|sy| |sy my ey];
    try reflexivity;
    try (destruct sx; reflexivity);
    try (destruct sy; reflexivity);
    try (destruct sx, sy; reflexivity).
  destruct sx, sy; try reflexivity; cbn [SFcompare option_map];
    rewrite (Z.compare_antisym ex ey);
    destruct (ex ?= ey); cbn [CompOpp]; try reflexivity;
    rewrite ?Pos.compare_cont_antisym; cbn [CompOpp]; reflexivity.
Qed.

Lemma SFltb_not_leb (x y : PyFloat.float) :
  PyFloat.is_nan x = false -> PyFloat.is_nan y = false ->
  PyFloat.ltb x y = negb (PyFloat.leb y x).
Proof.
  intros Hx Hy. unfold PyFloat.ltb, PyFloat.leb, SFltb, SFleb.
  rewrite (SFcompare_antisym x y).
  destruct x as [sx|sx| |sx mx ex], y as [sy|sy| |sy my ey];
    try discriminate;
    destruct (SFcompare _ _) as [[| |]|] eqn:Hc; try reflexivity;
    try (destruct sx; discriminate);
    try (destruct sy; discriminate);
    try (destruct sx, sy; discriminate);
    discriminate.
Qed.

(** What [max(0.0, min(1.0, x))] is, for every float [x]. *)
Lemma clamp_unit (x : PyFloat.float) :
  let s := PyFloat.py_max PyFloat.zero (PyFloat.py_min PyFloat.one x) in
  PyFloat.leb PyFloat.zero s = true /\
  PyFloat.leb s PyFloat.one = true /\
  (PyFloat.is_nan x = false -> s = clamp x PyFloat.zero PyFloat.one).
Proof.
  destruct x as [sx|sx| |sx mx ex].
  - destruct sx; repeat split; reflexivity.
  - destruct sx; repeat split; reflexivity.
  - repeat split; try reflexivity. discriminate.
  - destruct sx.
    + repeat split; reflexivity.
    + cbv zeta. unfold clamp, PyFloat.py_min.
      rewrite (SFltb_not_leb (S754_finite false mx ex) PyFloat.one)
        by reflexivity.
      change (PyFloat.leb (S754_finite false mx ex) PyFloat.zero) with false.
      cbv iota.
      destruct (PyFloat.leb PyFloat.one (S754_finite false mx ex)) eqn:Hle;
        cbn [negb].
      * repeat split; reflexivity.
      * assert (Hlt : PyFloat.ltb (S754_finite false mx ex) PyFloat.one
                      = true).
        { rewrite SFltb_not_leb by reflexivity. rewrite Hle. reflexivity. }
        repeat split; try reflexivity.
        unfold PyFloat.py_max.
        change (PyFloat.ltb PyFloat.zero (S754_finite false mx ex)) with true.
        cbv iota. unfold PyFloat.ltb, SFltb in Hlt.
        unfold PyFloat.leb, SFleb.
        destruct (SFcompare (S754_finite false mx ex) PyFloat.one)
          as [[| |]|]; try discriminate. reflexivity.
Qed.


(** ** Rounding to nearest is monotone *)

Section RoundProps.
Import Round.

Lemma rn_shift_bounds (E0 V : Z) :
  E0 < emin -> 0 <= V ->
  let k := rn_shift E0 V in
  1 <= k /\ emin - E0 <= k /\ V < 2 ^ (k + 53) /\
  (k = emin - E0 \/ 2 ^ (k + 52) <= V).
Proof.
  intros HE HV k. unfold k, rn_shift.
  destruct (Z.eq_dec V 0) as [->|Hnz].
  - change (Z.log2 0) with 0.
    rewrite Z.max_r by lia.
    repeat split; try lia; apply Z.pow_pos_nonneg; lia.
  - assert (Hpos : 0 < V) by lia.
    destruct (Z.log2_spec V Hpos) as [Hlo Hhi].
    pose proof (Z.log2_nonneg V) as HL.
    set (L := Z.log2 V) in *.
    destruct (Z.max_spec (L + 1 - 53) (emin - E0)) as [[Hlt ->]|[Hge ->]].
    + repeat split; try lia.
      eapply Z.lt_le_trans; [exact Hhi|].
      apply Z.pow_le_mono_r; lia.
    + repeat split; try lia.
      * replace (L + 1 - 53 + 53) with (Z.succ L) by lia. exact Hhi.
      * right. replace (L + 1 - 53 + 52) with L by lia. exact Hlo.
Qed.

(** The quotient and the rounded mantissa of [rn_key]. *)
Lemma rn_mantissa_bounds (E0 V : Z) :
  E0 < emin -> 0 <= V ->
  let k := rn_shift E0 V in
  let q := V / 2 ^ k in
  let m := q + (if rn_up V k then 1 else 0) in
  0 <= q /\ q <= m <= q + 1 /\ q < 2 ^ 53 /\
  (k = emin - E0 \/ 2 ^ 52 <= q).
Proof.
  intros HE HV k q m.
  destruct (rn_shift_bounds E0 V HE HV) as [Hk1 [Hk2 [Hhi Hlo]]].
  fold k in Hk1, Hk2, Hhi, Hlo.
  assert (HP : 0 < 2 ^ k) by (apply Z.pow_pos_nonneg; lia).
  repeat split.
  - apply Z.div_pos; lia.
  - unfold m. destruct (rn_up V k); lia.
  - unfold m. destruct (rn_up V k); lia.
  - apply Z.div_lt_upper_bound; [exact HP|].
    rewrite <- Z.pow_add_r by lia. exact Hhi.
  - destruct Hlo as [Hlo|Hlo]; [left; exact Hlo | right].
    apply Z.div_le_lower_bound; [exact HP|].
    rewrite <- Z.pow_add_r by lia. exact Hlo.
Qed.

(** [rn_key] gives a binary64 exponent and mantissa. *)
Lemma rn_key_canon (E0 V : Z) :
  E0 < emin -> 0 <= V -> canon (rn_key E0 V).
Proof.
  intros HE HV.
  destruct (rn_mantissa_bounds E0 V HE HV) as [Hq0 [Hm [Hq Hlo]]].
  destruct (rn_shift_bounds E0 V HE HV) as [Hk1 [Hk2 _]].
  unfold rn_key, canon.
  set (k := rn_shift E0 V) in *.
  set (m := V / 2 ^ k + (if rn_up V k then 1 else 0)) in *.
  cbv zeta.
  destruct (Z.eqb_spec m (2 ^ 53)) as [Heq|Hne]; cbn [fst snd].
  - repeat split; try lia; right; lia.
  - repeat split; try lia; destruct Hlo as [Hlo|Hlo]; lia.
Qed.

(** Rounding up is monotone in the dropped bits. *)
Lemma rn_up_mono (V1 V2 k : Z) :
  1 <= k -> 0 <= V1 <= V2 -> V1 / 2 ^ k = V2 / 2 ^ k ->
  rn_up V1 k = true -> rn_up V2 k = true.
Proof.
  intros Hk HV Hq. unfold rn_up. cbv zeta. rewrite <- Hq.
  assert (HP : 0 < 2 ^ k) by (apply Z.pow_pos_nonneg; lia).
  pose proof (Z.div_mod V1 (2 ^ k) ltac:(lia)) as H1.
  pose proof (Z.div_mod V2 (2 ^ k) ltac:(lia)) as H2.
  rewrite <- Hq in H2.
  assert (Hr : V1 mod 2 ^ k <= V2 mod 2 ^ k) by lia.
  set (r1 := V1 mod 2 ^ k) in *. set (r2 := V2 mod 2 ^ k) in *.
  set (h := 2 ^ (k - 1)).
  intros Hup.
  apply orb_true_iff in Hup. apply orb_true_iff.
  destruct Hup as [Hup|Hup].
  - left. apply Z.ltb_lt in Hup. apply Z.ltb_lt. lia.
  - apply andb_true_iff in Hup. destruct Hup as [Hup Hodd].
    apply Z.eqb_eq in Hup.
    destruct (Z.eq_dec r2 h) as [Heq|Hne].
    + right. apply andb_true_iff. split; [apply Z.eqb_eq; exact Heq|exact Hodd].
    + left. apply Z.ltb_lt. lia.
Qed.

(** Rounding to nearest is monotone. *)
Lemma rn_key_mono (E0 V1 V2 : Z) :
  E0 < emin -> 0 <= V1 <= V2 ->
  lex_le (rn_key E0 V1) (rn_key E0 V2).
Proof.
  intros HE [HV1 HV12].
  assert (HV2 : 0 <= V2) by lia.
  destruct (rn_mantissa_bounds E0 V1 HE HV1) as [Hq10 [Hm1 [Hq1 Hlo1]]].
  destruct (rn_mantissa_bounds E0 V2 HE HV2) as [Hq20 [Hm2 [Hq2 Hlo2]]].
  destruct (rn_shift_bounds E0 V1 HE HV1) as [Hk1 [Hk1' _]].
  destruct (rn_shift_bounds E0 V2 HE HV2) as [Hk2 [Hk2' _]].
  assert (Hk12 : rn_shift E0 V1 <= rn_shift E0 V2).
  { unfold rn_shift. pose proof (Z.log2_le_mono V1 V2 HV12). lia. }
  unfold rn_key, lex_le.
  set (k1 := rn_shift E0 V1) in *. set (k2 := rn_shift E0 V2) in *.
  cbv zeta.
  destruct (Z.eq_dec k1 k2) as [Hk|Hk].
  - (* the same grid *)
    assert (Hm12 : V1 / 2 ^ k1 + (if rn_up V1 k1 then 1 else 0)
                   <= V2 / 2 ^ k2 + (if rn_up V2 k2 then 1 else 0)).
    { rewrite <- Hk.
      assert (HP : 0 < 2 ^ k1) by (apply Z.pow_pos_nonneg; lia).
      pose proof (Z.div_le_mono V1 V2 (2 ^ k1) HP HV12) as Hq.
      destruct (Z.eq_dec (V1 / 2 ^ k1) (V2 / 2 ^ k1)) as [Heq|Hne].
      - rewrite <- Heq.
        destruct (rn_up V1 k1) eqn:Hup1.
        + rewrite (rn_up_mono V1 V2 k1 Hk1 (conj HV1 HV12) Heq Hup1). lia.
        + destruct (rn_up V2 k1); lia.
      - destruct (rn_up V1 k1), (rn_up V2 k1); lia. }
    set (m1 := V1 / 2 ^ k1 + (if rn_up V1 k1 then 1 else 0)) in *.
    set (m2 := V2 / 2 ^ k2 + (if rn_up V2 k2 then 1 else 0)) in *.
    destruct (Z.eqb_spec m1 (2 ^ 53)), (Z.eqb_spec m2 (2 ^ 53));
      cbn [fst snd]; lia.
  - (* a coarser grid for [V2] *)
    assert (Hq2' : 2 ^ 52 <= V2 / 2 ^ k2) by (destruct Hlo2; lia).
    set (m1 := V1 / 2 ^ k1 + (if rn_up V1 k1 then 1 else 0)) in *.
    set (m2 := V2 / 2 ^ k2 + (if rn_up V2 k2 then 1 else 0)) in *.
    destruct (Z.eqb_spec m1 (2 ^ 53)), (Z.eqb_spec m2 (2 ^ 53));
      cbn [fst snd]; lia.
Qed.

(** On binary64 pairs the order by exponent and mantissa is the order of
    the values. *)
Lemma canon_lex_val (k1 k2 : Z * Z) :
  canon k1 -> canon k2 -> lex_le k1 k2 -> key_val k1 <= key_val k2.
Proof.
  destruct k1 as [e1 m1], k2 as [e2 m2].
  unfold canon, lex_le, key_val. cbn [fst snd].
  intros [He1 [Hm1 Hc1]] [He2 [Hm2 Hc2]] [Hlt|[-> Hle]].
  - assert (Hm2' : 2 ^ 52 <= m2) by lia.
    assert (Hp1 : 0 < 2 ^ (e1 - emin)) by (apply Z.pow_pos_nonneg; lia).
    assert (Hp : 2 * 2 ^ (e1 - emin) <= 2 ^ (e2 - emin)).
    { replace (2 * 2 ^ (e1 - emin)) with (2 ^ (e1 - emin + 1))
        by (rewrite Z.pow_add_r by lia; lia).
      apply Z.pow_le_mono_r; lia. }
    change (2 ^ 53) with (2 * 2 ^ 52) in Hm1.
    set (a := 2 ^ 52) in *. nia.
  - apply Z.mul_le_mono_nonneg_r; [|exact Hle].
    apply Z.pow_nonneg; lia.
Qed.

(** The floats of two ordered binary64 pairs compare the same way. *)
Lemma key_float_le (k1 k2 : Z * Z) :
  canon k1 -> canon k2 -> lex_le k1 k2 ->
  PyFloat.leb (key_float false k1) (key_float false k2) = true.
Proof.
  destruct k1 as [e1 m1], k2 as [e2 m2].
  unfold canon, lex_le, key_float. cbn [fst snd].
  intros [He1 [Hm1 Hc1]] [He2 [Hm2 Hc2]] Hlex.
  destruct m1 as [|p1|p1]; [| |lia].
  - destruct m2 as [|p2|p2]; [reflexivity| |lia].
    destruct (e2 <=? 971); reflexivity.
  - destruct m2 as [|p2|p2]; [|  |lia].
    + exfalso. change (2 ^ 52) with 4503599627370496 in *. lia.
    + destruct (Z.leb_spec e1 971), (Z.leb_spec e2 971); try reflexivity.
      * unfold PyFloat.leb, SFleb. cbn [SFcompare].
        destruct Hlex as [Hlt|[-> Hle]].
        -- apply Z.compare_lt_iff in Hlt. rewrite Hlt. reflexivity.
        -- rewrite Z.compare_refl.
           change (Pos.compare_cont Eq p1 p2) with (Pos.compare p1 p2).
           destruct (Pos.compare_spec p1 p2); try reflexivity. lia.
      * exfalso. lia.
Qed.
End RoundProps.

(** ** The rounding of [SpecFloat] is rounding to nearest *)

Section ShrProps.
Import Round.

Lemma digits2_size (p : positive) : digits2_pos p = Pos.size p.
Proof. induction p as [p IH|p IH|]; cbn; congruence. Qed.

Lemma digits2_log2 (p : positive) :
  Zpos (digits2_pos p) = Z.log2 (Zpos p) + 1.
Proof.
  destruct p as [p|p|]; cbn [digits2_pos Z.log2];
    rewrite ?digits2_size, ?Pos2Z.inj_succ; lia.
Qed.

Lemma fexp_eq (e : Z) :
  fexp PyFloat.prec PyFloat.emax e = Z.max (e - 53) emin.
Proof. reflexivity. Qed.

Lemma iter_pos_invariant {A : Type} (f : A -> A) (Q : Z -> A -> Prop) :
  (forall n x, 0 <= n -> Q n x -> Q (n + 1) (f x)) ->
  forall (p : positive) (n : Z) (x : A),
    0 <= n -> Q n x -> Q (n + Zpos p) (SpecFloat.iter_pos f p x).
Proof.
  intros Hstep. induction p as [p IH|p IH|]; intros n x Hn Hx;
    cbn [SpecFloat.iter_pos].
  - replace (n + Zpos p~1) with (n + 1 + Zpos p + Zpos p) by lia.
    apply IH; [lia|]. apply IH; [lia|]. apply Hstep; assumption.
  - replace (n + Zpos p~0) with (n + Zpos p + Zpos p) by lia.
    apply IH; [lia|]. apply IH; assumption.
  - apply Hstep; assumption.
Qed.

Lemma shr_1_nonneg (R : shr_record) :
  0 <= shr_m R ->
  shr_1 R = Build_shr_record (shr_m R / 2) (Z.odd (shr_m R))
                             (shr_r R || shr_s R).
Proof.
  destruct R as [m r s]. cbn [shr_m shr_r shr_s]. intros Hm.
  rewrite <- Z.div2_div.
  destruct m as [|p|p]; [reflexivity| |lia].
  destruct p; reflexivity.
Qed.

Lemma shr_repr_step (m n : Z) (R : shr_record) :
  0 <= m -> 0 <= n -> shr_repr m n R -> shr_repr m (n + 1) (shr_1 R).
Proof.
  intros Hm Hn [HR [H0 H1]].
  assert (HP : 0 < 2 ^ n) by (apply Z.pow_pos_nonneg; lia).
  assert (HR0 : 0 <= shr_m R) by (rewrite HR; apply Z.div_pos; lia).
  rewrite shr_1_nonneg by exact HR0.
  assert (Hpow : 2 ^ (n + 1) = 2 ^ n * 2) by (rewrite Z.pow_add_r; lia).
  assert (Hmod : m mod 2 ^ (n + 1)
                 = m mod 2 ^ n + 2 ^ n * (if Z.odd (m / 2 ^ n) then 1 else 0)).
  { rewrite Hpow, Z.rem_mul_r by lia. rewrite Zmod_odd. reflexivity. }
  pose proof (Z.mod_pos_bound m (2 ^ n) HP) as Hb.
  unfold shr_repr. cbn [shr_m shr_r shr_s].
  split; [|split].
  - rewrite HR, Hpow, Z.div_div by lia. reflexivity.
  - intros; lia.
  - intros _. replace (n + 1 - 1) with n by lia.
    rewrite Hmod, HR.
    destruct (Z.eq_dec n 0) as [->|Hn0].
    + destruct (H0 eq_refl) as [-> ->].
      change (2 ^ 0) with 1 in *. rewrite Z.mod_1_r.
      destruct (Z.odd (m / 1)); split; reflexivity.
    + destruct (H1 ltac:(lia)) as [-> ->].
      assert (Hh : 0 < 2 ^ (n - 1)) by (apply Z.pow_pos_nonneg; lia).
      assert (Hhh : 2 ^ n = 2 * 2 ^ (n - 1)).
      { replace n with (n - 1 + 1) at 1 by lia.
        rewrite Z.pow_add_r by lia. lia. }
      set (r := m mod 2 ^ n) in *. set (h := 2 ^ (n - 1)) in *.
      set (P := 2 ^ n) in *.
      destruct (Z.odd (m / P)).
      * split.
        -- symmetry. apply Z.leb_le. lia.
        -- destruct (Z.leb_spec h r), (Z.eqb_spec r 0), (Z.eqb_spec r h),
             (Z.eqb_spec (r + P * 1) 0), (Z.eqb_spec (r + P * 1) P);
             cbn; try reflexivity; lia.
      * split.
        -- symmetry. apply Z.leb_gt. lia.
        -- destruct (Z.leb_spec h r), (Z.eqb_spec r 0), (Z.eqb_spec r h),
             (Z.eqb_spec (r + P * 0) 0), (Z.eqb_spec (r + P * 0) P);
             cbn; try reflexivity; lia.
Qed.

(** [n] right shifts of an exact mantissa. *)
Lemma shr_repr_iter (m : Z) (p : positive) :
  0 <= m ->
  shr_repr m (Zpos p) (SpecFloat.iter_pos shr_1 p (Build_shr_record m false false)).
Proof.
  intros Hm.
  apply (iter_pos_invariant shr_1 (fun n R => shr_repr m n R)
           (fun n R Hn HR => shr_repr_step m n R Hm Hn HR) p 0
           (Build_shr_record m false false)); [lia|].
  unfold shr_repr. cbn [shr_m shr_r shr_s].
  change (2 ^ 0) with 1. rewrite Z.div_1_r.
  split; [reflexivity|]. split; [intros; split; reflexivity | intros; lia].
Qed.

(** Rounding a shifted mantissa by its shift record is [rn_up]. *)
Lemma shr_repr_round (m n : Z) (R : shr_record) :
  1 <= n -> shr_repr m n R ->
  round_nearest_even (shr_m R) (loc_of_shr_record R)
  = m / 2 ^ n + (if rn_up m n then 1 else 0).
Proof.
  intros Hn [HR [_ H1]]. destruct (H1 Hn) as [Hr Hs].
  destruct R as [q r s]. cbn [shr_m shr_r shr_s] in *. subst q.
  unfold rn_up. cbv zeta.
  assert (Hh : 0 < 2 ^ (n - 1)) by (apply Z.pow_pos_nonneg; lia).
  set (r0 := m mod 2 ^ n) in *. set (h := 2 ^ (n - 1)) in *.
  set (q := m / 2 ^ n).
  subst r s.
  destruct (Z.leb_spec h r0), (Z.eqb_spec r0 0), (Z.eqb_spec r0 h),
    (Z.ltb_spec h r0);
    cbn [negb orb andb loc_of_shr_record round_nearest_even];
    try lia; rewrite <- ?Z.negb_odd; destruct (Z.odd q); cbn [negb]; lia.
Qed.

Lemma rn_up_scale (m n c : Z) :
  1 <= n -> 0 <= c -> rn_up (m * 2 ^ c) (n + c) = rn_up m n.
Proof.
  intros Hn Hc. unfold rn_up. cbv zeta.
  assert (Hc' : 0 < 2 ^ c) by (apply Z.pow_pos_nonneg; lia).
  assert (Hn' : 0 < 2 ^ n) by (apply Z.pow_pos_nonneg; lia).
  assert (Hh : 0 < 2 ^ (n - 1)) by (apply Z.pow_pos_nonneg; lia).
  rewrite (Z.pow_add_r 2 n c) by lia.
  rewrite Z.mul_mod_distr_r, Z.div_mul_cancel_r by lia.
  replace (n + c - 1) with (n - 1 + c) by lia.
  rewrite (Z.pow_add_r 2 (n - 1) c) by lia.
  set (r := m mod 2 ^ n). set (h := 2 ^ (n - 1)) in *. set (C := 2 ^ c) in *.
  f_equal.
  - destruct (Z.ltb_spec (h * C) (r * C)), (Z.ltb_spec h r);
      try reflexivity; nia.
  - f_equal.
    destruct (Z.eqb_spec (r * C) (h * C)), (Z.eqb_spec r h);
      try reflexivity; nia.
Qed.
End ShrProps.

Section RoundAux.
Import Round.

Lemma Zdigits2_log2 (z : Z) : 0 < z -> Zdigits2 z = Z.log2 z + 1.
Proof.
  destruct z as [|p|p]; try lia. intros _. apply digits2_log2.
Qed.

(** The first step of [binary_round_aux] on an exact mantissa. *)
Lemma shr_fexp_exact (m e : Z) :
  0 <= m ->
  let e1 := fexp PyFloat.prec PyFloat.emax (Zdigits2 m + e) in
  (e1 <= e ->
   shr_fexp PyFloat.prec PyFloat.emax m e loc_Exact
   = (Build_shr_record m false false, e)) /\
  (e < e1 ->
   exists R : shr_record,
     shr_fexp PyFloat.prec PyFloat.emax m e loc_Exact = (R, e1) /\
     shr_repr m (e1 - e) R).
Proof.
  intros Hm e1. unfold shr_fexp. fold e1.
  cbn [shr_record_of_loc]. unfold shr.
  split; intros He.
  - destruct (e1 - e) as [|p|p] eqn:Hn; try reflexivity. lia.
  - destruct (e1 - e) as [|p|p] eqn:Hn; try lia.
    eexists. split.
    + f_equal. lia.
    + apply shr_repr_iter. exact Hm.
Qed.

(** [binary_round_aux] on an exact mantissa that has no more precision
    than the format is rounding to nearest, ties to even. *)
Lemma binary_round_aux_exact (sx : bool) (m : positive) (e E0 : Z) :
  E0 < emin -> E0 <= e ->
  e <= fexp PyFloat.prec PyFloat.emax (Zpos (digits2_pos m) + e) ->
  binary_round_aux PyFloat.prec PyFloat.emax sx (Zpos m) e loc_Exact
  = key_float sx (rn_key E0 (Zpos m * 2 ^ (e - E0))).
Proof.
  intros HE0 HEe Hfe.
  rewrite fexp_eq, digits2_log2 in Hfe.
  set (L := Z.log2 (Zpos m)) in *.
  assert (HL : 0 <= L) by apply Z.log2_nonneg.
  set (e1 := Z.max (L + 1 + e - 53) emin) in *.
  set (c := e - E0).
  assert (Hc : 0 <= c) by (unfold c; lia).
  assert (HC : 0 < 2 ^ c) by (apply Z.pow_pos_nonneg; lia).
  set (V := Zpos m * 2 ^ c).
  assert (HV : 0 <= V) by (unfold V; lia).
  assert (Hk : rn_shift E0 V = e1 - E0).
  { unfold rn_shift, V. rewrite Z.log2_mul_pow2 by lia.
    fold L. unfold e1, c. lia. }
  destruct (rn_mantissa_bounds E0 V HE0 HV) as [_ [Hmb [Hq53 _]]].
  rewrite Hk in Hmb, Hq53.
  destruct (shr_fexp_exact (Zpos m) e ltac:(lia)) as [Hno Hshift].
  cbn [Zdigits2] in Hno, Hshift.
  rewrite fexp_eq, digits2_log2 in Hno, Hshift.
  fold L in Hno, Hshift. fold e1 in Hno, Hshift.
  assert (He1 : emin <= e1) by (unfold e1; lia).
  unfold binary_round_aux.
  destruct (Z.eq_dec e1 e) as [Heq|Hneq].
  - (* nothing to shift *)
    rewrite (Hno ltac:(lia)). cbn [shr_m loc_of_shr_record round_nearest_even].
    rewrite (Hno ltac:(lia)). cbn [shr_m].
    unfold rn_key. rewrite Hk. cbv zeta.
    replace (e1 - E0) with c by (unfold c; lia).
    assert (Hq : V / 2 ^ c = Zpos m) by (unfold V; apply Z.div_mul; lia).
    assert (Hup : rn_up V c = false).
    { unfold rn_up, V. cbv zeta. rewrite Z.mod_mul by lia.
      assert (Hh : 0 < 2 ^ (c - 1)).
      { apply Z.pow_pos_nonneg; unfold c; lia. }
      destruct (Z.ltb_spec (2 ^ (c - 1)) 0), (Z.eqb_spec 0 (2 ^ (c - 1)));
        try reflexivity; lia. }
    rewrite Hq, Hup, Z.add_0_r.
    replace (e1 - E0) with c in Hq53 by (unfold c; lia).
    rewrite Hq in Hq53.
    destruct (Z.eqb_spec (Zpos m) (2 ^ 53)) as [Habs|_]; [lia|].
    unfold key_float. cbn [fst snd].
    replace (E0 + c) with e by (unfold c; lia). reflexivity.
  - (* [e1 - e] bits to shift out *)
    destruct (Hshift ltac:(lia)) as [R [HR Hrepr]]. rewrite HR.
    set (n := e1 - e) in *.
    assert (Hn : 1 <= n) by (unfold n; lia).
    rewrite (shr_repr_round (Zpos m) n R Hn Hrepr).
    assert (HkV : e1 - E0 = n + c) by (unfold n, c; lia).
    assert (Hq : V / 2 ^ (e1 - E0) = Zpos m / 2 ^ n).
    { rewrite HkV. unfold V. rewrite Z.pow_add_r by lia.
      apply Z.div_mul_cancel_r; lia. }
    assert (Hup : rn_up V (e1 - E0) = rn_up (Zpos m) n).
    { rewrite HkV. unfold V. apply rn_up_scale; lia. }
    unfold rn_key. rewrite Hk. cbv zeta. rewrite Hq, Hup.
    rewrite Hq, Hup in Hmb. rewrite Hq in Hq53.
    assert (Hq0 : 0 <= Zpos m / 2 ^ n).
    { apply Z.div_pos; [lia|]. apply Z.pow_pos_nonneg; lia. }
    set (m2 := Zpos m / 2 ^ n + (if rn_up (Zpos m) n then 1 else 0)) in *.
    destruct (Z.eqb_spec m2 (2 ^ 53)) as [Hcarry|Hnocarry].
    + (* the rounding carried into a 54th bit *)
      rewrite Hcarry.
      unfold shr_fexp. rewrite fexp_eq.
      change (Zdigits2 (2 ^ 53)) with 54.
      replace (Z.max (54 + e1 - 53) emin - e1) with 1 by lia.
      cbn [shr_record_of_loc shr SpecFloat.iter_pos].
      change (shr_m (shr_1 (Build_shr_record (2 ^ 53) false false)))
        with (2 ^ 52).
      change (2 ^ 52) with (Zpos 4503599627370496).
      unfold key_float. cbn [fst snd].
      replace (E0 + (e1 - E0) + 1) with (e1 + 1) by lia. reflexivity.
    + (* no carry *)
      assert (Hm2 : 0 <= m2 < 2 ^ 53) by lia.
      destruct (shr_fexp_exact m2 e1 ltac:(lia)) as [Hno2 _].
      rewrite Hno2.
      * cbn [shr_m]. unfold key_float. cbn [fst snd].
        replace (E0 + (e1 - E0)) with e1 by lia.
        destruct m2 as [|p2|p2]; try reflexivity. lia.
      * rewrite fexp_eq.
        destruct (Z.eq_dec m2 0) as [->|Hnz].
        -- cbn [Zdigits2]. lia.
        -- rewrite Zdigits2_log2 by lia.
           assert (Z.log2 m2 < 53) by (apply Z.log2_lt_pow2; lia).
           lia.
Qed.
End RoundAux.

(** ** The float operations of [retrieve], as roundings *)

Section FloatOps.
Import Round.

(** A valid binary64 float has a binary64 exponent and mantissa. *)
Lemma valid_canon (s : bool) (m : positive) (e : Z) :
  valid_binary PyFloat.prec PyFloat.emax (S754_finite s m e) = true ->
  canon (e, Zpos m) /\ e <= 971.
Proof.
  unfold valid_binary, bounded, canonical_mantissa.
  intros H. apply andb_true_iff in H. destruct H as [Hc He].
  apply Z.eqb_eq in Hc. apply Z.leb_le in He.
  change (PyFloat.emax - PyFloat.prec) with 971 in He.
  rewrite fexp_eq, digits2_log2 in Hc.
  set (L := Z.log2 (Zpos m)) in *.
  assert (HL : L < 53) by (unfold emin in Hc; lia).
  assert (Hm : Zpos m < 2 ^ 53) by (apply Z.log2_lt_pow2; [lia|exact HL]).
  split; [|exact He].
  unfold canon. cbn [fst snd].
  split; [unfold emin in *; lia|]. split; [lia|].
  destruct (Z.eq_dec e emin) as [->|Hne]; [left; reflexivity | right].
  apply Z.log2_le_pow2; [lia|]. fold L. unfold emin in *. lia.
Qed.

Lemma iter_xO (p d : positive) :
  Zpos (Pos.iter xO p d) = Zpos p * 2 ^ Zpos d.
Proof.
  induction d as [|d IH] using Pos.peano_ind.
  - cbn [Pos.iter]. rewrite Pos2Z.inj_xO. change (2 ^ 1) with 2. lia.
  - rewrite Pos.iter_succ, Pos2Z.inj_succ, Z.pow_succ_r by lia.
    rewrite Pos2Z.inj_xO, IH. lia.
Qed.

Lemma shl_align_spec (mx : positive) (ex ex' : Z) :
  snd (shl_align mx ex ex') = Z.min ex ex' /\
  Zpos (fst (shl_align mx ex ex'))
  = Zpos mx * 2 ^ (ex - Z.min ex ex').
Proof.
  unfold shl_align.
  destruct (ex' - ex) as [|d|d] eqn:Hd; cbn [fst snd].
  - rewrite Z.min_l by lia. rewrite Z.sub_diag. split; lia.
  - rewrite Z.min_l by lia. rewrite Z.sub_diag. split; lia.
  - rewrite Z.min_r by lia. split; [reflexivity|].
    rewrite iter_xO. f_equal. f_equal. lia.
Qed.

Lemma binary_round_aux_exact_Z (sx : bool) (mz e E0 : Z) :
  0 < mz -> E0 < emin -> E0 <= e ->
  e <= fexp PyFloat.prec PyFloat.emax (Zdigits2 mz + e) ->
  binary_round_aux PyFloat.prec PyFloat.emax sx mz e loc_Exact
  = key_float sx (rn_key E0 (mz * 2 ^ (e - E0))).
Proof.
  destruct mz as [|m|m]; try lia. intros _.
  apply binary_round_aux_exact.
Qed.

(** [binary_round] is rounding to nearest. *)
Lemma binary_round_correct (sx : bool) (mx : positive) (ex E0 : Z) :
  E0 < emin -> E0 <= ex ->
  binary_round PyFloat.prec PyFloat.emax sx mx ex
  = key_float sx (rn_key E0 (Zpos mx * 2 ^ (ex - E0))).
Proof.
  intros HE0 Hex. unfold binary_round.
  set (f0 := fexp PyFloat.prec PyFloat.emax (Zpos (digits2_pos mx) + ex)).
  destruct (shl_align_spec mx ex f0) as [He Hm].
  destruct (shl_align mx ex f0) as [mz ez]. cbn [fst snd] in He, Hm.
  rewrite <- He in Hm.
  assert (Hf0 : emin <= f0) by (unfold f0; rewrite fexp_eq; lia).
  assert (Hs : 0 <= ex - ez) by lia.
  rewrite (binary_round_aux_exact sx mz ez E0 HE0 ltac:(lia)).
  - f_equal. f_equal. rewrite Hm, <- Z.mul_assoc, <- Z.pow_add_r by lia.
    f_equal. f_equal. lia.
  - rewrite digits2_log2, Hm, Z.log2_mul_pow2 by lia.
    replace (ex - ez + Z.log2 (Zpos mx) + 1 + ez)
      with (Z.log2 (Zpos mx) + 1 + ex) by lia.
    rewrite <- digits2_log2. fold f0. lia.
Qed.

(** The square of a finite float. *)
Lemma square_correct (m : positive) (e : Z) :
  canon (e, Zpos m) ->
  PyFloat.mul (S754_finite false m e) (S754_finite false m e)
  = key_float false (sq_key (Zpos m * 2 ^ (e - emin))).
Proof.
  intros [He [Hm Hc]]. cbn [fst snd] in He, Hm, Hc.
  unfold PyFloat.mul. cbn [SFmul xorb].
  rewrite (binary_round_aux_exact false (m * m) (e + e) (-2148)).
  - unfold sq_key. f_equal. f_equal.
    rewrite Pos2Z.inj_mul.
    replace (e + e - -2148) with ((e - emin) + (e - emin))
      by (unfold emin; lia).
    rewrite Z.pow_add_r by lia. ring.
  - unfold emin. lia.
  - unfold emin in He. lia.
  - rewrite fexp_eq, digits2_log2, Pos2Z.inj_mul.
    pose proof (Z.log2_mul_below (Zpos m) (Zpos m) ltac:(lia) ltac:(lia))
      as Hlog.
    destruct Hc as [->|Hbig].
    + unfold emin. lia.
    + assert (52 <= Z.log2 (Zpos m)) by (apply Z.log2_le_pow2; lia).
      lia.
Qed.
End FloatOps.

Section FloatDiv.
Import Round.

Lemma div_eucl_div_mod (a b : Z) : Z.div_eucl a b = (a / b, a mod b).
Proof. unfold Z.div, Z.modulo. destruct (Z.div_eucl a b). reflexivity. Qed.

Lemma new_location_two52 (r : Z) :
  new_location 4503599627370496 r
  = if r =? 0 then loc_Exact
    else loc_Inexact (2 * r ?= 4503599627370496).
Proof. reflexivity. Qed.

(** Halving a finite float. *)
Lemma half_correct (m : positive) (e : Z) :
  canon (e, Zpos m) ->
  PyFloat.div (S754_finite false m e) PyFloat.two
  = key_float false (rn_key (-1075) (Zpos m * 2 ^ (e - emin))).
Proof.
  intros [He [Hm Hc]]. cbn [fst snd] in He, Hm, Hc.
  unfold PyFloat.div, PyFloat.two. cbn [SFdiv xorb].
  unfold SFdiv_core_binary. cbv zeta.
  cbn [Zdigits2].
  change (digits2_pos 4503599627370496) with 53%positive.
  rewrite fexp_eq, digits2_log2, div_eucl_div_mod, new_location_two52.
  set (L := Z.log2 (Zpos m)).
  assert (HL0 : 0 <= L) by apply Z.log2_nonneg.
  assert (HL : L < 53) by (apply Z.log2_lt_pow2; lia).
  set (e' := Z.min (Z.max (L + 1 + e - (53 + -51) - 53) emin) (e - -51)).
  assert (He' : e' = Z.max (L + e - 54) emin) by (unfold e'; lia).
  remember (e - -51 - e') as s eqn:Hs.
  destruct s as [|ps|ps]; try lia.
  rewrite Z.shiftl_mul_pow2 by lia.
  destruct (Z.eq_dec e emin) as [Hemin|Hnorm].
  - (* the least exponent: one bit is shifted out *)
    assert (Hps : Zpos ps = 51) by lia. rewrite Hps.
    assert (He'' : e' = emin) by lia. rewrite He''.
    change 4503599627370496 with (2 * 2 ^ 51).
    rewrite Z.div_mul_cancel_r, Z.mul_mod_distr_r by lia.
    rewrite Hemin, Z.sub_diag, Z.mul_1_r.
    set (q := Zpos m / 2).
    assert (Hq : 0 <= q < 2 ^ 52).
    { unfold q. split; [apply Z.div_pos; lia|].
      apply Z.div_lt_upper_bound; lia. }
    (* the reference rounding of [m] *)
    assert (Hkey : rn_key (-1075) (Zpos m)
                   = (emin, q + (if Z.odd (Zpos m) && Z.odd q then 1 else 0))).
    { unfold rn_key. cbv zeta.
      assert (Hk : rn_shift (-1075) (Zpos m) = 1).
      { unfold rn_shift. fold L. unfold emin. lia. }
      rewrite Hk. change (2 ^ 1) with 2. fold q.
      assert (Hup : rn_up (Zpos m) 1 = Z.odd (Zpos m) && Z.odd q).
      { unfold rn_up. cbv zeta. change (2 ^ (1 - 1)) with 1.
        change (2 ^ 1) with 2. fold q. rewrite Zmod_odd.
        destruct (Z.odd (Zpos m)); reflexivity. }
      rewrite Hup.
      destruct (Z.eqb_spec
                  (q + (if Z.odd (Zpos m) && Z.odd q then 1 else 0))
                  (2 ^ 53)) as [Habs|_].
      - exfalso. destruct (Z.odd (Zpos m) && Z.odd q); lia.
      - reflexivity. }
    rewrite Hkey.
    (* what [binary_round_aux] does *)
    assert (Hnoshift : forall z : Z, 0 <= z <= 2 ^ 52 ->
              fexp PyFloat.prec PyFloat.emax (Zdigits2 z + emin) <= emin).
    { intros z Hz. rewrite fexp_eq.
      destruct (Z.eq_dec z 0) as [->|Hnz]; [cbn [Zdigits2]; lia|].
      rewrite Zdigits2_log2 by lia.
      assert (Z.log2 z <= 52).
      { destruct (Z.eq_dec z (2 ^ 52)) as [->|Hne].
        - rewrite Z.log2_pow2; lia.
        - assert (Z.log2 z < 52) by (apply Z.log2_lt_pow2; lia). lia. }
      lia. }
    unfold binary_round_aux.
    assert (Hfirst : forall l : location,
              shr_fexp PyFloat.prec PyFloat.emax q emin l
              = (shr_record_of_loc q l, emin)).
    { intros l. unfold shr_fexp, shr.
      pose proof (Hnoshift q ltac:(lia)) as Hn.
      rewrite fexp_eq in Hn |- *.
      replace (Z.max (Zdigits2 q + emin - 53) emin - emin) with 0 by lia.
      reflexivity. }
    rewrite Zmod_odd.
    destruct (Z.odd (Zpos m)) eqn:Hodd.
    + (* a tie *)
      change (1 * 2 ^ 51 =? 0) with false. cbv iota.
      change (2 * (1 * 2 ^ 51) ?= 2 * 2 ^ 51) with Eq.
      rewrite Hfirst.
      cbn [shr_record_of_loc shr_m loc_of_shr_record round_nearest_even].
      rewrite <- Z.negb_odd. cbn [andb].
      set (m2 := if negb (Z.odd q) then q else q + 1).
      assert (Hm2 : m2 = q + (if Z.odd q then 1 else 0)).
      { unfold m2. destruct (Z.odd q); cbn [negb]; lia. }
      assert (Hm2b : 0 <= m2 <= 2 ^ 52).
      { rewrite Hm2. destruct (Z.odd q); lia. }
      destruct (shr_fexp_exact m2 emin ltac:(lia)) as [Hno2 _].
      rewrite (Hno2 (Hnoshift m2 Hm2b)). cbn [shr_m].
      rewrite <- Hm2. unfold key_float. cbn [fst snd].
      destruct m2 as [|p2|p2]; try reflexivity. lia.
    + (* exact *)
      change (0 * 2 ^ 51 =? 0) with true. cbv iota.
      rewrite Hfirst.
      cbn [shr_record_of_loc shr_m loc_of_shr_record round_nearest_even].
      destruct (shr_fexp_exact q emin ltac:(lia)) as [Hno2 _].
      rewrite (Hno2 (Hnoshift q ltac:(lia))). cbn [shr_m andb].
      rewrite Z.add_0_r. unfold key_float. cbn [fst snd].
      destruct q as [|p2|p2]; try reflexivity. lia.
  - (* a normal float: the quotient is exact *)
    assert (HL52 : L = 52).
    { destruct Hc as [Hc|Hc]; [lia|].
      assert (52 <= L) by (apply Z.log2_le_pow2; lia). lia. }
    assert (Hs52 : 52 <= Zpos ps) by lia.
    assert (He'e : emin <= e') by lia.
    unfold emin in He, He', He'e, Hnorm |- *.
    change 4503599627370496 with (2 ^ 52).
    replace (Zpos m * 2 ^ Zpos ps)
      with (Zpos m * 2 ^ (Zpos ps - 52) * 2 ^ 52)
      by (rewrite <- Z.mul_assoc, <- Z.pow_add_r by lia;
          f_equal; f_equal; lia).
    rewrite Z.div_mul, Z.mod_mul by lia.
    change (0 =? 0) with true. cbv iota.
    assert (Hpp : 0 < 2 ^ (Zpos ps - 52)) by (apply Z.pow_pos_nonneg; lia).
    rewrite (binary_round_aux_exact_Z false _ e' (-1075)).
    + f_equal. f_equal.
      rewrite <- Z.mul_assoc, <- Z.pow_add_r by lia.
      f_equal. f_equal. lia.
    + lia.
    + unfold emin. lia.
    + lia.
    + rewrite fexp_eq, Zdigits2_log2 by lia.
      rewrite Z.log2_mul_pow2 by lia. fold L. unfold emin. lia.
Qed.
End FloatDiv.

Section FloatSub.
Import Round.

(** [1.0 - h] for a finite positive [h]. *)
Lemma sub_one_correct (mh : positive) (eh : Z) :
  emin <= eh ->
  PyFloat.sub PyFloat.one (S754_finite false mh eh)
  = signed_round (2 ^ 1075 - 2 * (Zpos mh * 2 ^ (eh - emin))).
Proof.
  intros Heh. unfold emin in Heh.
  unfold PyFloat.sub, PyFloat.one. cbn [SFsub]. cbv zeta. cbn [cond_Zopp].
  set (ez := Z.min (-52) eh).
  destruct (shl_align_spec 4503599627370496 (-52) ez) as [_ H1].
  destruct (shl_align_spec mh eh ez) as [_ Hh].
  rewrite H1, Hh.
  replace (Z.min (-52) ez) with ez by (unfold ez; lia).
  replace (Z.min eh ez) with ez by (unfold ez; lia).
  assert (Hez : -1074 <= ez <= -52) by (unfold ez; lia).
  assert (Hezh : ez <= eh) by (unfold ez; lia).
  set (c := ez - -1075).
  assert (Hc : 0 < 2 ^ c) by (apply Z.pow_pos_nonneg; unfold c; lia).
  assert (HU : forall D : Z,
            D = 4503599627370496 * 2 ^ (-52 - ez) - Zpos mh * 2 ^ (eh - ez) ->
            2 ^ 1075 - 2 * (Zpos mh * 2 ^ (eh - emin)) = D * 2 ^ c).
  { intros D ->. rewrite Z.mul_sub_distr_r.
    change 4503599627370496 with (2 ^ 52).
    rewrite <- !Z.mul_assoc, <- !Z.pow_add_r by (unfold c; lia).
    replace (52 + (-52 - ez + c)) with 1075 by (unfold c; lia).
    replace (eh - ez + c) with (1 + (eh - emin)) by (unfold c, emin; lia).
    rewrite (Z.pow_add_r 2 1 (eh - emin)) by (unfold emin; lia).
    change (2 ^ 1) with 2. ring. }
  remember (4503599627370496 * 2 ^ (-52 - ez) - Zpos mh * 2 ^ (eh - ez))
    as D eqn:HD.
  rewrite (HU D eq_refl).
  unfold binary_normalize, signed_round.
  destruct D as [|p|p].
  - reflexivity.
  - assert (Hpos : 0 < Zpos p * 2 ^ c) by lia.
    destruct (Z.eqb_spec (Zpos p * 2 ^ c) 0) as [Habs|_]; [lia|].
    destruct (Z.ltb_spec 0 (Zpos p * 2 ^ c)) as [_|Habs]; [|lia].
    apply binary_round_correct; unfold emin; lia.
  - assert (Hneg : Zneg p * 2 ^ c < 0) by lia.
    destruct (Z.eqb_spec (Zneg p * 2 ^ c) 0) as [Habs|_]; [lia|].
    destruct (Z.ltb_spec 0 (Zneg p * 2 ^ c)) as [Habs|_]; [lia|].
    replace (- (Zneg p * 2 ^ c)) with (Zpos p * 2 ^ c) by lia.
    apply binary_round_correct; unfold emin; lia.
Qed.
End FloatSub.

(** ** The similarity as a function of the distance *)

Section SimilarityUnits.
Import Round.

Lemma key_val_nonneg (k : Z * Z) : canon k -> 0 <= key_val k.
Proof.
  intros [He [Hm _]]. unfold key_val.
  apply Z.mul_nonneg_nonneg; [lia|]. apply Z.pow_nonneg. lia.
Qed.

Lemma sq_key_canon (W : Z) : canon (sq_key W).
Proof.
  apply rn_key_canon; [unfold emin; lia|]. apply Z.square_nonneg.
Qed.

Lemma half_key_canon (W : Z) : canon (half_key W).
Proof.
  apply rn_key_canon; [unfold emin; lia|].
  apply key_val_nonneg, sq_key_canon.
Qed.

(** Half of a finite square is finite. *)
Lemma half_key_finite (W : Z) :
  fst (sq_key W) <= 971 -> fst (half_key W) <= 971.
Proof.
  intros Hs. pose proof (sq_key_canon W) as [He [Hm _]].
  pose proof (key_val_nonneg _ (sq_key_canon W)) as HX.
  unfold half_key. set (X := key_val (sq_key W)) in *.
  assert (HXlt : X < 2 ^ 2098).
  { unfold X, key_val.
    assert (Hp : 2 ^ (fst (sq_key W) - emin) <= 2 ^ 2045).
    { apply Z.pow_le_mono_r; unfold emin in *; lia. }
    assert (Hp0 : 0 < 2 ^ (fst (sq_key W) - emin)).
    { apply Z.pow_pos_nonneg; lia. }
    change (2 ^ 2098) with (2 ^ 53 * 2 ^ 2045).
    set (a := 2 ^ 53) in *. set (b := 2 ^ 2045) in *.
    set (c := 2 ^ (fst (sq_key W) - emin)) in *. nia. }
  assert (Hlog : Z.log2 X < 2098).
  { destruct (Z.eq_dec X 0) as [->|Hnz]; [reflexivity|].
    apply Z.log2_lt_pow2; lia. }
  unfold rn_key. cbv zeta.
  assert (Hk : rn_shift (-1075) X <= 2045).
  { unfold rn_shift, emin. lia. }
  destruct (_ =? 2 ^ 53); cbn [fst]; lia.
Qed.

(** The similarity of a finite non-negative distance, when its square
    does not overflow. *)
Lemma similarity_finite (m : positive) (e : Z) (s : PyFloat.float) :
  canon (e, Zpos m) ->
  similarity (S754_finite false m e) = Ok s ->
  s = similarity_of_units (Zpos m * 2 ^ (e - emin)).
Proof.
  intros Hcanon Hs. unfold similarity in Hs.
  unfold py_float_pow2 in Hs. cbn [SFabs] in Hs.
  rewrite (square_correct m e Hcanon) in Hs.
  set (W := Zpos m * 2 ^ (e - emin)) in *.
  unfold similarity_of_units.
  assert (Hraw : forall x, x = key_float false (sq_key W) ->
            fst (sq_key W) <= 971 \/ snd (sq_key W) = 0 ->
            raw_similarity x = signed_round (raw_units W)).
  { intros x -> Hfin. unfold raw_similarity.
    (* the half *)
    assert (Hhalf : PyFloat.div (key_float false (sq_key W)) PyFloat.two
                    = key_float false (half_key W)).
    { unfold half_key. pose proof (sq_key_canon W) as Hc.
      destruct (sq_key W) as [es ms] eqn:Hsq.
      unfold key_float at 1. cbn [fst snd] in *.
      destruct ms as [|p|p].
      - reflexivity.
      - destruct Hfin as [Hfin|Hfin]; [|discriminate].
        destruct (Z.leb_spec es 971); [|lia].
        rewrite (half_correct p es Hc). reflexivity.
      - destruct Hc as [_ [Hc _]]. cbn [snd] in Hc. lia. }
    rewrite Hhalf.
    (* one minus the half *)
    assert (Hhf : fst (half_key W) <= 971).
    { destruct Hfin as [Hfin|Hfin]; [apply half_key_finite; exact Hfin|].
      unfold half_key, key_val. rewrite Hfin, Z.mul_0_l.
      vm_compute. discriminate. }
    unfold raw_units. pose proof (half_key_canon W) as Hc.
    destruct (half_key W) as [eh mh] eqn:Hh.
    unfold key_float, key_val. cbn [fst snd] in *.
    destruct mh as [|q|q].
    - reflexivity.
    - destruct (Z.leb_spec eh 971); [|lia].
      apply sub_one_correct. destruct Hc as [Hc _]. exact Hc.
    - destruct Hc as [_ [Hc _]]. cbn [snd] in Hc. lia. }
  pose proof (sq_key_canon W) as Hc.
  destruct (sq_key W) as [es ms] eqn:Hsq.
  unfold key_float in Hs. cbn [fst snd] in Hs.
  destruct ms as [|p|p].
  - injection Hs as <-. rewrite <- (Hraw (S754_zero false)).
    + reflexivity.
    + unfold key_float. reflexivity.
    + right. reflexivity.
  - destruct (Z.leb_spec es 971) as [Hle|Hgt]; [|discriminate].
    injection Hs as <-. rewrite <- (Hraw (S754_finite false p es)).
    + reflexivity.
    + unfold key_float. cbn [fst snd].
      destruct (Z.leb_spec es 971); [reflexivity | lia].
    + left. exact Hle.
  - destruct Hc as [_ [Hc _]]. cbn [snd] in Hc. lia.
Qed.

Lemma similarity_of_units_zero : similarity_of_units 0 = PyFloat.one.
Proof. vm_compute. reflexivity. Qed.
End SimilarityUnits.

Section Antitone.
Import Round.

(** More distance, less [1 - d**2 / 2]. *)
Lemma raw_units_antitone (W1 W2 : Z) :
  0 <= W1 <= W2 -> raw_units W2 <= raw_units W1.
Proof.
  intros HW.
  assert (Hsq : lex_le (sq_key W1) (sq_key W2)).
  { apply rn_key_mono; [unfold emin; lia|]. nia. }
  pose proof (canon_lex_val _ _ (sq_key_canon W1) (sq_key_canon W2) Hsq)
    as Hval.
  pose proof (key_val_nonneg _ (sq_key_canon W1)) as H0.
  assert (Hh : lex_le (half_key W1) (half_key W2)).
  { apply rn_key_mono; [unfold emin; lia|]. lia. }
  pose proof (canon_lex_val _ _ (half_key_canon W1) (half_key_canon W2) Hh)
    as Hhval.
  unfold raw_units. lia.
Qed.

Lemma raw_units_le (W : Z) : raw_units W <= 2 ^ 1075.
Proof.
  pose proof (key_val_nonneg _ (half_key_canon W)). unfold raw_units. lia.
Qed.

(** Clamping what rounds a non-positive number. *)
Lemma clamp_signed_round_nonpos (U : Z) :
  U <= 0 ->
  PyFloat.py_max PyFloat.zero (PyFloat.py_min PyFloat.one (signed_round U))
  = PyFloat.zero.
Proof.
  intros HU. unfold signed_round.
  destruct (Z.eqb_spec U 0) as [_|Hnz]; [reflexivity|].
  destruct (Z.ltb_spec 0 U) as [Habs|_]; [lia|].
  unfold key_float.
  destruct (snd (rn_key (-1075) (- U))); try reflexivity.
  destruct (fst (rn_key (-1075) (- U)) <=? 971); reflexivity.
Qed.

Lemma rn_key_one : rn_key (-1075) (2 ^ 1075) = (-52, 2 ^ 52).
Proof. vm_compute. reflexivity. Qed.

(** Clamping what rounds a positive number that is at most one. *)
Lemma clamp_signed_round_pos (U : Z) :
  0 < U <= 2 ^ 1075 ->
  PyFloat.py_max PyFloat.zero (PyFloat.py_min PyFloat.one (signed_round U))
  = key_float false (rn_key (-1075) U).
Proof.
  intros [HU0 HU1]. unfold signed_round.
  destruct (Z.eqb_spec U 0) as [Habs|_]; [lia|].
  destruct (Z.ltb_spec 0 U) as [_|Habs]; [|lia].
  assert (Hlex : lex_le (rn_key (-1075) U) (-52, 2 ^ 52)).
  { rewrite <- rn_key_one. apply rn_key_mono; [unfold emin; lia | lia]. }
  assert (Hc : canon (rn_key (-1075) U)).
  { apply rn_key_canon; [unfold emin; lia | lia]. }
  destruct (rn_key (-1075) U) as [ek mk].
  unfold lex_le in Hlex. destruct Hc as [_ [Hm _]].
  unfold key_float. cbn [fst snd] in *.
  destruct mk as [|p|p]; [reflexivity| |lia].
  destruct (Z.leb_spec ek 971) as [_|Hbig]; [|lia].
  unfold PyFloat.py_min, PyFloat.py_max, PyFloat.ltb, SFltb, PyFloat.one,
    PyFloat.zero.
  cbn [SFcompare].
  destruct Hlex as [Hlt|[-> Hle]].
  - apply Z.compare_lt_iff in Hlt. rewrite Hlt. reflexivity.
  - change (-52 ?= -52) with Eq. cbv iota.
    destruct (Pos.compare_cont Eq p 4503599627370496) eqn:Hcmp.
    + apply Pos.compare_eq in Hcmp. subst p. reflexivity.
    + reflexivity.
    + exfalso. apply Pos.compare_gt_iff in Hcmp.
      assert (Hp : Zpos p <= Zpos 4503599627370496) by exact Hle.
      lia.
Qed.

(** More distance, less similarity. *)
Lemma similarity_of_units_antitone (W1 W2 : Z) :
  0 <= W1 <= W2 ->
  PyFloat.leb (similarity_of_units W2) (similarity_of_units W1) = true.
Proof.
  intros HW. pose proof (raw_units_antitone W1 W2 HW) as HU.
  pose proof (raw_units_le W1) as H1. pose proof (raw_units_le W2) as H2.
  unfold similarity_of_units.
  destruct (Z.le_gt_cases (raw_units W2) 0) as [Hneg|Hpos].
  - rewrite (clamp_signed_round_nonpos _ Hneg).
    apply (clamp_unit (signed_round (raw_units W1))).
  - rewrite !clamp_signed_round_pos by lia.
    apply key_float_le.
    + apply rn_key_canon; [unfold emin; lia | lia].
    + apply rn_key_canon; [unfold emin; lia | lia].
    + apply rn_key_mono; [unfold emin; lia | lia].
Qed.

Lemma similarity_nonneg (d s : PyFloat.float) :
  similarity d = Ok s -> PyFloat.leb PyFloat.zero s = true.
Proof.
  unfold similarity. destruct (py_float_pow2 d) as [sq|]; [|discriminate].
  intros H. injection H as <-. apply (clamp_unit (raw_similarity sq)).
Qed.

(** Ascending non-negative valid distances have descending
    similarities. *)
Lemma similarity_antitone (d1 d2 s1 s2 : PyFloat.float) :
  valid_binary PyFloat.prec PyFloat.emax d1 = true ->
  valid_binary PyFloat.prec PyFloat.emax d2 = true ->
  PyFloat.leb PyFloat.zero d1 = true ->
  PyFloat.leb d1 d2 = true ->
  similarity d1 = Ok s1 -> similarity d2 = Ok s2 ->
  PyFloat.leb s2 s1 = true.
Proof.
  intros Hv1 Hv2 H0 H12 Hs1 Hs2.
  pose proof (similarity_nonneg d1 s1 Hs1) as Hb1.
  destruct d2 as [b2|b2| |b2 m2 e2].
  - (* d2 is a zero: so is d1 *)
    destruct d1 as [b1|b1| |b1 m1 e1]; try discriminate.
    + destruct b1, b2; vm_compute in Hs1, Hs2; injection Hs1 as <-;
        injection Hs2 as <-; reflexivity.
    + destruct b1; discriminate.
    + destruct b1; discriminate.
  - (* d2 is infinite *)
    destruct b2.
    + destruct d1 as [b1|b1| |b1 m1 e1]; try discriminate;
        destruct b1; discriminate.
    + vm_compute in Hs2. injection Hs2 as <-. exact Hb1.
  - destruct d1 as [b1|b1| |b1 m1 e1]; discriminate.
  - (* d2 is finite *)
    destruct b2.
    + destruct d1 as [b1|b1| |b1 m1 e1]; try discriminate;
        destruct b1; discriminate.
    + destruct (valid_canon false m2 e2 Hv2) as [Hc2 _].
      rewrite (similarity_finite m2 e2 s2 Hc2 Hs2).
      destruct d1 as [b1|b1| |b1 m1 e1]; try discriminate.
      * (* d1 is a zero *)
        assert (Hone : s1 = similarity_of_units 0).
        { rewrite similarity_of_units_zero.
          destruct b1; vm_compute in Hs1; injection Hs1 as <-; reflexivity. }
        rewrite Hone. apply similarity_of_units_antitone.
        split; [lia|]. destruct Hc2 as [He2 _]. cbn [fst] in He2.
        apply Z.mul_nonneg_nonneg; [lia|]. apply Z.pow_nonneg. lia.
      * destruct b1; discriminate.
      * destruct b1; [discriminate|].
        destruct (valid_canon false m1 e1 Hv1) as [Hc1 _].
        rewrite (similarity_finite m1 e1 s1 Hc1 Hs1).
        apply similarity_of_units_antitone.
        split.
        -- destruct Hc1 as [He1 _]. cbn [fst] in He1.
           apply Z.mul_nonneg_nonneg; [lia|]. apply Z.pow_nonneg. lia.
        -- apply (canon_lex_val (e1, Zpos m1) (e2, Zpos m2) Hc1 Hc2).
           unfold lex_le. cbn [fst snd].
           unfold PyFloat.leb, SFleb in H12. cbn [SFcompare] in H12.
           destruct (Z.compare_spec e1 e2) as [Heq|Hlt|Hgt].
           ++ right. split; [exact Heq|].
              change (Pos.compare_cont Eq m1 m2) with (Pos.compare m1 m2)
                in H12.
              destruct (Pos.compare_spec m1 m2); try discriminate; lia.
           ++ left. exact Hlt.
           ++ discriminate.
Qed.
End Antitone.

(** ** The value of a similarity *)

Section SimilarityValue.
Import Round.

(** What the reference rounding is: [rn_key E0 V] names a value
    [m * 2^e] that lies within half a unit of its last place of
    [V * 2^E0]. *)
Lemma rn_key_nearest (E0 V : Z) :
  E0 < emin -> 0 <= V ->
  2 * Z.abs (V - snd (rn_key E0 V) * 2 ^ (fst (rn_key E0 V) - E0))
  <= 2 ^ (fst (rn_key E0 V) - E0).
Proof.
  intros HE HV.
  destruct (rn_shift_bounds E0 V HE HV) as [Hk1 _].
  unfold rn_key, rn_up.
  set (k := rn_shift E0 V) in *. cbv zeta.
  assert (HP : 0 < 2 ^ k) by (apply Z.pow_pos_nonneg; lia).
  assert (Hh : 2 ^ k = 2 * 2 ^ (k - 1)).
  { replace k with (k - 1 + 1) at 1 by lia.
    rewrite Z.pow_add_r by lia. change (2 ^ 1) with 2. lia. }
  pose proof (Z.div_mod V (2 ^ k) ltac:(lia)) as Hdm.
  pose proof (Z.mod_pos_bound V (2 ^ k) HP) as Hr.
  set (q := V / 2 ^ k) in *. set (r := V mod 2 ^ k) in *.
  set (h := 2 ^ (k - 1)) in *.
  assert (Hm : exists m, q + (if (h <? r) || (r =? h) && Z.odd q
                              then 1 else 0) = m /\
                         2 * Z.abs (V - m * 2 ^ k) <= 2 ^ k).
  { destruct (Z.ltb_spec h r) as [Hlt|Hge]; cbn [orb].
    - eexists. split; [reflexivity|]. set (P := 2 ^ k) in *. nia.
    - destruct (Z.eqb_spec r h) as [Heq|Hne]; cbn [andb].
      + destruct (Z.odd q); eexists; (split; [reflexivity|]);
          set (P := 2 ^ k) in *; nia.
      + eexists. split; [reflexivity|]. set (P := 2 ^ k) in *. nia. }
  destruct Hm as (m & -> & Hbound).
  destruct (Z.eqb_spec m (2 ^ 53)) as [Heq|Hne]; cbn [fst snd].
  - replace (E0 + k + 1 - E0) with (k + 1) by lia.
    rewrite Z.pow_add_r by lia. change (2 ^ 1) with 2.
    subst m. change (2 ^ 53) with (2 ^ 52 * 2) in Hbound.
    set (P := 2 ^ k) in *. set (B := 2 ^ 52) in *. nia.
  - replace (E0 + k - E0) with k by lia. exact Hbound.
Qed.

(** The similarity of a finite distance of either sign, in terms of the
    reference rounding. *)
Lemma similarity_value (sign : bool) (m : positive) (e : Z)
    (s : PyFloat.float) :
  valid_binary PyFloat.prec PyFloat.emax (S754_finite sign m e) = true ->
  similarity (S754_finite sign m e) = Ok s ->
  s = similarity_of_units (Zpos m * 2 ^ (e - emin)).
Proof.
  intros Hv Hs.
  destruct (valid_canon sign m e Hv) as [Hc _].
  change (similarity (S754_finite sign m e))
    with (similarity (S754_finite false m e)) in Hs.
  exact (similarity_finite m e s Hc Hs).
Qed.
End SimilarityValue.

(** C3 (similarity bounds). Whenever [retrieve] gets a similarity out of a
    distance [d], that similarity lies in [[0.0, 1.0]] and, unless
    [1 - d**2 / 2] is NaN (which takes a NaN distance), it is
    [clamp(1 - d**2 / 2, 0.0, 1.0)]; the distance [0.0] (of either sign)
    gives exactly [1.0]; the only way to get no similarity is the
    [OverflowError] of [d ** 2] on a finite [d]. The value is fixed
    without reference to the float operations of the code: for a finite
    [d] worth [W] units of [2^-1074] it is the clamp to [[0.0, 1.0]] of
    the float nearest to [1 - h], [h] being the float nearest to half of
    the float nearest to [W * W] units of [2^-2148]; so
    [0.5 -> 0.875], [1.0 -> 0.5] and [1.5 -> 0.0], [2.0 -> 0.0]. *)
Theorem similarity_bounds :
  (forall d s : PyFloat.float,
     similarity d = Ok s ->
     PyFloat.leb PyFloat.zero s = true /\
     PyFloat.leb s PyFloat.one = true /\
     exists sq : PyFloat.float,
       py_float_pow2 d = Ok sq /\
       (PyFloat.is_nan (raw_similarity sq) = false ->
        s = clamp (raw_similarity sq) PyFloat.zero PyFloat.one)) /\
  (forall sign : bool, similarity (S754_zero sign) = Ok PyFloat.one) /\
  (forall (d : PyFloat.float) (e : exn),
     similarity d = Raise e ->
     e = OverflowError /\
     exists sign m ex, d = S754_finite sign m ex /\
       PyFloat.mul (SFabs d) (SFabs d) = S754_infinity false) /\
  (forall (sign : bool) (m : positive) (e : Z) (s : PyFloat.float),
     valid_binary PyFloat.prec PyFloat.emax (S754_finite sign m e) = true ->
     similarity (S754_finite sign m e) = Ok s ->
     s = PyFloat.py_max PyFloat.zero
           (PyFloat.py_min PyFloat.one
              (Round.signed_round
                 (2 ^ 1075
                  - 2 * Round.key_val
                          (Round.rn_key (-1075)
                             (Round.key_val
                                (Round.rn_key (-2148)
                                   ((Zpos m * 2 ^ (e - Round.emin))
                                    * (Zpos m * 2 ^ (e - Round.emin)))))))))) /\
  similarity (S754_finite false 4503599627370496 (-53))
  = Ok (S754_finite false 7881299347898368 (-53)) /\
  similarity PyFloat.one = Ok (S754_finite false 4503599627370496 (-53)) /\
  similarity (S754_finite false 6755399441055744 (-52)) = Ok PyFloat.zero /\
  similarity PyFloat.two = Ok PyFloat.zero.
Proof.
  split; [|split; [|split; [|split; [|split; [|split; [|split]]]]]].
  - intros d s Hs. unfold similarity in Hs.
    destruct (py_float_pow2 d) as [sq|e]; [|discriminate].
    injection Hs as <-.
    destruct (clamp_unit (raw_similarity sq)) as [H0 [H1 Hc]].
    split; [exact H0|]. split; [exact H1|].
    exists sq. split; [reflexivity | exact Hc].
  - intros [|]; reflexivity.
  - intros d e He. unfold similarity in He.
    destruct (py_float_pow2 d) as [sq|e'] eqn:Hsq; [discriminate|].
    injection He as <-.
    destruct d as [sd|sd| |sd md ed]; try discriminate.
    unfold py_float_pow2 in Hsq.
    destruct (PyFloat.mul (SFabs (S754_finite sd md ed))
                          (SFabs (S754_finite sd md ed)))
      as [sz|sz| |sz mz ez] eqn:Hmul; try discriminate.
    injection Hsq as <-. split; [reflexivity|].
    exists sd, md, ed. split; [reflexivity|].
    cbn [SFabs] in Hmul. unfold PyFloat.mul in Hmul. cbn [SFmul xorb] in Hmul.
    unfold binary_round_aux in Hmul.
    destruct (shr_fexp _ _ _ _ _) as [mrs' e'] in Hmul.
    destruct (shr_fexp _ _ _ _ _) as [mrs'' e''] in Hmul.
    destruct (shr_m mrs''); try discriminate.
    destruct (e'' <=? PyFloat.emax - PyFloat.prec); try discriminate.
    symmetry. exact Hmul.
  - intros sign m e s Hv Hs.
    exact (similarity_value sign m e s Hv Hs).
  - vm_compute. reflexivity.
  - vm_compute. reflexivity.
  - vm_compute. reflexivity.
  - vm_compute. reflexivity.
Qed.

Lemma similarity_bounds_witness :
  S754_finite false 7881299347898368 (-53)
  = PyFloat.py_max PyFloat.zero
      (PyFloat.py_min PyFloat.one
         (Round.signed_round
            (2 ^ 1075
             - 2 * Round.key_val
                     (Round.rn_key (-1075)
                        (Round.key_val
                           (Round.rn_key (-2148)
                              ((Zpos 4503599627370496 * 2 ^ (-53 - Round.emin))
                               * (Zpos 4503599627370496
                                  * 2 ^ (-53 - Round.emin))))))))).
Proof.
  apply (proj1 (proj2 (proj2 (proj2 similarity_bounds)))
           false 4503599627370496%positive (-53)).
  - reflexivity.
  - vm_compute. reflexivity.
Defined.

(** ** The order of the results *)

Lemma retrieve_items_inv (vector : Type)
    (items : list (str * metadata * PyFloat.float)) :
  forall (s s' : state vector) (l : list (CodeDocument * PyFloat.float)),
    map_M retrieve_item items s = (Ok l, s') ->
    Forall2 (fun it r =>
               fst r = mkCodeDocument (fst (fst it))
                         (md_file_path (snd (fst it)))
                         (md_language (snd (fst it)))
                         (md_chunk_id (snd (fst it))) /\
               similarity (snd it) = Ok (snd r)) items l.
Proof.
  induction items as [|[[text meta] dist] items IH]; intros s s' l H.
  - cbn in H. injection H as <- _. constructor.
  - cbn [map_M] in H. unfold bind at 1 in H.
    unfold retrieve_item at 1 in H. unfold bind at 1 in H.
    unfold lift at 1 in H.
    destruct (similarity dist) as [sim|e] eqn:Hsim; [|discriminate].
    unfold ret at 1 in H. unfold bind at 1 in H.
    destruct (map_M retrieve_item items s) as [[l'|e] s''] eqn:Hrest;
      [|discriminate].
    unfold ret in H. injection H as <- _.
    constructor; [split; [reflexivity | exact Hsim]|].
    apply (IH s s'' l' Hrest).
Qed.

Lemma zip3_sorted {A B C : Type} (R : C -> C -> Prop)
    (la : list A) (lb : list B) (lc : list C) :
  StronglySorted R lc ->
  StronglySorted (fun x y : A * B * C => R (snd x) (snd y)) (zip3 la lb lc).
Proof.
  intros H. revert la lb.
  induction H as [|c lc _ IH Hc]; intros la lb.
  - destruct la, lb; constructor.
  - destruct la as [|a la], lb as [|b lb]; try constructor.
    + apply IH.
    + apply (zip3_distances_forall (R c) la lb lc Hc).
Qed.

(** The conversion loop turns ascending distances into descending
    similarities. *)
Lemma similarities_sorted
    (items : list (str * metadata * PyFloat.float))
    (l : list (CodeDocument * PyFloat.float)) :
  Forall2 (fun it r => similarity (snd it) = Ok (snd r)) items l ->
  Forall (fun it => valid_distance (snd it)) items ->
  StronglySorted (fun x y => PyFloat.leb (snd x) (snd y) = true) items ->
  StronglySorted (fun a b => PyFloat.leb b a = true) (List.map snd l).
Proof.
  induction 1 as [|it r items l Hr Hrest IH]; intros Hvalid Hsorted.
  - constructor.
  - inversion Hvalid as [|? ? [Hv H0] Hvalid']; subst.
    inversion Hsorted as [|? ? Hsorted' Hfirst]; subst.
    cbn [List.map]. constructor.
    + apply IH; assumption.
    + clear IH Hsorted Hsorted' Hvalid.
      induction Hrest as [|it' r' items l Hr' Hrest IH'].
      * constructor.
      * inversion Hvalid' as [|? ? [Hv' _] Hvalid'']; subst.
        inversion Hfirst as [|? ? Hle Hfirst']; subst.
        cbn [List.map]. constructor.
        -- apply (similarity_antitone (snd it) (snd it') (snd r) (snd r')
                    Hv Hv' H0 Hle Hr Hr').
        -- apply IH'; assumption.
Qed.

(** C6 (retrieval ordering). When the index answers a query with valid
    distances in ascending order, the pairs [retrieve] returns are the
    index's entries in the index's order (entry [i] gives pair [i]: its
    text and metadata as the chunk, the similarity of its distance), and
    their similarity scores are in descending order. *)
Theorem retrieve_ordering (vector : Type)
    (ollama : str -> post_result vector)
    (knn : list (row vector) -> vector -> Z -> option QueryResult)
    (query name : str) (top_k : option Z) (v : vector)
    (s s' : state vector) (results : QueryResult)
    (l : list (CodeDocument * PyFloat.float)) :
  collection s = Some name ->
  ollama query = Status200 v ->
  knn (rows_of (db s) name) v
      (Z.min (top_k_or_default top_k)
             (Z.of_nat (length (rows_of (db s) name)))) = Some results ->
  Forall valid_distance (res_distances results) ->
  StronglySorted (fun d1 d2 => PyFloat.leb d1 d2 = true)
                 (res_distances results) ->
  retrieve ollama knn query top_k s = (Ok l, s') ->
  Forall2 (fun it r =>
             fst r = mkCodeDocument (fst (fst it))
                       (md_file_path (snd (fst it)))
                       (md_language (snd (fst it)))
                       (md_chunk_id (snd (fst it))) /\
             similarity (snd it) = Ok (snd r))
          (zip3 (res_documents results) (res_metadatas results)
                (res_distances results)) l /\
  StronglySorted (fun a b => PyFloat.leb b a = true) (List.map snd l).
Proof.
  intros Hcol Hemb Hknn Hvalid Hsorted Hret.
  rewrite (retrieve_attached vector ollama knn query top_k name v s
             Hcol Hemb) in Hret.
  cbv zeta in Hret. rewrite Hknn in Hret.
  pose proof (retrieve_items_inv vector _ _ _ _ Hret) as Hall.
  split; [exact Hall|].
  apply (similarities_sorted
           (zip3 (res_documents results) (res_metadatas results)
                 (res_distances results)) l).
  - clear -Hall. induction Hall as [|? ? ? ? [_ H] _ IH]; constructor;
      assumption.
  - apply (zip3_distances_forall valid_distance
             (res_documents results) (res_metadatas results)
             (res_distances results) Hvalid).
  - apply (zip3_sorted (fun d1 d2 => PyFloat.leb d1 d2 = true)
             (res_documents results) (res_metadatas results)
             (res_distances results) Hsorted).
Qed.

Lemma retrieve_ordering_witness :
  let name := lit "repo_demo" in
  let md := mkMetadata (lit "a.py") (lit "python") in
  let rows := [mkRow (lit "doc_0") (lit "x = 1") (md 0) 5%nat;
               mkRow (lit "doc_1") (lit "y = 2") (md 1) 5%nat;
               mkRow (lit "doc_2") (lit "z = 3") (md 2) 5%nat] in
  let s := mkState true (Some name) [] (<[name := rows]> ∅) [] in
  let half := S754_finite false 4503599627370496 (-53) in
  let l := [(mkCodeDocument (lit "x = 1") (lit "a.py") (lit "python") 0,
             PyFloat.one);
            (mkCodeDocument (lit "y = 2") (lit "a.py") (lit "python") 1,
             half);
            (mkCodeDocument (lit "z = 3") (lit "a.py") (lit "python") 2,
             PyFloat.zero)] in
  Forall2 (fun it r =>
             fst r = mkCodeDocument (fst (fst it))
                       (md_file_path (snd (fst it)))
                       (md_language (snd (fst it)))
                       (md_chunk_id (snd (fst it))) /\
             similarity (snd it) = Ok (snd r))
          (zip3 (List.map row_document rows) (List.map row_metadata rows)
                [PyFloat.zero; PyFloat.one; PyFloat.two]) l /\
  StronglySorted (fun a b => PyFloat.leb b a = true) (List.map snd l).
Proof.
  intros name md rows s half l.
  apply (retrieve_ordering nat length_embedder ranked_knn
           (lit "what is x") name None 9%nat s
           (mkState true (Some name) [] (<[name := rows]> ∅)
              [EvEmbed (lit "what is x"); EvQuery name 9%nat 3])
           (mkQueryResult (List.map row_document rows)
                          (List.map row_metadata rows)
                          [PyFloat.zero; PyFloat.one; PyFloat.two])).
  - reflexivity.
  - reflexivity.
  - vm_compute. reflexivity.
  - cbn [res_distances].
    repeat (constructor; [split; reflexivity|]). constructor.
  - cbn [res_distances].
    repeat (apply SSorted_cons;
            [|repeat (constructor; [reflexivity|]); constructor]).
    apply SSorted_nil.
  - vm_compute. reflexivity.
Defined.

(** ** More on [retrieve] *)

(** [retrieve] on a retriever that has no collection attached raises
    [ValueError("Collection not initialized")] at once: no embedding is
    requested, the index is not queried, the state is unchanged. *)
Theorem retrieve_unattached (vector : Type)
    (ollama : str -> post_result vector)
    (knn : list (row vector) -> vector -> Z -> option QueryResult)
    (query : str) (top_k : option Z) (s : state vector) :
  collection s = None ->
  retrieve ollama knn query top_k s
  = (Raise (ValueError "Collection not initialized"), s).
Proof.
  intros Hcol. unfold retrieve, bind, get. rewrite Hcol. reflexivity.
Qed.

Lemma retrieve_unattached_witness :
  retrieve length_embedder first_rows_knn (lit "what is x") (Some 3)
           (RAGRetriever_init ∅)
  = (Raise (ValueError "Collection not initialized"), RAGRetriever_init ∅).
Proof.
  apply (retrieve_unattached nat length_embedder first_rows_knn
           (lit "what is x") (Some 3) (RAGRetriever_init ∅)).
  reflexivity.
Defined.

Section SimilarityTotal.
Import Round.

Lemma sq_key_max_safe :
  sq_key (float_val max_safe_distance) = (970, 2 ^ 52).
Proof. vm_compute. reflexivity. Qed.

(** A valid distance up to [2.0 ** 511] has a similarity. *)
Lemma similarity_total (d : PyFloat.float) :
  valid_distance d ->
  PyFloat.leb d max_safe_distance = true ->
  exists s : PyFloat.float, similarity d = Ok s.
Proof.
  intros [Hv H0] Hle.
  destruct d as [b|b| |b m e]; try discriminate.
  - exists PyFloat.one. destruct b; reflexivity.
  - destruct b; discriminate.
  - destruct b; [discriminate|].
    destruct (valid_canon false m e Hv) as [Hc _].
    unfold similarity, py_float_pow2. cbn [SFabs].
    rewrite (square_correct m e Hc).
    set (W := Zpos m * 2 ^ (e - emin)).
    assert (HW0 : 0 <= W).
    { unfold W. destruct Hc as [He _]. cbn [fst] in He.
      apply Z.mul_nonneg_nonneg; [lia|]. apply Z.pow_nonneg. lia. }
    assert (HW : W <= float_val max_safe_distance).
    { apply (canon_lex_val (e, Zpos m) (459, 2 ^ 52) Hc).
      - unfold canon, emin. cbn [fst snd].
        change (2 ^ 52) with 4503599627370496.
        change (2 ^ 53) with 9007199254740992. lia.
      - unfold lex_le. cbn [fst snd].
        unfold PyFloat.leb, SFleb, max_safe_distance in Hle.
        cbn [SFcompare] in Hle.
        destruct (Z.compare_spec e 459) as [Heq|Hlt|Hgt].
        + right. split; [exact Heq|].
          destruct (Pos.compare_cont Eq m 4503599627370496) eqn:Hcmp;
            try discriminate.
          * apply Pos.compare_eq in Hcmp. subst m. reflexivity.
          * assert (Hlt : (m < 4503599627370496)%positive) by exact Hcmp.
            change (2 ^ 52) with (Zpos 4503599627370496).
            apply Pos2Z.pos_le_pos, Pos.lt_le_incl. exact Hlt.
        + left. exact Hlt.
        + discriminate. }
    assert (Hlex : lex_le (sq_key W) (970, 2 ^ 52)).
    { rewrite <- sq_key_max_safe. unfold sq_key.
      apply rn_key_mono; [unfold emin; lia|].
      set (W0 := float_val max_safe_distance) in *. nia. }
    destruct (sq_key W) as [es ms].
    unfold lex_le in Hlex. cbn [fst snd] in Hlex.
    unfold key_float. cbn [fst snd].
    destruct ms as [|p|p]; try (eexists; reflexivity).
    destruct (Z.leb_spec es 971); [eexists; reflexivity | lia].
Qed.
End SimilarityTotal.

(** [retrieve] returns: on an attached collection, with a query the
    embedding service answers and an index answer whose distances are
    valid and at most [2.0 ** 511], [retrieve] returns normally, with one
    pair per entry of the answer, and leaves the store as it was. *)
Theorem retrieve_returns (vector : Type)
    (ollama : str -> post_result vector)
    (knn : list (row vector) -> vector -> Z -> option QueryResult)
    (query name : str) (top_k : option Z) (v : vector)
    (s : state vector) (results : QueryResult) :
  collection s = Some name ->
  ollama query = Status200 v ->
  knn (rows_of (db s) name) v
      (Z.min (top_k_or_default top_k)
             (Z.of_nat (length (rows_of (db s) name)))) = Some results ->
  Forall (fun d => valid_distance d /\
                   PyFloat.leb d max_safe_distance = true)
         (res_distances results) ->
  exists (l : list (CodeDocument * PyFloat.float)) (s' : state vector),
    retrieve ollama knn query top_k s = (Ok l, s') /\
    length l = length (zip3 (res_documents results) (res_metadatas results)
                            (res_distances results)) /\
    db s' = db s.
Proof.
  intros Hcol Hemb Hknn Hvalid.
  rewrite (retrieve_attached vector ollama knn query top_k name v s
             Hcol Hemb).
  cbv zeta. rewrite Hknn.
  assert (Hok : Forall (fun d => exists sim, similarity d = Ok sim)
                       (res_distances results)).
  { clear -Hvalid. induction Hvalid as [|d ds [Hv Hle] _ IH];
      constructor; [|exact IH]. apply similarity_total; assumption. }
  pose proof (zip3_distances_forall
                (fun d => exists sim, similarity d = Ok sim)
                (res_documents results) (res_metadatas results)
                (res_distances results) Hok) as Hitems.
  match goal with
  | |- context [map_M retrieve_item ?items ?s0] =>
      destruct (retrieve_items_ok vector items Hitems s0) as [l [Hl Hall]]
  end.
  exists l. eexists. split; [exact Hl|]. split.
  - symmetry. apply (Forall2_length _ _ _ Hall).
  - reflexivity.
Qed.

Lemma retrieve_returns_witness :
  let name := lit "repo_demo" in
  let md := mkMetadata (lit "a.py") (lit "python") in
  let rows := [mkRow (lit "doc_0") (lit "x = 1") (md 0) 5%nat;
               mkRow (lit "doc_1") (lit "y = 2") (md 1) 5%nat] in
  let s := mkState true (Some name) [] (<[name := rows]> ∅) [] in
  exists (l : list (CodeDocument * PyFloat.float)) (s' : state nat),
    retrieve length_embedder ranked_knn (lit "what is x") (Some 7) s
    = (Ok l, s') /\
    length l = 2%nat /\
    db s' = db s.
Proof.
  intros name md rows s.
  apply (retrieve_returns nat length_embedder ranked_knn
           (lit "what is x") name (Some 7) 9%nat s
           (mkQueryResult (List.map row_document rows)
                          (List.map row_metadata rows)
                          [PyFloat.zero; PyFloat.one])).
  - reflexivity.
  - reflexivity.
  - vm_compute. reflexivity.
  - cbn [res_distances].
    repeat (constructor; [split; [split|]; reflexivity|]). constructor.
Defined.

(** A valid distance of [2.0] or more (infinity included) has the
    similarity [0.0] exactly. *)
Theorem similarity_far (d s : PyFloat.float) :
  valid_binary PyFloat.prec PyFloat.emax d = true ->
  PyFloat.leb PyFloat.two d = true ->
  similarity d = Ok s ->
  s = PyFloat.zero.
Proof.
  intros Hv Hle Hs.
  assert (Htwo : similarity PyFloat.two = Ok PyFloat.zero)
    by (vm_compute; reflexivity).
  pose proof (similarity_antitone PyFloat.two d PyFloat.zero s
                eq_refl Hv eq_refl Hle Htwo Hs) as Hs0.
  unfold similarity in Hs.
  destruct (py_float_pow2 d) as [sq|]; [|discriminate].
  injection Hs as <-.
  set (y := PyFloat.py_min PyFloat.one (raw_similarity sq)) in *.
  unfold PyFloat.py_max in *.
  destruct (PyFloat.ltb PyFloat.zero y) eqn:Hlt; [|reflexivity].
  exfalso.
  destruct y as [b|b| |b m e]; try discriminate.
  - destruct b; discriminate.
  - destruct b; discriminate.
Qed.

Lemma similarity_far_witness :
  PyFloat.py_max PyFloat.zero
    (PyFloat.py_min PyFloat.one
       (raw_similarity (S754_finite false 4503599627370496 (-48))))
  = PyFloat.zero.
Proof.
  apply (similarity_far (S754_finite false 4503599627370496 (-50))).
  - reflexivity.
  - reflexivity.
  - vm_compute. reflexivity.
Defined.

(** ** More on the chunker *)

Section ChunkerShape.
Variable self : CodeParser.

(** With an overlap that is not below the chunk size the loop makes no
    progress: [start] never gets above 0. *)
Lemma chunk_loop_stuck (tokens : list token) (file_path language : str) :
  0 < chunk_size self <= chunk_overlap self ->
  chunk_size self < Z.of_nat (length tokens) ->
  forall (fuel : nat) (start chunk_id : Z),
    start <= 0 ->
    chunk_loop self fuel tokens file_path language start chunk_id = None.
Proof.
  intros Hbad Hlong.
  induction fuel as [|fuel IH]; intros start chunk_id Hstart.
  - reflexivity.
  - cbn [chunk_loop].
    destruct (Z.ltb_spec start (Z.of_nat (length tokens))); [|lia].
    destruct (Z.geb_spec (start + chunk_size self - chunk_overlap self)
                (Z.of_nat (length tokens) - chunk_overlap self)); [lia|].
    rewrite IH by lia. reflexivity.
Qed.

(** Every chunk carries the path and the language it was given. *)
Lemma chunk_loop_labels (tokens : list token) (path lang : str) :
  forall (fuel : nat) (start chunk_id : Z) (chunks : list CodeDocument),
    chunk_loop self fuel tokens path lang start chunk_id
    = Some chunks ->
    Forall (fun d => file_path d = path /\
                     language d = lang) chunks.
Proof.
  induction fuel as [|fuel IH]; intros start chunk_id chunks Hrun.
  - discriminate.
  - cbn [chunk_loop] in Hrun.
    destruct (start <? Z.of_nat (length tokens)).
    + destruct (start + chunk_size self - chunk_overlap self
                >=? Z.of_nat (length tokens) - chunk_overlap self).
      * injection Hrun as <-. repeat constructor.
      * destruct (chunk_loop self fuel tokens path lang
                    (start + chunk_size self - chunk_overlap self)
                    (chunk_id + 1)) as [rest|] eqn:Hrest; [|discriminate].
        injection Hrun as <-. constructor.
        -- split; reflexivity.
        -- apply (IH _ _ _ Hrest).
    + injection Hrun as <-. constructor.
Qed.

Lemma chunk_text_labels (fuel : nat) (text path lang : str)
    (chunks : list CodeDocument) :
  chunk_text self fuel text path lang = Some chunks ->
  Forall (fun d => file_path d = path /\ language d = lang) chunks.
Proof.
  unfold chunk_text.
  destruct (Z.of_nat (length (encode self text)) <=? chunk_size self).
  - intros H. injection H as <-. repeat constructor.
  - apply chunk_loop_labels.
Qed.

Hypothesis overlap_ok : 0 <= chunk_overlap self < chunk_size self.

Lemma window_start_mono (i j : nat) :
  (i <= j)%nat -> window_start self i <= window_start self j.
Proof. intros Hij. unfold window_start. nia. Qed.

(** The loop started at a window that begins before the last [overlap]
    tokens emits the windows [i .. i+k-1], where window [i+k-1] is the
    last one to begin before the last [overlap] tokens. *)
Lemma chunk_loop_shape (tokens : list token) (file_path language : str) :
  forall (fuel i : nat),
    window_start self i < Z.of_nat (length tokens) - chunk_overlap self ->
    (Z.to_nat (Z.of_nat (length tokens) - window_start self i) <= fuel)%nat ->
    exists k : nat,
      (0 < k)%nat /\
      chunk_loop self fuel tokens file_path language
                 (window_start self i) (Z.of_nat i)
      = Some (List.map (window_doc self tokens file_path language) (seq i k)) /\
      window_start self (i + k - 1)
      < Z.of_nat (length tokens) - chunk_overlap self
      <= window_start self (i + k).
Proof.
  induction fuel as [|fuel IH]; intros i Hlt Hfuel.
  - lia.
  - pose proof (window_start_nonneg self overlap_ok i) as Hnn.
    cbn [chunk_loop].
    destruct (Z.ltb_spec (window_start self i) (Z.of_nat (length tokens)));
      [|lia].
    destruct (Z.geb_spec
                (window_start self i + chunk_size self - chunk_overlap self)
                (Z.of_nat (length tokens) - chunk_overlap self)) as [Hbrk|Hgo].
    + exists 1%nat. cbn [seq List.map].
      replace (i + 1 - 1)%nat with i by lia.
      replace (i + 1)%nat with (S i) by lia.
      rewrite window_start_succ. repeat split; try lia.
    + destruct (IH (S i)) as (k & Hk & Hrun & Hlast & Hnext).
      * rewrite window_start_succ. lia.
      * rewrite window_start_succ. lia.
      * exists (S k). rewrite <- window_start_succ.
        replace (Z.of_nat i + 1) with (Z.of_nat (S i)) by lia.
        rewrite Hrun. cbn [seq List.map].
        replace (i + S k - 1)%nat with (S i + k - 1)%nat by lia.
        replace (i + S k)%nat with (S i + k)%nat by lia.
        repeat split; try lia.
Qed.

(** The size of window [j] of a token sequence. *)
Lemma window_at_length (tokens : list token) (j : nat) :
  window_start self j <= Z.of_nat (length tokens) ->
  Z.of_nat (length (window_at self tokens j))
  = Z.min (chunk_size self) (Z.of_nat (length tokens) - window_start self j).
Proof.
  intros Hin.
  pose proof (window_start_nonneg self overlap_ok j) as Hnn.
  unfold window_at, py_slice, slice_bound.
  destruct (Z.ltb_spec (window_start self j) 0); [lia|].
  destruct (Z.ltb_spec (window_start self j + chunk_size self) 0); [lia|].
  rewrite length_firstn, length_skipn. lia.
Qed.
End ChunkerShape.

(** With an overlap that is not below the (positive) chunk size,
    [chunk_text] does not finish on a text of more than [chunk_size]
    tokens: [start] stays at or below 0, so no number of iterations
    reaches the [break] or the exit of the loop. *)
Theorem chunk_text_no_progress (self : CodeParser) (fuel : nat)
    (text file_path language : str) :
  0 < chunk_size self <= chunk_overlap self ->
  chunk_size self < Z.of_nat (length (encode self text)) ->
  chunk_text self fuel text file_path language = None.
Proof.
  intros Hbad Hlong. unfold chunk_text.
  destruct (Z.leb_spec (Z.of_nat (length (encode self text)))
                       (chunk_size self)); [lia|].
  apply chunk_loop_stuck; [exact Hbad | exact Hlong | lia].
Qed.

Lemma chunk_text_no_progress_witness :
  chunk_text (char_parser 2 2) 1000 (lit "abc") (lit "a.py") (lit "python")
  = None.
Proof.
  apply chunk_text_no_progress.
  - cbn [char_parser chunk_size chunk_overlap]. lia.
  - vm_compute. reflexivity.
Defined.

(** The number and the sizes of the chunks. For [n > chunk_size] tokens
    and [0 <= overlap < chunk_size], [chunk_text] returns
    [ceil((n - overlap) / (chunk_size - overlap))] chunks (at least two);
    every chunk but the last is cut from exactly [chunk_size] tokens, and
    the last from more than [overlap] and at most [chunk_size] tokens. *)
Theorem chunk_text_sizes (self : CodeParser) (fuel : nat)
    (text file_path language : str) :
  0 <= chunk_overlap self < chunk_size self ->
  chunk_size self < Z.of_nat (length (encode self text)) ->
  (length (encode self text) <= fuel)%nat ->
  let tokens := encode self text in
  let n := Z.of_nat (length tokens) in
  let step := chunk_size self - chunk_overlap self in
  exists k : nat,
    chunk_text self fuel text file_path language
    = Some (List.map (window_doc self tokens file_path language) (seq 0 k)) /\
    Z.of_nat k = (n - chunk_overlap self + step - 1) / step /\
    (2 <= k)%nat /\
    (forall j : nat, (S j < k)%nat ->
       Z.of_nat (length (window_at self tokens j)) = chunk_size self) /\
    chunk_overlap self
    < Z.of_nat (length (window_at self tokens (k - 1)))
    <= chunk_size self.
Proof.
  intros Hov Hlong Hfuel tokens n step.
  unfold chunk_text. fold tokens. fold n.
  destruct (Z.leb_spec n (chunk_size self)); [unfold n, tokens in *; lia|].
  destruct (chunk_loop_shape self Hov tokens file_path language fuel 0)
    as (k & Hk & Hrun & Hlast & Hnext).
  - unfold window_start. fold n. lia.
  - unfold window_start. fold n. unfold n, tokens. lia.
  - fold n in Hlast, Hnext.
    change (window_start self 0) with 0 in Hrun.
    cbn [Nat.add] in Hlast, Hnext.
    assert (Hstep : 0 < step) by (unfold step; lia).
    assert (Hk1 : window_start self (k - 1) = (Z.of_nat k - 1) * step).
    { unfold window_start. fold step. f_equal. lia. }
    assert (Hk0 : window_start self k = Z.of_nat k * step).
    { reflexivity. }
    exists k. split; [exact Hrun|]. split; [|split; [|split]].
    + apply (Z.div_unique_pos _ _ _
             (n - chunk_overlap self + step - 1 - Z.of_nat k * step)); lia.
    + destruct k as [|[|k]]; try lia.
    + intros j Hj.
      pose proof (window_start_mono self Hov (S j) (k - 1) ltac:(lia)) as Hm.
      rewrite (window_start_succ self) in Hm.
      rewrite window_at_length by (fold n; lia). fold n. lia.
    + rewrite window_at_length by (fold n; lia). fold n. lia.
Qed.

Lemma chunk_text_sizes_witness :
  let self := char_parser 4 1 in
  let tokens := lit "abcdefgh" in
  exists k : nat,
    chunk_text self 8 tokens (lit "b.py") (lit "python")
    = Some (List.map (window_doc self tokens (lit "b.py") (lit "python"))
                     (seq 0 k)) /\
    Z.of_nat k = (8 - 1 + 3 - 1) / 3 /\
    (2 <= k)%nat /\
    (forall j : nat, (S j < k)%nat ->
       Z.of_nat (length (window_at self tokens j)) = 4) /\
    1 < Z.of_nat (length (window_at self tokens (k - 1))) <= 4.
Proof.
  intros self tokens.
  apply (chunk_text_sizes self 8 tokens (lit "b.py") (lit "python")).
  - cbn [self char_parser chunk_size chunk_overlap]. lia.
  - vm_compute. reflexivity.
  - vm_compute. lia.
Defined.

(** Consecutive chunks share exactly [overlap] tokens: what window [j]
    holds after its first [chunk_size - overlap] tokens is what window
    [j + 1] begins with. *)
Theorem chunk_text_overlap (self : CodeParser) (fuel : nat)
    (text file_path language : str) :
  0 <= chunk_overlap self < chunk_size self ->
  chunk_size self < Z.of_nat (length (encode self text)) ->
  (length (encode self text) <= fuel)%nat ->
  let tokens := encode self text in
  let step := Z.to_nat (chunk_size self - chunk_overlap self) in
  exists k : nat,
    chunk_text self fuel text file_path language
    = Some (List.map (window_doc self tokens file_path language) (seq 0 k)) /\
    forall j : nat, (S j < k)%nat ->
      skipn step (window_at self tokens j)
      = firstn (Z.to_nat (chunk_overlap self))
               (window_at self tokens (S j)) /\
      length (skipn step (window_at self tokens j))
      = Z.to_nat (chunk_overlap self).
Proof.
  intros Hov Hlong Hfuel tokens step.
  unfold chunk_text. fold tokens.
  set (n := Z.of_nat (length tokens)).
  destruct (Z.leb_spec n (chunk_size self)); [unfold n, tokens in *; lia|].
  destruct (chunk_loop_shape self Hov tokens file_path language fuel 0)
    as (k & Hk & Hrun & Hlast & Hnext).
  - unfold window_start. fold n. lia.
  - unfold window_start. fold n. unfold n, tokens. lia.
  - fold n in Hlast, Hnext.
    change (window_start self 0) with 0 in Hrun.
    cbn [Nat.add] in Hlast.
    exists k. split; [exact Hrun|].
    intros j Hj.
    pose proof (window_start_mono self Hov (S j) (k - 1) ltac:(lia)) as Hm.
    pose proof (window_start_nonneg self Hov j) as Hnn.
    pose proof (window_start_succ self j) as Hs.
    assert (Hj1 : window_at self tokens j
                  = firstn (Z.to_nat (chunk_size self))
                           (skipn (Z.to_nat (window_start self j)) tokens)).
    { unfold window_at. rewrite py_slice_inside by (fold n; lia).
      f_equal. lia. }
    assert (Hj2 : firstn (Z.to_nat (chunk_overlap self))
                         (window_at self tokens (S j))
                  = firstn (Z.to_nat (chunk_overlap self))
                      (skipn (Z.to_nat (window_start self (S j))) tokens)).
    { unfold window_at, py_slice, slice_bound. fold n.
      destruct (Z.ltb_spec (window_start self (S j)) 0); [lia|].
      destruct (Z.ltb_spec (window_start self (S j) + chunk_size self) 0);
        [lia|].
      rewrite firstn_firstn. f_equal; [lia|]. f_equal. lia. }
    rewrite Hj2, Hj1, skipn_firstn_comm, skipn_skipn.
    replace (step + Z.to_nat (window_start self j))%nat
      with (Z.to_nat (window_start self (S j))) by (unfold step; lia).
    replace (Z.to_nat (chunk_size self) - step)%nat
      with (Z.to_nat (chunk_overlap self)) by (unfold step; lia).
    split; [reflexivity|].
    rewrite length_firstn, length_skipn. fold n in Hm. unfold n in *. lia.
Qed.

Lemma chunk_text_overlap_witness :
  let self := char_parser 4 1 in
  let tokens := lit "abcdefgh" in
  exists k : nat,
    chunk_text self 8 tokens (lit "b.py") (lit "python")
    = Some (List.map (window_doc self tokens (lit "b.py") (lit "python"))
                     (seq 0 k)) /\
    forall j : nat, (S j < k)%nat ->
      skipn 3 (window_at self tokens j)
      = firstn 1 (window_at self tokens (S j)) /\
      length (skipn 3 (window_at self tokens j)) = 1%nat.
Proof.
  intros self tokens.
  apply (chunk_text_overlap self 8 tokens (lit "b.py") (lit "python")).
  - cbn [self char_parser chunk_size chunk_overlap]. lia.
  - vm_compute. reflexivity.
  - vm_compute. lia.
Defined.

(** ** Parsing a repository *)

Section ParserProps.
Variable unicode_lower : str -> str.
Variable self : CodeParser.

Lemma parse_repository_app (fuel : nat) (files1 files2 : list ScannedFile) :
  parse_repository unicode_lower self fuel (files1 ++ files2)
  = match parse_repository unicode_lower self fuel files1,
          parse_repository unicode_lower self fuel files2 with
    | Some docs1, Some docs2 => Some (docs1 ++ docs2)
    | _, _ => None
    end.
Proof.
  induction files1 as [|f files1 IH]; cbn [app parse_repository].
  - destruct (parse_repository unicode_lower self fuel files2); reflexivity.
  - destruct (decide (file_content f = [])); [exact IH|].
    destruct (encode_raises self (file_content f)); [exact IH|].
    destruct (chunk_text self fuel (file_content f) (relative_path f)
                (get_language_from_extension unicode_lower f)) as [chunks|];
      [|reflexivity].
    rewrite IH.
    destruct (parse_repository unicode_lower self fuel files1);
      [|reflexivity].
    destruct (parse_repository unicode_lower self fuel files2);
      [|reflexivity].
    rewrite app_assoc. reflexivity.
Qed.
End ParserProps.

(** Where the documents of [parse_repository] come from: every document
    carries the relative path and the language of one of the scanned
    files, a file whose content is not empty and is accepted by the
    tokenizer. *)
Theorem parse_repository_provenance (unicode_lower : str -> str)
    (self : CodeParser) (fuel : nat) (files : list ScannedFile)
    (documents : list CodeDocument) :
  parse_repository unicode_lower self fuel files = Some documents ->
  Forall (fun d =>
            exists f : ScannedFile,
              In f files /\ file_content f <> [] /\
              encode_raises self (file_content f) = false /\
              file_path d = relative_path f /\
              language d = get_language_from_extension unicode_lower f)
         documents.
Proof.
  revert documents.
  induction files as [|f files IH]; intros documents Hrun;
    cbn [parse_repository] in Hrun.
  - injection Hrun as <-. constructor.
  - destruct (decide (file_content f = [])) as [Hempty|Hfull].
    + specialize (IH documents Hrun).
      eapply List.Forall_impl; [|exact IH].
      intros d (g & Hg & Hrest). exists g. split; [right; exact Hg|exact Hrest].
    + destruct (encode_raises self (file_content f)) eqn:Hraises.
      { specialize (IH documents Hrun).
        eapply List.Forall_impl; [|exact IH].
        intros d (g & Hg & Hrest). exists g.
        split; [right; exact Hg|exact Hrest]. }
      destruct (chunk_text self fuel (file_content f) (relative_path f)
                  (get_language_from_extension unicode_lower f))
        as [chunks|] eqn:Hchunks; [|discriminate].
      destruct (parse_repository unicode_lower self fuel files)
        as [rest|]; [|discriminate].
      injection Hrun as <-.
      apply List.Forall_app. split.
      * pose proof (chunk_text_labels self fuel _ _ _ _ Hchunks) as Hl.
        eapply List.Forall_impl; [|exact Hl].
        intros d [Hp Hlang]. exists f.
        split; [left; reflexivity|]. split; [exact Hfull|].
        split; [exact Hraises|]. split; assumption.
      * specialize (IH rest eq_refl).
        eapply List.Forall_impl; [|exact IH].
        intros d (g & Hg & Hrest). exists g.
        split; [right; exact Hg|exact Hrest].
Qed.

Lemma parse_repository_provenance_witness :
  let f := mkScannedFile (lit "src/a.py") (lit ".py") (lit "x = 1") in
  let g := mkScannedFile (lit "empty.md") (lit ".md") [] in
  let self := CodeParser_init (fun s => s) (fun t => t) (fun _ => false) in
  Forall (fun d =>
            exists h : ScannedFile,
              In h [g; f] /\ file_content h <> [] /\
              encode_raises self (file_content h) = false /\
              file_path d = relative_path h /\
              language d = get_language_from_extension latin1_lower h)
         [mkCodeDocument (lit "x = 1") (lit "src/a.py") (lit "python") 0].
Proof.
  intros f g self.
  apply (parse_repository_provenance latin1_lower self 0 [g; f]).
  vm_compute. reflexivity.
Defined.

(** A repository of small files: when the content of every file that
    the tokenizer accepts fits one chunk, [parse_repository] returns
    (whatever the fuel) one document per file with non-empty, accepted
    content, in scan order, holding the whole content under [chunk_id]
    0. *)
Theorem parse_repository_small_files (unicode_lower : str -> str)
    (self : CodeParser) (fuel : nat) (files : list ScannedFile) :
  Forall (fun f => encode_raises self (file_content f) = false ->
                   Z.of_nat (length (encode self (file_content f)))
                   <= chunk_size self) files ->
  parse_repository unicode_lower self fuel files
  = Some (List.map (whole_file_document unicode_lower)
                   (List.filter (is_parsed self) files)).
Proof.
  induction 1 as [|f files Hf _ IH]; cbn [parse_repository List.filter].
  - reflexivity.
  - unfold is_parsed at 1, has_content at 1.
    destruct (decide (file_content f = [])) as [Hempty|Hfull].
    + rewrite bool_decide_eq_true_2 by exact Hempty. cbn [negb andb].
      exact IH.
    + rewrite bool_decide_eq_false_2 by exact Hfull. cbn [negb andb].
      destruct (encode_raises self (file_content f)) eqn:Hraises;
        cbn [negb]; [exact IH|].
      cbn [List.map]. rewrite IH. unfold chunk_text.
      specialize (Hf eq_refl).
      destruct (Z.leb_spec
                  (Z.of_nat (length (encode self (file_content f))))
                  (chunk_size self)); [reflexivity|lia].
Qed.

Lemma parse_repository_small_files_witness :
  let f := mkScannedFile (lit "src/a.py") (lit ".PY") (lit "x = 1") in
  let g := mkScannedFile (lit "empty.md") (lit ".md") [] in
  let h := mkScannedFile (lit "Makefile") [] (lit "all:") in
  let t := mkScannedFile (lit "tok.txt") (lit ".txt")
                         (lit "a <|endoftext|> b") in
  parse_repository latin1_lower (special_token_parser 1000 200)
                   0 [f; g; t; h]
  = Some [mkCodeDocument (lit "x = 1") (lit "src/a.py") (lit "python") 0;
          mkCodeDocument (lit "all:") (lit "Makefile") (lit "text") 0].
Proof.
  intros f g h t.
  apply (parse_repository_small_files latin1_lower
           (special_token_parser 1000 200) 0 [f; g; t; h]).
  repeat constructor; vm_compute; intros; discriminate.
Defined.

(** [parse_repository] returns: with [0 <= overlap < chunk_size] and one
    unit of fuel per token of the longest file, it returns a document
    list, and every file with non-empty content that the tokenizer
    accepts has at least one document in it. (A file the tokenizer
    refuses is skipped by the handler of the loop and has none of its
    own.) *)
Theorem parse_repository_returns (unicode_lower : str -> str)
    (self : CodeParser) (fuel : nat) (files : list ScannedFile) :
  0 <= chunk_overlap self < chunk_size self ->
  Forall (fun f => (length (encode self (file_content f)) <= fuel)%nat)
         files ->
  exists documents : list CodeDocument,
    parse_repository unicode_lower self fuel files = Some documents /\
    Forall (fun f =>
              is_parsed self f = true ->
              exists d : CodeDocument,
                In d documents /\ file_path d = relative_path f)
           files /\
    (Forall (fun f => is_parsed self f = false) files -> documents = []).
Proof.
  intros Hov Hfuel.
  induction Hfuel as [|f files Hf _ IH]; cbn [parse_repository].
  - exists []. split; [reflexivity|]. split; [constructor|reflexivity].
  - destruct IH as (rest & Hrest & Hall & Hnone).
    unfold is_parsed, has_content.
    destruct (decide (file_content f = [])) as [Hempty|Hfull].
    + exists rest. split; [exact Hrest|]. split.
      * constructor; [|exact Hall].
        rewrite bool_decide_eq_true_2 by exact Hempty. discriminate.
      * intros Hno. apply Hnone. inversion Hno; assumption.
    + destruct (encode_raises self (file_content f)) eqn:Hraises.
      { exists rest. split; [exact Hrest|]. split.
        - constructor; [|exact Hall].
          rewrite Hraises, andb_false_r. discriminate.
        - intros Hno. apply Hnone. inversion Hno; assumption. }
      assert (Hchunks : exists d chunks,
                chunk_text self fuel (file_content f) (relative_path f)
                  (get_language_from_extension unicode_lower f)
                = Some (d :: chunks) /\ file_path d = relative_path f).
      { unfold chunk_text.
        destruct (Z.leb_spec
                    (Z.of_nat (length (encode self (file_content f))))
                    (chunk_size self)) as [Hshort|Hlong].
        - eexists. exists []. split; reflexivity.
        - destruct (chunk_loop_windows self Hov
                      (encode self (file_content f)) (relative_path f)
                      (get_language_from_extension unicode_lower f) fuel 0)
            as (k & Hk & Hrun & _).
          + unfold window_start. lia.
          + unfold window_start. lia.
          + change (window_start self 0) with 0 in Hrun.
            change (Z.of_nat 0) with 0 in Hrun. rewrite Hrun.
            destruct k as [|k]; [lia|]. cbn [seq List.map].
            eexists. eexists. split; reflexivity. }
      destruct Hchunks as (d & chunks & Hrun & Hd).
      rewrite Hrun, Hrest. exists ((d :: chunks) ++ rest).
      split; [reflexivity|]. split.
      * constructor.
        -- intros _. exists d. split; [left; reflexivity|exact Hd].
        -- eapply List.Forall_impl; [|exact Hall].
           intros g Hg Hc. destruct (Hg Hc) as (d' & Hin & Hp).
           exists d'. split; [|exact Hp].
           apply List.in_or_app. right. exact Hin.
      * intros Hno. exfalso. inversion Hno as [|f0 l0 Hf0 _]; subst.
        rewrite bool_decide_eq_false_2 in Hf0 by exact Hfull.
        rewrite Hraises in Hf0. discriminate.
Qed.

Lemma parse_repository_returns_witness :
  let f := mkScannedFile (lit "a.py") (lit ".py") (lit "abcdefgh") in
  let g := mkScannedFile (lit "empty.md") (lit ".md") [] in
  let t := mkScannedFile (lit "tok.txt") (lit ".txt")
                         (lit "a <|endoftext|> b") in
  exists documents : list CodeDocument,
    parse_repository latin1_lower (special_token_parser 4 1) 17 [f; g; t]
    = Some documents /\
    Forall (fun f =>
              is_parsed (special_token_parser 4 1) f = true ->
              exists d : CodeDocument,
                In d documents /\ file_path d = relative_path f)
           [f; g; t] /\
    (Forall (fun f => is_parsed (special_token_parser 4 1) f = false)
            [f; g; t] -> documents = []).
Proof.
  intros f g t.
  apply (parse_repository_returns latin1_lower (special_token_parser 4 1)
           17 [f; g; t]).
  - cbn [special_token_parser chunk_size chunk_overlap]. lia.
  - repeat constructor; vm_compute; lia.
Defined.

(** ** Languages and supported extensions *)

Lemma str_in_true (x : str) (s : list str) :
  str_in x s = true <-> In x s.
Proof.
  unfold str_in. rewrite existsb_exists. split.
  - intros (y & Hy & Heq). apply bool_decide_eq_true_1 in Heq.
    subst y. exact Hy.
  - intros Hx. exists x. split; [exact Hx|].
    apply bool_decide_eq_true_2. reflexivity.
Qed.

(** Which supported files are labelled ["text"]. A file whose
    lower-cased suffix is in [SUPPORTED_EXTENSIONS] gets the language
    ["text"] exactly when that suffix is [.txt], [.bash] or [.m]: the last
    two are supported but missing from the language table (so [.sh] is
    ["bash"] and [.bash] is ["text"]). Every other supported suffix has a
    language of its own. *)
Theorem supported_extension_language (unicode_lower : str -> str)
    (f : ScannedFile) :
  str_in (lower unicode_lower (suffix f)) Settings.SUPPORTED_EXTENSIONS
  = true ->
  bool_decide (get_language_from_extension unicode_lower f = lit "text")
  = str_in (lower unicode_lower (suffix f))
           [lit ".txt"; lit ".bash"; lit ".m"].
Proof.
  intros Hin. apply str_in_true in Hin.
  unfold get_language_from_extension.
  revert Hin. generalize (lower unicode_lower (suffix f)). intros ext Hin.
  unfold Settings.SUPPORTED_EXTENSIONS in Hin. cbn [List.map In] in Hin.
  repeat (destruct Hin as [<-|Hin]; [vm_compute; reflexivity|]).
  destruct Hin.
Qed.

Lemma supported_extension_language_witness :
  let f := mkScannedFile (lit "run.BASH") (lit ".BASH") (lit "ls") in
  bool_decide (get_language_from_extension latin1_lower f = lit "text")
  = true.
Proof.
  intros f.
  apply (supported_extension_language latin1_lower f).
  vm_compute. reflexivity.
Defined.

(** ** Scanning a repository *)

Section ScanProps.
Variable unicode_lower : str -> str.

Lemma scan_repository_sound :
  forall (t : DirTree) (root p : list str) (f : FileEntry),
    In (p, f) (scan_repository unicode_lower root t) ->
    exists ds : list str,
      p = root ++ ds ++ [fe_name f] /\
      at_path t ds f /\
      Forall (fun d => should_ignore_directory d = false) ds /\
      should_process_file unicode_lower f = true.
Proof.
  intros t. induction t as [name filenames dirs IH] using DirTree_forall_ind.
  intros root p f Hin. cbn [scan_repository] in Hin.
  apply List.in_app_or in Hin. destruct Hin as [Hin|Hin].
  - apply List.in_map_iff in Hin. destruct Hin as (g & Heq & Hg).
    injection Heq as <- <-.
    apply List.filter_In in Hg. destruct Hg as [Hg Hproc].
    exists []. split; [reflexivity|]. split; [constructor; exact Hg|].
    split; [constructor|exact Hproc].
  - apply List.in_flat_map in Hin. destruct Hin as (d & Hd & Hin).
    destruct (should_ignore_directory (dir_name d)) eqn:Hign;
      [destruct Hin|].
    rewrite List.Forall_forall in IH.
    destruct (IH d Hd _ _ _ Hin) as (ds & Hp & Hat & Hds & Hproc).
    exists (dir_name d :: ds). split.
    + rewrite Hp, <- app_assoc. reflexivity.
    + split; [constructor; assumption|].
      split; [constructor; assumption|exact Hproc].
Qed.

Lemma scan_repository_complete :
  forall (t : DirTree) (ds : list str) (f : FileEntry),
    at_path t ds f ->
    Forall (fun d => should_ignore_directory d = false) ds ->
    should_process_file unicode_lower f = true ->
    forall root : list str,
      In (root ++ ds ++ [fe_name f], f) (scan_repository unicode_lower root t).
Proof.
  induction 1 as [name filenames dirs f Hf
                 |name filenames dirs d ds f Hd Hat IH];
    intros Hds Hproc root; cbn [scan_repository]; apply List.in_or_app.
  - left. apply List.in_map_iff. exists f. split; [reflexivity|].
    apply List.filter_In. split; assumption.
  - right. apply List.in_flat_map. exists d. split; [exact Hd|].
    inversion Hds as [|d0 ds0 Hign Hds']; subst.
    rewrite Hign.
    specialize (IH Hds' Hproc (root ++ [dir_name d])).
    rewrite <- app_assoc in IH. exact IH.
Qed.
End ScanProps.

(** What [scan_repository] selects. The files it returns are exactly the
    files that pass [should_process_file] and lie below the root through
    sub-directories none of which is ignored (named in [IGNORED_DIRS] or
    beginning with a dot), each under the path made of the root, the
    sub-directory names and the file name. The name of the root itself is
    not looked at, nor is a leading dot of a file name. *)
Theorem scan_repository_selects (unicode_lower : str -> str)
    (t : DirTree) (root p : list str) (f : FileEntry) :
  In (p, f) (scan_repository unicode_lower root t)
  <-> exists ds : list str,
        p = root ++ ds ++ [fe_name f] /\
        at_path t ds f /\
        Forall (fun d => should_ignore_directory d = false) ds /\
        should_process_file unicode_lower f = true.
Proof.
  split.
  - apply scan_repository_sound.
  - intros (ds & -> & Hat & Hds & Hproc).
    apply scan_repository_complete; assumption.
Qed.

Lemma scan_repository_selects_witness :
  let dotfile := mkFileEntry (lit ".eslintrc.json") (lit ".json")
                             (Some 120) true in
  let src := Dir (lit "src") [dotfile] [] in
  let t := Dir (lit "build") [] [src] in
  In ([lit "build"; lit "src"; lit ".eslintrc.json"], dotfile)
     (scan_repository latin1_lower [lit "build"] t).
Proof.
  intros dotfile src t.
  apply (proj2 (scan_repository_selects latin1_lower t [lit "build"]
                  [lit "build"; lit "src"; lit ".eslintrc.json"] dotfile)).
  exists [lit "src"]. split; [reflexivity|]. split.
  - apply (at_sub (lit "build") [] [src] src [] dotfile).
    + left. reflexivity.
    + apply at_here. left. reflexivity.
  - split; [|reflexivity].
    constructor; [reflexivity|constructor].
Defined.

(** Nothing below an ignored directory is returned, at any depth: no
    returned path has a component between the root and the file name
    that is named in [IGNORED_DIRS] or begins with a dot. *)
Theorem scan_repository_skips_ignored (unicode_lower : str -> str)
    (t : DirTree) (root ds1 ds2 : list str) (d : str) (f : FileEntry) :
  should_ignore_directory d = true ->
  ~ In (root ++ ds1 ++ d :: ds2 ++ [fe_name f], f)
       (scan_repository unicode_lower root t).
Proof.
  intros Hign Hin. apply scan_repository_sound in Hin.
  destruct Hin as (ds & Hp & _ & Hds & _).
  apply app_inv_head in Hp.
  change (ds1 ++ d :: ds2 ++ [fe_name f])
    with (ds1 ++ (d :: ds2) ++ [fe_name f]) in Hp.
  rewrite app_assoc in Hp. apply app_inj_tail in Hp.
  destruct Hp as [<- _].
  apply List.Forall_app in Hds. destruct Hds as [_ Hds].
  inversion Hds as [|d0 ds0 Hd _]; subst. congruence.
Qed.

Lemma scan_repository_skips_ignored_witness :
  let lib := mkFileEntry (lit "index.js") (lit ".js") (Some 120) true in
  let pkg := Dir (lit "left-pad") [lib] [] in
  let t := Dir (lit "repo") [] [Dir (lit "node_modules") [] [pkg]] in
  ~ In ([lit "repo"] ++ [] ++ lit "node_modules"
          :: [lit "left-pad"] ++ [fe_name lib], lib)
       (scan_repository latin1_lower [lit "repo"] t).
Proof.
  intros lib pkg t.
  apply (scan_repository_skips_ignored latin1_lower t [lit "repo"] []
           [lit "left-pad"] (lit "node_modules") lib).
  reflexivity.
Defined.

(** ** More on the retriever *)

Section RetrieverMoreProps.
Variable vector : Type.
Variable knn : list (row vector) -> vector -> Z -> option QueryResult.

(** [retrieve] on an attached collection when the embedding call
    fails: [RuntimeError] for a status other than 200, and what
    [requests.post] raises otherwise. *)
Lemma retrieve_no_embedding (ollama : str -> post_result vector)
    (query name : str) (top_k : option Z) (s : state vector) (e : exn) :
  collection s = Some name ->
  embed_fails (ollama query) e ->
  retrieve ollama knn query top_k s
  = (Raise e,
     mkState (chroma_client s) (collection s) (documents s) (db s)
             (trace s ++ [EvEmbed query])).
Proof.
  intros Hcol Hemb.
  unfold retrieve. unfold bind at 1. unfold get at 1. rewrite Hcol.
  unfold generate_query_embedding, _embed, log.
  unfold bind at 1. unfold bind at 1. unfold modify at 1.
  destruct Hemb as [[-> ->]| ->]; unfold raise; rewrite Hcol; reflexivity.
Qed.

(** [generate_embeddings] stops at the first text whose call fails. *)
Lemma generate_embeddings_fail (ollama : str -> post_result vector)
    (pre : list str) (embs : list vector) (bad : str) (post : list str)
    (e : exn) :
  Forall2 (fun t v => ollama t = Status200 v) pre embs ->
  embed_fails (ollama bad) e ->
  forall s : state vector,
    generate_embeddings ollama (pre ++ bad :: post) s
    = (Raise e,
       mkState (chroma_client s) (collection s) (documents s) (db s)
               (trace s ++ List.map EvEmbed (pre ++ [bad]))).
Proof.
  intros Hpre Hbad.
  induction Hpre as [|t v pre embs Ht _ IH]; intros s.
  - unfold generate_embeddings. cbn [app map_M].
    unfold bind at 1. unfold _embed at 1. unfold bind at 1.
    unfold log, modify.
    destruct Hbad as [[-> ->]| ->]; reflexivity.
  - unfold generate_embeddings in *. cbn [app map_M].
    unfold bind at 1. unfold _embed at 1. unfold bind at 1.
    unfold log, modify. rewrite Ht. unfold ret at 1.
    unfold bind at 1. rewrite IH. cbn.
    rewrite <- app_assoc. reflexivity.
Qed.

Lemma replace_app (old new : N) (a b : str) :
  replace old new (a ++ b) = replace old new a ++ replace old new b.
Proof. apply List.map_app. Qed.

Lemma replace_separators (s : str) :
  replace 46 95 (replace 45 95 (replace 45 95 s))
  = replace 46 95 (replace 45 95 s) /\
  replace 46 95 (replace 45 95 (replace 46 95 s))
  = replace 46 95 (replace 45 95 s).
Proof.
  unfold replace. rewrite !List.map_map. split; apply List.map_ext; intros c.
  - destruct (N.eqb_spec c 45) as [->|H45]; [reflexivity|].
    destruct (N.eqb_spec c 45); [contradiction|]. reflexivity.
  - destruct (N.eqb_spec c 46) as [->|H46]; [reflexivity|].
    destruct (N.eqb_spec c 45) as [->|H45]; [reflexivity|].
    destruct (N.eqb_spec c 46); [contradiction|]. reflexivity.
Qed.
End RetrieverMoreProps.

(** [retrieve] only reads: whatever the state, the query and the answers
    of the embedding service and of the index, the call leaves the store,
    the attached collection, the document list and the client as they
    were, and its outside calls are at most one embedding request followed
    by at most one index query (no insert, no collection creation). *)
Theorem retrieve_read_only (vector : Type)
    (ollama : str -> post_result vector)
    (knn : list (row vector) -> vector -> Z -> option QueryResult)
    (query : str) (top_k : option Z) (s : state vector) :
  let s' := snd (retrieve ollama knn query top_k s) in
  db s' = db s /\ collection s' = collection s /\
  documents s' = documents s /\ chroma_client s' = chroma_client s /\
  (trace s' = trace s \/
   trace s' = trace s ++ [EvEmbed query] \/
   exists (name : str) (v : vector) (n_results : Z),
     trace s' = trace s ++ [EvEmbed query; EvQuery name v n_results]).
Proof.
  intros s'. unfold s'. clear s'.
  destruct (collection s) as [name|] eqn:Hcol.
  - destruct (ollama query) as [v| |e] eqn:Hemb.
    + rewrite (retrieve_attached vector ollama knn query top_k name v s
                 Hcol Hemb).
      cbv zeta.
      destruct (knn (rows_of (db s) name) v _) as [results|].
      * rewrite retrieve_items_state.
        cbn [db collection documents chroma_client trace].
        repeat split; try reflexivity; try exact Hcol.
        right. right. eexists. eexists. eexists. reflexivity.
      * cbn [snd db collection documents chroma_client trace].
        repeat split; try reflexivity; try exact Hcol.
        right. right. eexists. eexists. eexists. reflexivity.
    + rewrite (retrieve_no_embedding vector knn ollama query name top_k s
                 RuntimeError Hcol).
      2:{ left. split; [exact Hemb|reflexivity]. }
      cbn [snd db collection documents chroma_client trace].
      repeat split; try reflexivity; try exact Hcol. right. left. reflexivity.
    + rewrite (retrieve_no_embedding vector knn ollama query name top_k s
                 e Hcol).
      2:{ right. exact Hemb. }
      cbn [snd db collection documents chroma_client trace].
      repeat split; try reflexivity; try exact Hcol. right. left. reflexivity.
  - unfold retrieve, bind, get. rewrite Hcol. cbn [snd].
    repeat split; try reflexivity; try exact Hcol. left. reflexivity.
Qed.

(** A failed embedding of the query. When the service answers the query
    with a status other than 200, [retrieve] raises the [RuntimeError] of
    [_embed]; when [requests.post] itself raises (a time-out, a refused
    connection), that exception comes out of [retrieve] as it is. Either
    way the index is not queried and the store is unchanged. *)
Theorem retrieve_embedding_failure (vector : Type)
    (ollama : str -> post_result vector)
    (knn : list (row vector) -> vector -> Z -> option QueryResult)
    (query name : str) (top_k : option Z) (s : state vector) (e : exn) :
  collection s = Some name ->
  (ollama query = StatusOther /\ e = RuntimeError) \/
  ollama query = PostRaises e ->
  exists s' : state vector,
    retrieve ollama knn query top_k s = (Raise e, s') /\
    trace s' = trace s ++ [EvEmbed query] /\
    db s' = db s.
Proof.
  intros Hcol Hemb. eexists. split.
  - exact (retrieve_no_embedding vector knn ollama query name top_k s e
             Hcol Hemb).
  - split; reflexivity.
Qed.

Lemma retrieve_embedding_failure_witness :
  let name := lit "repo_demo" in
  let s := mkState true (Some name) [] (<[name := []]> ∅) [] in
  let down := fun _ : str =>
    PostRaises (vector := nat) (LibraryError "ConnectionError") in
  exists s' : state nat,
    retrieve down first_rows_knn (lit "what is x") None s
    = (Raise (LibraryError "ConnectionError"), s') /\
    trace s' = [] ++ [EvEmbed (lit "what is x")] /\
    db s' = db s.
Proof.
  intros name s down.
  apply (retrieve_embedding_failure nat down first_rows_knn
           (lit "what is x") name None s (LibraryError "ConnectionError")).
  - reflexivity.
  - right. reflexivity.
Defined.

(** An embedding failure during a build. On a collection that holds
    nothing yet, with a backend that accepts the collection name, when the
    service answers the contents of the documents [pre] and the call for
    the next one fails ([RuntimeError] for a status other than 200, the
    exception of [requests.post] otherwise), [build_index] raises that
    exception before any insert: the collection is attached (and created
    if it was missing) but still empty, other collections are untouched,
    and the contents after the failing one are never sent. The collection
    being empty, a later [build_index] with a service that answers builds
    the whole index. *)
Theorem build_index_embedding_failure (vector : Type)
    (ollama : str -> post_result vector)
    (client_error : option exn) (create_error : str -> option exn)
    (unicode_isalnum : N -> bool) (unicode_lower : str -> str)
    (pre : list CodeDocument) (pre_embs : list vector)
    (bad : CodeDocument) (post : list CodeDocument)
    (repo_name : str) (s : state vector) (e : exn) :
  let name := _get_collection_name unicode_isalnum unicode_lower repo_name in
  let docs := pre ++ bad :: post in
  client_error = None -> create_error name = None ->
  rows_of (db s) name = [] ->
  Forall2 (fun d v => ollama (content d) = Status200 v) pre pre_embs ->
  (ollama (content bad) = StatusOther /\ e = RuntimeError) \/
  ollama (content bad) = PostRaises e ->
  exists s' : state vector,
    build_index ollama client_error create_error unicode_isalnum
                unicode_lower docs repo_name s
    = (Raise e, s') /\
    rows_of (db s') name = [] /\
    (forall other : str, other <> name -> db s' !! other = db s !! other) /\
    collection s' = Some name /\
    trace s' = trace s ++ [EvGetOrCreate name]
                       ++ List.map EvEmbed (List.map content (pre ++ [bad])) /\
    forall (ollama' : str -> post_result vector) (embs : list vector),
      Forall2 (fun d v => ollama' (content d) = Status200 v) docs embs ->
      exists s'' : state vector,
        build_index ollama' client_error create_error unicode_isalnum
                    unicode_lower docs repo_name s'
        = (Ok tt, s'') /\
        rows_of (db s'') name = stored_rows docs embs.
Proof.
  intros name docs Hclient Hcreate Hfresh Hpre Hbad.
  set (db1 := match db s !! name with
              | Some _ => db s
              | None => <[name:=[]]> (db s)
              end).
  assert (Hdb1 : db1 !! name = Some []).
  { unfold db1. unfold rows_of in Hfresh.
    destruct (db s !! name) as [l|] eqn:Hl.
    - cbn in Hfresh. subst l. exact Hl.
    - apply lookup_insert_eq. }
  assert (Hother : forall other, other <> name ->
                                 db1 !! other = db s !! other).
  { intros other Hne. unfold db1. destruct (db s !! name); [reflexivity|].
    apply lookup_insert_ne. congruence. }
  exists (mkState true (Some name) docs db1
            (trace s ++ [EvGetOrCreate name]
                     ++ List.map EvEmbed (List.map content (pre ++ [bad])))).
  split; [|split; [|split; [|split; [|split]]]].
  - assert (Hdocs : exists d0 docs0, docs = d0 :: docs0).
    { unfold docs. destruct pre; eexists; eexists; reflexivity. }
    destruct Hdocs as (d0 & docs0 & Hdocs).
    unfold build_index. rewrite Hdocs. rewrite <- Hdocs. fold name.
    unfold _init_client, get_or_create_collection, collection_count,
      set_documents, log.
    rewrite Hclient, Hcreate.
    unfold bind at 1. unfold bind at 1. unfold modify at 1.
    unfold bind at 1. unfold modify at 1. unfold modify at 1.
    cbn [chroma_client collection documents db trace].
    unfold bind at 1. unfold bind at 1. unfold get at 1. unfold ret at 1.
    cbn [chroma_client collection documents db trace].
    fold db1. unfold rows_of at 1. rewrite Hdb1. cbn [default]. unfold id.
    cbn [length]. change (Z.of_nat 0 >? 0) with false. cbv beta iota.
    unfold bind at 1. unfold modify at 1.
    cbn [chroma_client collection documents db trace].
    unfold bind at 1.
    rewrite enumerate_contents. unfold docs at 1.
    rewrite List.map_app. cbn [List.map].
    rewrite (generate_embeddings_fail vector ollama
               (List.map content pre) pre_embs (content bad)
               (List.map content post) e).
    + cbn [chroma_client collection documents db trace].
      rewrite !List.map_app. cbn [List.map].
      rewrite <- !app_assoc. reflexivity.
    + clear -Hpre. induction Hpre; cbn; constructor; assumption.
    + exact Hbad.
  - unfold rows_of. cbn [db]. rewrite Hdb1. reflexivity.
  - intros other Hne. cbn [db]. apply Hother. exact Hne.
  - reflexivity.
  - reflexivity.
  - intros ollama' embs Hembs.
    eexists. split.
    + apply (build_index_fresh vector ollama' client_error create_error
               unicode_isalnum unicode_lower docs embs repo_name).
      * unfold docs. destruct pre; discriminate.
      * exact Hclient.
      * exact Hcreate.
      * fold name. unfold rows_of. cbn [db]. rewrite Hdb1. reflexivity.
      * exact Hembs.
    + fold name. unfold rows_of. cbn [db].
      rewrite lookup_insert_eq. reflexivity.
Qed.

Lemma build_index_embedding_failure_witness :
  let a := mkCodeDocument (lit "import os") (lit "a.py") (lit "python") 0 in
  let b := mkCodeDocument (lit "x = 1") (lit "a.py") (lit "python") 1 in
  let c := mkCodeDocument (lit "# T") (lit "README.md") (lit "markdown") 0 in
  let name := lit "repo_my_repo" in
  let flaky := fun t : str =>
    if bool_decide (t = lit "x = 1") then StatusOther
    else Status200 (length t) in
  let s : state nat := RAGRetriever_init ∅ in
  exists s' : state nat,
    build_index flaky None name_rule latin1_isalnum latin1_lower
                ([a] ++ b :: [c]) (lit "my-repo") s
    = (Raise RuntimeError, s') /\
    rows_of (db s') name = [] /\
    (forall other : str, other <> name -> db s' !! other = db s !! other) /\
    collection s' = Some name /\
    trace s' = trace s ++ [EvGetOrCreate name]
                  ++ List.map EvEmbed (List.map content ([a] ++ [b])) /\
    forall (ollama' : str -> post_result nat) (embs : list nat),
      Forall2 (fun d v => ollama' (content d) = Status200 v)
              ([a] ++ b :: [c]) embs ->
      exists s'' : state nat,
        build_index ollama' None name_rule latin1_isalnum latin1_lower
                    ([a] ++ b :: [c]) (lit "my-repo") s'
        = (Ok tt, s'') /\
        rows_of (db s'') name = stored_rows ([a] ++ b :: [c]) embs.
Proof.
  intros a b c name flaky s.
  apply (build_index_embedding_failure nat flaky None name_rule
           latin1_isalnum latin1_lower [a] [9%nat] b [c] (lit "my-repo") s
           RuntimeError).
  - reflexivity.
  - reflexivity.
  - reflexivity.
  - repeat constructor.
  - left. split; reflexivity.
Defined.

(** A backend that refuses. When [PersistentClient] raises, or when
    [get_or_create_collection] raises for the collection name (ChromaDB
    refuses [repo_my_repo_], the name of the repository [my-repo-]),
    [build_index] on a non-empty document list raises that exception out
    of [_init_client]: nothing is embedded, nothing is stored, no
    collection is attached and the document list is not recorded. *)
Theorem build_index_backend_failure (vector : Type)
    (ollama : str -> post_result vector)
    (client_error : option exn) (create_error : str -> option exn)
    (unicode_isalnum : N -> bool) (unicode_lower : str -> str)
    (docs : list CodeDocument) (repo_name : str) (s : state vector)
    (e : exn) :
  let name := _get_collection_name unicode_isalnum unicode_lower repo_name in
  docs <> [] ->
  client_error = Some e \/
  (client_error = None /\ create_error name = Some e) ->
  exists s' : state vector,
    build_index ollama client_error create_error unicode_isalnum
                unicode_lower docs repo_name s
    = (Raise e, s') /\
    db s' = db s /\ collection s' = collection s /\
    documents s' = documents s /\
    (trace s' = trace s \/ trace s' = trace s ++ [EvGetOrCreate name]).
Proof.
  intros name Hne Hfail.
  destruct docs as [|d0 docs0]; [congruence|].
  unfold build_index. fold name.
  unfold _init_client, get_or_create_collection, log.
  destruct Hfail as [->|[-> Hcreate]].
  - eexists. split; [reflexivity|].
    repeat split; try reflexivity. left. reflexivity.
  - rewrite Hcreate. eexists. split; [reflexivity|].
    cbn [db collection documents trace].
    repeat split; try reflexivity. right. reflexivity.
Qed.

Lemma build_index_backend_failure_witness :
  let docs := [mkCodeDocument (lit "import os") (lit "a.py")
                              (lit "python") 0] in
  let name := lit "repo_my_repo_" in
  let e := ValueError "Expected collection name to end in [a-zA-Z0-9]" in
  let s : state nat := RAGRetriever_init ∅ in
  exists s' : state nat,
    build_index length_embedder None name_rule latin1_isalnum latin1_lower
                docs (lit "my-repo-") s
    = (Raise e, s') /\
    db s' = db s /\ collection s' = collection s /\
    documents s' = documents s /\
    (trace s' = trace s \/ trace s' = trace s ++ [EvGetOrCreate name]).
Proof.
  intros docs name e s.
  apply (build_index_backend_failure nat length_embedder None name_rule
           latin1_isalnum latin1_lower docs (lit "my-repo-") s e).
  - discriminate.
  - right. split; reflexivity.
Defined.

(** Repository names that differ only in [-], [.] and [_] share one
    collection: replacing [-] or [.] by [_] in a repository name does not
    change its collection name. *)
Theorem collection_name_separators (unicode_isalnum : N -> bool)
    (unicode_lower : str -> str) (repo_name : str) :
  _get_collection_name unicode_isalnum unicode_lower (replace 45 95 repo_name)
  = _get_collection_name unicode_isalnum unicode_lower repo_name /\
  _get_collection_name unicode_isalnum unicode_lower (replace 46 95 repo_name)
  = _get_collection_name unicode_isalnum unicode_lower repo_name.
Proof.
  unfold _get_collection_name. cbv zeta.
  rewrite !replace_app.
  destruct (replace_separators repo_name) as [H45 H46].
  rewrite H45, H46. split; reflexivity.
Qed.

(** A build under a colliding name is a cache hit. With a backend that
    accepts the collection name: after a first build for [repo1], a
    [build_index] for another repository [repo2] whose
    name is the same up to [-], [.] and [_] (as [my-repo] and [my.repo])
    finds the collection of [repo1] populated and returns without
    embedding or storing any of its own documents: the store still holds
    the records of [repo1] only. *)
Theorem build_index_name_collision (vector : Type)
    (ollama : str -> post_result vector)
    (client_error : option exn) (create_error : str -> option exn)
    (unicode_isalnum : N -> bool) (unicode_lower : str -> str)
    (docs1 docs2 : list CodeDocument) (embs1 : list vector)
    (repo1 repo2 : str) (s : state vector) :
  let name := _get_collection_name unicode_isalnum unicode_lower repo1 in
  replace 46 95 (replace 45 95 repo1) = replace 46 95 (replace 45 95 repo2) ->
  docs1 <> [] -> docs2 <> [] ->
  client_error = None -> create_error name = None ->
  rows_of (db s) name = [] ->
  Forall2 (fun d e => ollama (content d) = Status200 e) docs1 embs1 ->
  exists s1 s2 : state vector,
    build_index ollama client_error create_error unicode_isalnum
                unicode_lower docs1 repo1 s
    = (Ok tt, s1) /\
    build_index ollama client_error create_error unicode_isalnum
                unicode_lower docs2 repo2 s1
    = (Ok tt, s2) /\
    collection s2 = Some name /\
    db s2 = db s1 /\
    rows_of (db s2) name = stored_rows docs1 embs1 /\
    trace s2 = trace s1 ++ [EvGetOrCreate name].
Proof.
  intros name Hsame Hne1 Hne2 Hclient Hcreate Hfresh Hembs.
  assert (Hname : _get_collection_name unicode_isalnum unicode_lower repo2
                  = name).
  { unfold name, _get_collection_name. cbv zeta.
    rewrite !replace_app, Hsame. reflexivity. }
  pose proof (build_index_fresh vector ollama client_error create_error
                unicode_isalnum unicode_lower docs1 embs1 repo1 s
                Hne1 Hclient Hcreate Hfresh Hembs) as H1.
  cbv zeta in H1. fold name in H1.
  set (s1 := mkState true (Some name) docs1
               (<[name := stored_rows docs1 embs1]> (db s)) _) in H1.
  assert (Hrows : rows_of (db s1) name = stored_rows docs1 embs1).
  { unfold rows_of, s1. cbn [db]. rewrite lookup_insert_eq. reflexivity. }
  assert (Hlen : length (stored_rows docs1 embs1) = length docs1).
  { apply stored_rows_length. symmetry. apply (Forall2_length _ _ _ Hembs). }
  assert (Hpop : rows_of (db s1) name <> []).
  { rewrite Hrows. intros Hnil. rewrite Hnil in Hlen.
    destruct docs1; [congruence | discriminate]. }
  rewrite <- Hname in Hpop. fold name in Hcreate. rewrite <- Hname in Hcreate.
  pose proof (build_index_cached vector ollama client_error create_error
                unicode_isalnum unicode_lower docs2 repo2 s1
                Hne2 Hclient Hcreate Hpop) as H2.
  cbv zeta in H2. rewrite Hname in H2.
  exists s1. eexists.
  split; [exact H1|]. split; [exact H2|].
  split; [reflexivity|]. split; [reflexivity|].
  split; [exact Hrows|reflexivity].
Qed.

Lemma build_index_name_collision_witness :
  let docs1 := [mkCodeDocument (lit "import os") (lit "a.py")
                               (lit "python") 0] in
  let docs2 := [mkCodeDocument (lit "fn main") (lit "m.rs") (lit "rust") 0] in
  let name := lit "repo_my_repo" in
  exists s1 s2 : state nat,
    build_index length_embedder None name_rule latin1_isalnum latin1_lower
                docs1 (lit "my-repo") (RAGRetriever_init ∅)
    = (Ok tt, s1) /\
    build_index length_embedder None name_rule latin1_isalnum latin1_lower
                docs2 (lit "my.repo") s1
    = (Ok tt, s2) /\
    collection s2 = Some name /\
    db s2 = db s1 /\
    rows_of (db s2) name = stored_rows docs1 [9%nat] /\
    trace s2 = trace s1 ++ [EvGetOrCreate name].
Proof.
  intros docs1 docs2 name.
  apply (build_index_name_collision nat length_embedder None name_rule
           latin1_isalnum latin1_lower docs1 docs2 [9%nat] (lit "my-repo")
           (lit "my.repo") (RAGRetriever_init ∅)).
  - reflexivity.
  - discriminate.
  - discriminate.
  - reflexivity.
  - reflexivity.
  - reflexivity.
  - repeat constructor.
Defined.

(** A query after a build is answered from the records of that build.
    With a backend that accepts the collection name: after a
    [build_index] on a collection that held nothing, [retrieve] asks the
    index for [min(k, len(documents))] neighbours, [k] being the [top_k]
    given, or 5 when none or 0 is given, among exactly the records
    [doc_0 .. doc_(n-1)] stored by the build, and converts what the index
    answers. *)
Theorem build_then_retrieve (vector : Type)
    (ollama : str -> post_result vector)
    (knn : list (row vector) -> vector -> Z -> option QueryResult)
    (client_error : option exn) (create_error : str -> option exn)
    (unicode_isalnum : N -> bool) (unicode_lower : str -> str)
    (docs : list CodeDocument) (embs : list vector) (repo_name query : str)
    (top_k : option Z) (v : vector) (s : state vector) :
  let name := _get_collection_name unicode_isalnum unicode_lower repo_name in
  let k := match top_k with
           | Some 0 => 5
           | Some given => given
           | None => 5
           end in
  let n_results := Z.min k (Z.of_nat (length docs)) in
  docs <> [] ->
  client_error = None -> create_error name = None ->
  rows_of (db s) name = [] ->
  Forall2 (fun d e => ollama (content d) = Status200 e) docs embs ->
  ollama query = Status200 v ->
  exists s1 s2 : state vector,
    build_index ollama client_error create_error unicode_isalnum
                unicode_lower docs repo_name s
    = (Ok tt, s1) /\
    trace s2 = trace s1 ++ [EvEmbed query; EvQuery name v n_results] /\
    db s2 = db s1 /\
    retrieve ollama knn query top_k s1
    = match knn (stored_rows docs embs) v n_results with
      | Some results =>
          map_M retrieve_item
                (zip3 (res_documents results) (res_metadatas results)
                      (res_distances results)) s2
      | None => (Raise BackendError, s2)
      end.
Proof.
  intros name k n_results Hne Hclient Hcreate Hfresh Hembs Hq.
  pose proof (build_index_fresh vector ollama client_error create_error
                unicode_isalnum unicode_lower docs embs repo_name s
                Hne Hclient Hcreate Hfresh Hembs) as H1.
  cbv zeta in H1. fold name in H1.
  set (s1 := mkState true (Some name) docs
               (<[name := stored_rows docs embs]> (db s)) _) in H1.
  assert (Hrows : rows_of (db s1) name = stored_rows docs embs).
  { unfold rows_of, s1. cbn [db]. rewrite lookup_insert_eq. reflexivity. }
  assert (Hlen : length (stored_rows docs embs) = length docs).
  { apply stored_rows_length. symmetry. apply (Forall2_length _ _ _ Hembs). }
  assert (Hk : top_k_or_default top_k = k).
  { unfold k, top_k_or_default.
    destruct top_k as [[|p|p]|]; reflexivity. }
  pose proof (retrieve_attached vector ollama knn query top_k name v s1
                eq_refl Hq) as H2.
  cbv zeta in H2. rewrite Hrows, Hlen, Hk in H2. fold n_results in H2.
  exists s1. eexists.
  split; [exact H1|]. split; [|split; [|exact H2]]; reflexivity.
Qed.

Lemma build_then_retrieve_witness :
  let docs := [mkCodeDocument (lit "import os") (lit "a.py") (lit "python") 0;
               mkCodeDocument (lit "x = 1") (lit "a.py") (lit "python") 1;
               mkCodeDocument (lit "y = 2") (lit "b.py") (lit "python") 0] in
  let name := lit "repo_my_repo" in
  exists s1 s2 : state nat,
    build_index length_embedder None name_rule latin1_isalnum latin1_lower
                docs (lit "my-repo") (RAGRetriever_init ∅)
    = (Ok tt, s1) /\
    trace s2 = trace s1 ++ [EvEmbed (lit "os"); EvQuery name 2%nat 2] /\
    db s2 = db s1 /\
    retrieve length_embedder ranked_knn (lit "os") (Some 2) s1
    = match ranked_knn (stored_rows docs [9%nat; 5%nat; 5%nat]) 2%nat 2 with
      | Some results =>
          map_M retrieve_item
                (zip3 (res_documents results) (res_metadatas results)
                      (res_distances results)) s2
      | None => (Raise BackendError, s2)
      end.
Proof.
  intros docs name.
  apply (build_then_retrieve nat length_embedder ranked_knn None name_rule
           latin1_isalnum latin1_lower docs [9%nat; 5%nat; 5%nat]
           (lit "my-repo") (lit "os") (Some 2) 2%nat (RAGRetriever_init ∅)).
  - discriminate.
  - reflexivity.
  - reflexivity.
  - reflexivity.
  - repeat constructor.
  - reflexivity.
Defined.

(** ** [collection_exists] *)

(** On a retriever that is attached to a collection, [collection_exists]
    does not look at its argument: it answers whether the attached
    collection holds a record, whatever name it is asked about, and
    changes nothing. *)
Theorem collection_exists_attached (vector : Type)
    (client_error : option exn) (create_error : str -> option exn)
    (collection_name attached : str) (s : state vector) :
  collection s = Some attached ->
  collection_exists client_error create_error collection_name s
  = (Ok (Z.of_nat (length (rows_of (db s) attached)) >? 0), s).
Proof.
  intros Hcol.
  unfold collection_exists, try_except.
  unfold bind at 1. unfold get at 1. rewrite Hcol.
  unfold bind at 1. unfold ret at 1.
  unfold bind at 1. unfold get at 1. rewrite Hcol.
  unfold collection_count, bind, get, ret. reflexivity.
Qed.

Lemma collection_exists_attached_witness :
  let a := lit "repo_a" in
  let r := mkRow (lit "doc_0") (lit "x = 1")
                 (mkMetadata (lit "a.py") (lit "python") 0) 5%nat in
  let s := mkState true (Some a) [] (<[a := [r]]> ∅) [] in
  collection_exists None name_rule (lit "repo_b") s
  = (Ok (Z.of_nat (length (rows_of (db s) a)) >? 0), s).
Proof.
  intros a r s.
  apply (collection_exists_attached nat None name_rule (lit "repo_b") a s).
  reflexivity.
Defined.

(** On a retriever with no collection attached, [collection_exists] is
    not a pure check and it never raises. When the backend accepts the
    name, it creates the client, attaches the named collection and
    creates that collection when the store does not have it; the records
    of every collection stay as they were, and the answer is whether the
    named collection holds a record. When [PersistentClient] or
    [get_or_create_collection] raises (ChromaDB refuses the name), the
    handler answers [False]: nothing is attached or created, and the
    store is as it was, whatever the collection of that name holds. *)
Theorem collection_exists_unattached (vector : Type)
    (client_error : option exn) (create_error : str -> option exn)
    (collection_name : str) (s : state vector) :
  collection s = None ->
  (client_error = None -> create_error collection_name = None ->
   exists s' : state vector,
     collection_exists client_error create_error collection_name s
     = (Ok (Z.of_nat (length (rows_of (db s) collection_name)) >? 0), s') /\
     chroma_client s' = true /\
     collection s' = Some collection_name /\
     db s' !! collection_name
     = Some (rows_of (db s) collection_name) /\
     (forall other : str, rows_of (db s') other = rows_of (db s) other) /\
     trace s' = trace s ++ [EvGetOrCreate collection_name]) /\
  (client_error <> None \/ create_error collection_name <> None ->
   exists s' : state vector,
     collection_exists client_error create_error collection_name s
     = (Ok false, s') /\
     collection s' = None /\
     db s' = db s /\
     documents s' = documents s).
Proof.
  intros Hcol. split.
  - intros Hclient Hcreate.
    set (db1 := match db s !! collection_name with
                | Some _ => db s
                | None => <[collection_name:=[]]> (db s)
                end).
    assert (Hrows : forall other, rows_of db1 other = rows_of (db s) other).
    { intros other. unfold db1, rows_of.
      destruct (db s !! collection_name) as [l|] eqn:Hl; [reflexivity|].
      destruct (decide (other = collection_name)) as [->|Hne].
      - rewrite lookup_insert_eq, Hl. reflexivity.
      - rewrite lookup_insert_ne by congruence. reflexivity. }
    assert (Hdb1 : db1 !! collection_name
                   = Some (rows_of (db s) collection_name)).
    { unfold db1, rows_of.
      destruct (db s !! collection_name) as [l|] eqn:Hl.
      - rewrite Hl. reflexivity.
      - rewrite lookup_insert_eq. reflexivity. }
    exists (mkState true (Some collection_name) (documents s) db1
              (trace s ++ [EvGetOrCreate collection_name])).
    split; [|split; [|split; [|split; [|split]]]]; try reflexivity.
    + unfold collection_exists, try_except.
      unfold bind at 1. unfold get at 1. rewrite Hcol.
      unfold _init_client, get_or_create_collection, log.
      rewrite Hclient, Hcreate.
      unfold bind at 1. unfold bind at 1. unfold modify at 1.
      unfold bind at 1. unfold modify at 1. unfold modify at 1.
      cbn [chroma_client collection documents db trace].
      unfold bind at 1. unfold get at 1.
      cbn [chroma_client collection documents db trace].
      unfold collection_count, bind, get, ret.
      cbn [chroma_client collection documents db trace].
      fold db1. rewrite Hrows. reflexivity.
    + exact Hdb1.
    + intros other. cbn [db]. apply Hrows.
  - intros Hfail.
    unfold collection_exists, try_except.
    unfold bind at 1. unfold get at 1. rewrite Hcol.
    unfold _init_client, get_or_create_collection, log.
    destruct client_error as [e|].
    + eexists. split; [reflexivity|].
      split; [exact Hcol|]. split; reflexivity.
    + destruct (create_error collection_name) as [e|] eqn:Hcreate.
      * eexists. split; [reflexivity|].
        cbn [collection db documents].
        split; [exact Hcol|]. split; reflexivity.
      * destruct Hfail as [H|H]; congruence.
Qed.

Lemma collection_exists_unattached_witness :
  let s : state nat := RAGRetriever_init ∅ in
  (exists s' : state nat,
     collection_exists None name_rule (lit "repo_new") s
     = (Ok (Z.of_nat (length (rows_of (db s) (lit "repo_new"))) >? 0), s') /\
     chroma_client s' = true /\
     collection s' = Some (lit "repo_new") /\
     db s' !! lit "repo_new" = Some (rows_of (db s) (lit "repo_new")) /\
     (forall other : str, rows_of (db s') other = rows_of (db s) other) /\
     trace s' = trace s ++ [EvGetOrCreate (lit "repo_new")]) /\
  (exists s' : state nat,
     collection_exists None name_rule (lit "repo_") s = (Ok false, s') /\
     collection s' = None /\
     db s' = db s /\
     documents s' = documents s).
Proof.
  intros s. split.
  - apply (proj1 (collection_exists_unattached nat None name_rule
                    (lit "repo_new") s eq_refl)); reflexivity.
  - apply (proj2 (collection_exists_unattached nat None name_rule
                    (lit "repo_") s eq_refl)).
    right. discriminate.
Defined.

(** ** Clone URLs *)

Lemma startswith_app (s prefix : str) :
  startswith s prefix = true <-> exists rest, s = prefix ++ rest.
Proof.
  revert s. induction prefix as [|p prefix IH]; intros s.
  - split; [intros _; exists s; reflexivity | reflexivity].
  - destruct s as [|c s]; cbn [startswith].
    + split; [discriminate | intros [rest H]; discriminate].
    + rewrite andb_true_iff, IH. split.
      * intros [Hc [rest ->]]. apply N.eqb_eq in Hc. subst c.
        exists rest. reflexivity.
      * intros [rest H]. injection H as -> ->.
        split; [apply N.eqb_refl | exists rest; reflexivity].
Qed.

(** Where [old] does not occur, [replace] changes nothing. *)
Lemma replace_from_absent (old new : str) (s : str) :
  contains old s = false -> replace_from old new 0 s = s.
Proof.
  induction s as [|c s IH]; intros H; [reflexivity|].
  cbn [contains] in H. apply orb_false_iff in H. destruct H as [Hhere Hrest].
  cbn [replace_from]. rewrite Hhere, IH by exact Hrest. reflexivity.
Qed.

(** The result of [get_clone_url] always begins with [http], whatever
    the token and the URL given. *)
Theorem get_clone_url_scheme (github_token : option str) (repo_url : str) :
  startswith (get_clone_url github_token repo_url) (lit "http") = true.
Proof.
  assert (Hplain :
    startswith (if negb (startswith repo_url (lit "http"))
                then lit "https://github.com/" ++ repo_url ++ lit ".git"
                else repo_url) (lit "http") = true).
  { destruct (startswith repo_url (lit "http")) eqn:Hhttp; cbn [negb].
    - exact Hhttp.
    - reflexivity. }
  unfold get_clone_url. cbv zeta.
  destruct github_token as [[|c t]|]; try exact Hplain.
  destruct (contains (lit "github.com") repo_url); [|exact Hplain].
  destruct (startswith repo_url (lit "https://")) eqn:Hhttps.
  - apply startswith_app in Hhttps. destruct Hhttps as [rest ->].
    reflexivity.
  - destruct (startswith repo_url (lit "http")) eqn:Hhttp; cbn [negb].
    + exact Hhttp.
    + reflexivity.
Qed.

(** Where the token is not used. For a URL that does not contain
    [github.com], or that begins with [http] but not with [https://] (a
    plain [http://] URL), [get_clone_url] returns what it returns without
    a token: the token goes into no such URL. *)
Theorem get_clone_url_token_unused (github_token : option str)
    (repo_url : str) :
  contains (lit "github.com") repo_url = false \/
  (startswith repo_url (lit "http") = true /\
   startswith repo_url (lit "https://") = false) ->
  get_clone_url github_token repo_url = get_clone_url None repo_url.
Proof.
  intros H. unfold get_clone_url. cbv zeta.
  destruct github_token as [[|c t]|]; try reflexivity.
  destruct H as [Hno|[Hhttp Hhttps]].
  - rewrite Hno. reflexivity.
  - rewrite Hhttps, Hhttp. cbn [negb].
    destruct (contains (lit "github.com") repo_url); reflexivity.
Qed.

Lemma get_clone_url_token_unused_witness :
  get_clone_url (Some (lit "ghp_secret")) (lit "http://github.com/o/r")
  = get_clone_url None (lit "http://github.com/o/r").
Proof.
  apply get_clone_url_token_unused.
  right. split; reflexivity.
Defined.

(** The authenticated URL. With a non-empty token, a URL
    [https://<rest>] that contains [github.com] and has no further
    [https://] inside [<rest>] becomes [https://<token>@<rest>]. *)
Theorem get_clone_url_https (token rest : str) :
  token <> [] ->
  contains (lit "github.com") rest = true ->
  contains (lit "https://") rest = false ->
  get_clone_url (Some token) (lit "https://" ++ rest)
  = lit "https://" ++ token ++ lit "@" ++ rest.
Proof.
  intros Htoken Hgh Honce.
  destruct token as [|c t]; [congruence|].
  unfold get_clone_url. cbv zeta.
  assert (Hgh' : contains (lit "github.com") (lit "https://" ++ rest) = true).
  { change (lit "https://" ++ rest)
      with (104 :: 116 :: 116 :: 112 :: 115 :: 58 :: 47 :: 47 :: rest)%N.
    cbn [contains]. rewrite Hgh. rewrite !orb_true_r. reflexivity. }
  rewrite Hgh'.
  assert (Hstart : startswith (lit "https://" ++ rest) (lit "https://") = true).
  { apply startswith_app. exists rest. reflexivity. }
  rewrite Hstart. unfold str_replace.
  change (lit "https://" ++ rest)
    with (104 :: 116 :: 116 :: 112 :: 115 :: 58 :: 47 :: 47 :: rest)%N at 1.
  cbn [replace_from].
  change (104 :: 116 :: 116 :: 112 :: 115 :: 58 :: 47 :: 47 :: rest)%N
    with (lit "https://" ++ rest).
  rewrite Hstart.
  change (length (lit "https://") - 1)%nat with 7%nat.
  cbn [replace_from].
  rewrite (replace_from_absent _ _ rest Honce).
  rewrite <- !app_assoc. reflexivity.
Qed.

Lemma get_clone_url_https_witness :
  get_clone_url (Some (lit "ghp_secret")) (lit "https://" ++ lit "github.com/o/r")
  = lit "https://" ++ lit "ghp_secret" ++ lit "@" ++ lit "github.com/o/r".
Proof.
  apply get_clone_url_https.
  - discriminate.
  - reflexivity.
  - reflexivity.
Defined.

(** ** Suffix case *)

Lemma ascii_lower_idem (c : N) : ascii_lower (ascii_lower c) = ascii_lower c.
Proof.
  unfold ascii_lower, is_upper.
  destruct (N.leb_spec 65 c), (N.leb_spec c 90); cbn [andb]; try reflexivity;
    try (destruct (N.leb_spec 65 c), (N.leb_spec c 90); cbn [andb];
         try reflexivity; lia).
  destruct (N.leb_spec 65 (c + 32)), (N.leb_spec (c + 32) 90); cbn [andb];
    try reflexivity; lia.
Qed.

Lemma ascii_lower_is_ascii (c : N) :
  is_ascii c = true -> is_ascii (ascii_lower c) = true.
Proof.
  unfold is_ascii, ascii_lower, is_upper. intros H.
  apply N.ltb_lt in H.
  destruct (N.leb_spec 65 c), (N.leb_spec c 90); cbn [andb];
    apply N.ltb_lt; lia.
Qed.

Lemma lower_ascii_lowered (unicode_lower : str -> str) (s : str) :
  forallb is_ascii s = true ->
  lower unicode_lower (List.map ascii_lower s) = lower unicode_lower s.
Proof.
  intros Hs. unfold lower. rewrite Hs.
  assert (Hs' : forallb is_ascii (List.map ascii_lower s) = true).
  { apply forallb_forall. intros c Hc. apply List.in_map_iff in Hc.
    destruct Hc as (c0 & <- & Hc0). apply ascii_lower_is_ascii.
    rewrite forallb_forall in Hs. apply Hs. exact Hc0. }
  rewrite Hs', List.map_map. apply List.map_ext. intros c.
  apply ascii_lower_idem.
Qed.

(** The case of an ASCII suffix does not matter: lower-casing the suffix
    of a file changes neither its language nor whether the scan selects
    it ([.PY] is treated as [.py]). *)
Theorem suffix_case_insensitive (unicode_lower : str -> str)
    (f : ScannedFile) (e : FileEntry) :
  forallb is_ascii (suffix f) = true ->
  forallb is_ascii (fe_suffix e) = true ->
  get_language_from_extension unicode_lower
    (mkScannedFile (relative_path f) (List.map ascii_lower (suffix f))
                   (file_content f))
  = get_language_from_extension unicode_lower f /\
  should_process_file unicode_lower
    (mkFileEntry (fe_name e) (List.map ascii_lower (fe_suffix e))
                 (fe_size e) (fe_utf8 e))
  = should_process_file unicode_lower e.
Proof.
  intros Hf He. split.
  - unfold get_language_from_extension. cbn [suffix].
    rewrite lower_ascii_lowered by exact Hf. reflexivity.
  - unfold should_process_file, is_text_file. cbn [fe_suffix fe_size fe_utf8].
    rewrite lower_ascii_lowered by exact He. reflexivity.
Qed.

Lemma suffix_case_insensitive_witness :
  let f := mkScannedFile (lit "A.PY") (lit ".PY") (lit "x = 1") in
  let e := mkFileEntry (lit "A.PY") (lit ".PY") (Some 5) true in
  get_language_from_extension latin1_lower
    (mkScannedFile (relative_path f) (List.map ascii_lower (suffix f))
                   (file_content f))
  = get_language_from_extension latin1_lower f /\
  should_process_file latin1_lower
    (mkFileEntry (fe_name e) (List.map ascii_lower (fe_suffix e))
                 (fe_size e) (fe_utf8 e))
  = should_process_file latin1_lower e.
Proof.
  intros f e.
  apply (suffix_case_insensitive latin1_lower f e); reflexivity.
Defined.

(** ** Distances whose square overflows *)

Section SimilarityOverflow.
Import Round.

Lemma sq_key_overflow :
  sq_key (float_val overflow_distance) = (972, 2 ^ 52).
Proof. vm_compute. reflexivity. Qed.

Lemma similarity_overflow (d : PyFloat.float) :
  overflowing d -> similarity d = Raise OverflowError.
Proof.
  intros [Hv [[m [e ->]] Hle]].
  destruct (valid_canon false m e Hv) as [Hc _].
  unfold similarity, py_float_pow2. cbn [SFabs].
  rewrite (square_correct m e Hc).
  set (W := Zpos m * 2 ^ (e - emin)).
  assert (He : 460 <= e).
  { unfold PyFloat.leb, SFleb, overflow_distance in Hle.
    cbn [SFcompare] in Hle.
    destruct (Z.compare_spec 460 e) as [Heq|Hlt|Hgt];
      [lia | lia | discriminate]. }
  assert (Hm : 2 ^ 52 <= Zpos m).
  { destruct Hc as [_ [_ [Hmin|Hm]]]; cbn [fst snd] in *;
      [unfold emin in Hmin; lia | exact Hm]. }
  assert (HW : float_val overflow_distance <= W).
  { apply (canon_lex_val (460, 2 ^ 52) (e, Zpos m)); [|exact Hc|].
    - unfold canon, emin. cbn [fst snd].
      change (2 ^ 52) with 4503599627370496.
      change (2 ^ 53) with 9007199254740992. lia.
    - unfold lex_le. cbn [fst snd].
      destruct (Z.eq_dec 460 e) as [Heq|Hne];
        [right; split; assumption | left; lia]. }
  assert (HW0 : 0 <= float_val overflow_distance).
  { vm_compute. discriminate. }
  assert (Hlex : lex_le (972, 2 ^ 52) (sq_key W)).
  { rewrite <- sq_key_overflow. unfold sq_key.
    apply rn_key_mono; [unfold emin; lia|].
    set (W0 := float_val overflow_distance) in *. nia. }
  pose proof (sq_key_canon W) as Hcs.
  destruct (sq_key W) as [es ms].
  unfold lex_le in Hlex. unfold canon in Hcs. cbn [fst snd] in Hlex, Hcs.
  assert (Hes : 972 <= es) by lia.
  assert (Hms : 2 ^ 52 <= ms).
  { destruct Hcs as [_ [_ [Hmin|Hms]]];
      [unfold emin in Hmin; lia | exact Hms]. }
  unfold key_float. cbn [fst snd].
  destruct ms as [|p|p].
  - exfalso. change (2 ^ 52) with 4503599627370496 in Hms. lia.
  - destruct (Z.leb_spec es 971); [lia|]. reflexivity.
  - exfalso. change (2 ^ 52) with 4503599627370496 in Hms. lia.
Qed.
End SimilarityOverflow.

Lemma retrieve_items_overflow (vector : Type)
    (items : list (str * metadata * PyFloat.float)) :
  Exists (fun it => overflowing (snd it)) items ->
  forall s : state vector,
    map_M retrieve_item items s = (Raise OverflowError, s).
Proof.
  induction items as [|[[text meta] dist] items IH]; intros Hex s.
  - inversion Hex.
  - cbn [map_M]. unfold bind at 1. unfold retrieve_item at 1.
    unfold bind at 1. unfold lift at 1.
    destruct (similarity dist) as [sim|e] eqn:Hsim.
    + unfold ret at 1. unfold bind at 1.
      inversion Hex as [it l Hhere|it l Hlater]; subst.
      * cbn [snd] in Hhere. rewrite (similarity_overflow _ Hhere) in Hsim.
        discriminate.
      * rewrite (IH Hlater s). reflexivity.
    + f_equal. f_equal. unfold similarity in Hsim.
      destruct dist as [b|b| |b m e0]; try discriminate.
      unfold py_float_pow2 in Hsim.
      destruct (PyFloat.mul _ _); try discriminate.
      injection Hsim as <-. reflexivity.
Qed.

(** One huge finite distance spoils the whole answer. When an entry of
    the index answer has a finite distance of [2.0 ** 512] or more,
    [d ** 2] raises [OverflowError] and [retrieve] returns no result at
    all, not even for the entries before it (an infinite distance, by
    contrast, just scores [0.0]). *)
Theorem retrieve_overflow (vector : Type)
    (ollama : str -> post_result vector)
    (knn : list (row vector) -> vector -> Z -> option QueryResult)
    (query name : str) (top_k : option Z) (v : vector)
    (s : state vector) (results : QueryResult) :
  collection s = Some name ->
  ollama query = Status200 v ->
  knn (rows_of (db s) name) v
      (Z.min (top_k_or_default top_k)
             (Z.of_nat (length (rows_of (db s) name)))) = Some results ->
  Exists (fun it => overflowing (snd it))
         (zip3 (res_documents results) (res_metadatas results)
               (res_distances results)) ->
  exists s' : state vector,
    retrieve ollama knn query top_k s = (Raise OverflowError, s') /\
    db s' = db s.
Proof.
  intros Hcol Hemb Hknn Hex.
  rewrite (retrieve_attached vector ollama knn query top_k name v s
             Hcol Hemb).
  cbv zeta. rewrite Hknn.
  rewrite (retrieve_items_overflow vector _ Hex).
  eexists. split; reflexivity.
Qed.

Lemma retrieve_overflow_witness :
  let name := lit "repo_demo" in
  let md := mkMetadata (lit "a.py") (lit "python") in
  let rows := [mkRow (lit "doc_0") (lit "x = 1") (md 0) 5%nat;
               mkRow (lit "doc_1") (lit "y = 2") (md 1) 5%nat] in
  let far_knn := fun (rs : list (row nat)) (_ : nat) (_ : Z) =>
    Some (mkQueryResult (List.map row_document rs)
                        (List.map row_metadata rs)
                        [PyFloat.zero; overflow_distance]) in
  let s := mkState true (Some name) [] (<[name := rows]> ∅) [] in
  exists s' : state nat,
    retrieve length_embedder far_knn (lit "what is x") None s
    = (Raise OverflowError, s') /\
    db s' = db s.
Proof.
  intros name md rows far_knn s.
  apply (retrieve_overflow nat length_embedder far_knn
           (lit "what is x") name None 9%nat s
           (mkQueryResult (List.map row_document rows)
                          (List.map row_metadata rows)
                          [PyFloat.zero; overflow_distance])).
  - reflexivity.
  - reflexivity.
  - vm_compute. reflexivity.
  - apply Exists_cons_tl. apply Exists_cons_hd.
    split; [reflexivity|]. split; [|reflexivity].
    exists 4503599627370496%positive, 460. reflexivity.
Defined.
